(** * Maple: the search node and the move-history ledger

    A shallow embedding of [src/board/record.py] (class [Record]),
    [src/mcts/node.py] (class [MCTSNode]) and the plane generators of
    [src/nn/feature.py], with the small part of the Python and NumPy run
    time that they rely on.

    - Python [int] is [Z]; a [np.int32] cell is a [Z] kept in range by
      explicit wrap-around; a [np.float64] cell and a Python [float] are
      binary64 numbers, Rocq's primitive [float].
    - A Python list and a one-dimensional NumPy array are a [list];
      subscripts follow Python (negative subscripts count from the end,
      anything else out of range raises [IndexError]).
    - A method is a function from the state of [self] to an outcome: a
      returned value or a raised exception, each with the state as mutated
      so far. *)

From Stdlib Require Import ZArith Lia Bool List String.
From Stdlib Require Import Floats Uint63.
From Stdlib Require Import Reals Lra.
From stdpp Require Import base list.

Local Open Scope Z_scope.
Set Warnings "-inexact-float".

(* ================================================================= *)
(** * Part I: the embedding *)
(* ================================================================= *)

(** ** Python run time *)

Module Py.

Inductive exn : Type :=
| IndexError
| KeyError (key : Z)
| ValueError.

(** The outcome of running a method on a [self] of type [S]. *)
Inductive outcome (S A : Type) : Type :=
| Return (a : A) (s : S)
| Raise (e : exn) (s : S).
Arguments Return {S A} a s.
Arguments Raise {S A} e s.

Definition M (S A : Type) : Type := S -> outcome S A.

Definition ret {S A} (a : A) : M S A := fun s => Return a s.

Definition bind {S A B} (c : M S A) (k : A -> M S B) : M S B :=
  fun s => match c s with
           | Return a s' => k a s'
           | Raise e s' => Raise e s'
           end.

Definition raise {S A} (e : exn) : M S A := fun s => Raise e s.

Definition read {S} : M S S := fun s => Return s s.

Definition state_of {S A} (o : outcome S A) : S :=
  match o with Return _ s => s | Raise _ s => s end.

(** The same returned value or raised exception, beside another state. *)
Definition with_state {S S' A} (o : outcome S A) (s' : S') : outcome S' A :=
  match o with Return a _ => Return a s' | Raise e _ => Raise e s' end.

Declare Scope py_scope.
Delimit Scope py_scope with py.
Notation "x <- c ;; k" := (bind c (fun x => k))
  (at level 100, c at next level, right associativity) : py_scope.
Notation "c ;;; k" := (bind c (fun _ => k))
  (at level 100, right associativity) : py_scope.

(** [for x in xs: acc = body(acc, x)], the loop variable [acc] threaded
    through the iterations. *)
Fixpoint for_fold {S A B} (xs : list A) (acc : B) (body : B -> A -> M S B) : M S B :=
  match xs with
  | [] => ret acc
  | x :: xs' => bind (body acc x) (fun acc' => for_fold xs' acc' body)
  end.

(** [for x in xs: body(x)]. *)
Definition for_each {S A} (xs : list A) (body : A -> M S unit) : M S unit :=
  for_fold xs tt (fun _ x => body x).

(** [range(n)]. *)
Definition range (n : nat) : list nat := seq 0 n.

(** The list comprehension [[f(x) for x in xs]]. *)
Fixpoint list_comp {S A B} (xs : list A) (f : A -> M S B) : M S (list B) :=
  match xs with
  | [] => ret []
  | x :: xs' => bind (f x) (fun y => bind (list_comp xs' f) (fun ys => ret (y :: ys)))
  end.

(** The position a subscript [i] denotes in a sequence of [len] items. *)
Definition index_of (len : nat) (i : Z) : option nat :=
  if (0 <=? i) && (i <? Z.of_nat len) then Some (Z.to_nat i)
  else if (- Z.of_nat len <=? i) && (i <? 0) then Some (Z.to_nat (Z.of_nat len + i))
  else None.

(** How many of the subscripts [path] denote position [k]. *)
Definition hits (len : nat) (k : nat) (path : list Z) : Z :=
  Z.of_nat (length (filter (fun i => bool_decide (index_of len i = Some k)) path)).

(** [l[i]]. *)
Definition getitem {S A} (l : list A) (i : Z) : M S A :=
  match index_of (length l) i ≫= (fun k => l !! k) with
  | Some x => ret x
  | None => raise IndexError
  end.

(** [l[i] = x], giving the updated sequence. *)
Definition setitem {S A} (l : list A) (i : Z) (x : A) : M S (list A) :=
  match index_of (length l) i with
  | Some k => ret (<[k:=x]> l)
  | None => raise IndexError
  end.

(** [new] is [old] with the items of [xs] written from slot [start] on. *)
Definition installs {A} (xs : list A) (start : nat) (old new : list A) : Prop :=
  length new = length old /\
  (forall i x, xs !! i = Some x -> new !! (start + i)%nat = Some x) /\
  (forall j, (j < start)%nat \/ (start + length xs <= j)%nat -> new !! j = old !! j).

(** A [dict] with [int] keys: its items in insertion order, each key once. *)
Definition dict (V : Type) : Type := list (Z * V).

Fixpoint dict_get {V} (d : dict V) (k : Z) : option V :=
  match d with
  | [] => None
  | (k', v) :: d' => if k' =? k then Some v else dict_get d' k
  end.

(** [d[k]]. *)
Definition dict_getitem {S V} (d : dict V) (k : Z) : M S V :=
  match dict_get d k with
  | Some v => ret v
  | None => raise (KeyError k)
  end.

(** [d[k] = v]: a key already present keeps its place. *)
Fixpoint dict_setitem {V} (d : dict V) (k : Z) (v : V) : dict V :=
  match d with
  | [] => [(k, v)]
  | (k', v') :: d' => if k' =? k then (k', v) :: d' else (k', v') :: dict_setitem d' k v
  end.

(** The display [{k1: v1, k2: v2, ...}]. *)
Definition dict_display {V} (kvs : list (Z * V)) : dict V :=
  fold_left (fun d kv => dict_setitem d (fst kv) (snd kv)) kvs [].

(** [d.items()]. *)
Definition items {V} (d : dict V) : list (Z * V) := d.

End Py.

Export Py.
Local Open Scope py_scope.

(** ** NumPy run time *)

Module np.

(** [np.int32]: two's complement on 32 bits. *)
Definition int32_min : Z := -2147483648.
Definition int32_max : Z := 2147483647.

Definition is_int32 (z : Z) : Prop := int32_min <= z <= int32_max.

Definition wrap_int32 (z : Z) : Z := (z + 2147483648) mod 4294967296 - 2147483648.

Definition add_int32 (a b : Z) : Z := wrap_int32 (a + b).
Definition sub_int32 (a b : Z) : Z := wrap_int32 (a - b).

(** [np.zeros(n)] and friends; [a.fill(v)] keeps the shape of [a]. *)
Definition full {A} (n : nat) (v : A) : list A := replicate n v.
Definition fill {A} (a : list A) (v : A) : list A := replicate (length a) v.

(** [a + b] on two arrays of one shape (the arrays of a node are all
    allocated with the same number of slots and never resized). *)
Definition add_int32_array (a b : list Z) : list Z := zip_with add_int32 a b.
Definition add_float64_array (a b : list float) : list float := zip_with PrimFloat.add a b.

(** A function of three arguments applied item by item to three arrays. *)
Fixpoint map3 {A B C D} (f : A -> B -> C -> D) (la : list A) (lb : list B) (lc : list C) : list D :=
  match la, lb, lc with
  | a :: la', b :: lb', c :: lc' => f a b c :: map3 f la' lb' lc'
  | _, _, _ => []
  end.

(** [np.any(a == v)] on an integer array. *)
Definition any_eq (a : list Z) (v : Z) : bool := existsb (fun x => x =? v) a.

(** [np.argmax] on an integer array: the scan keeps the running maximum
    [mp] and its position, and moves on a strictly greater item only. *)
Fixpoint argmax_int_loop (ip : list Z) (i : nat) (mp : Z) (max_ind : nat) : nat :=
  match ip with
  | [] => max_ind
  | x :: ip' =>
      if mp <? x then argmax_int_loop ip' (S i) x i
      else argmax_int_loop ip' (S i) mp max_ind
  end.

Definition argmax_int {S} (a : list Z) : M S nat :=
  match a with
  | [] => raise ValueError
  | x :: ip => ret (argmax_int_loop ip 1 x 0)
  end.

(** [np.argmax] on a [float64] array: the scan moves when the item is
    not [<=] the running maximum, and stops at the first NaN, which it
    takes to be maximal. *)
Fixpoint argmax_float_loop (ip : list float) (i : nat) (mp : float) (max_ind : nat) : nat :=
  match ip with
  | [] => max_ind
  | x :: ip' =>
      if negb (PrimFloat.leb x mp) then
        if PrimFloat.is_nan x then i
        else argmax_float_loop ip' (S i) x i
      else argmax_float_loop ip' (S i) mp max_ind
  end.

Definition argmax_float {S} (a : list float) : M S nat :=
  match a with
  | [] => raise ValueError
  | x :: ip => if PrimFloat.is_nan x then ret 0%nat else ret (argmax_float_loop ip 1 x 0)
  end.

(** The order in which [np.argmax] ranks [float64] scores: NaN is above
    everything; otherwise it is [<=]. *)
Definition rank_le (x y : float) : bool := PrimFloat.is_nan y || PrimFloat.leb x y.

Definition float_le (x y : float) : Prop := rank_le x y = true.

(** [r] is the lowest position of [l] that holds a maximum of [l] for the
    order [le]: every item is below the one at [r], and no item before
    [r] is above it. *)
Definition first_max {A} (le : A -> A -> Prop) (l : list A) (r : nat) : Prop :=
  exists m, l !! r = Some m /\
    (forall j x, l !! j = Some x -> le x m) /\
    (forall j x, (j < r)%nat -> l !! j = Some x -> ~ le m x).

(** Two-dimensional [float64] arrays: the list of their rows, all of
    one length. *)
Definition zeros (shape : nat * nat) : list (list float) :=
  replicate (fst shape) (replicate (snd shape) 0%float).
Definition ones (shape : nat * nat) : list (list float) :=
  replicate (fst shape) (replicate (snd shape) 1%float).

(** Row [k] of [np.identity(n)]. *)
Definition identity_row (n k : nat) : list float :=
  map (fun j => if (j =? k)%nat then 1%float else 0%float) (seq 0 n).

(** [np.identity(n)[idx]] for a list [idx] of subscripts (machine
    integers): the rows they denote, one after the other; a subscript out
    of range raises [IndexError]. *)
Definition identity_getitem {S} (n : nat) (idx : list Z) : M S (list (list float)) :=
  list_comp idx (fun i =>
    match index_of n i with
    | Some k => ret (identity_row n k)
    | None => raise IndexError
    end).

(** [a.transpose()] for [a] of shape [(len(a), ncols)]. *)
Definition transpose (ncols : nat) (a : list (list float)) : list (list float) :=
  map (fun j => map (fun row => nth j row 0%float) a) (seq 0 ncols).

(** [np.array(l)] for a list of Python [int]s, read as the [float64]
    items that [np.concatenate] with [float64] arrays makes of them. *)
Definition array (l : list Z) : list float :=
  map (fun z => if z <? 0 then PrimFloat.opp (PrimFloat.of_uint63 (Uint63.of_Z (- z)))
                else PrimFloat.of_uint63 (Uint63.of_Z z)) l.

(** [a.reshape(1, n)] of a one-dimensional array. *)
Definition reshape_row {S} (a : list float) (n : nat) : M S (list (list float)) :=
  if (length a =? n)%nat then ret [a] else raise ValueError.

Definition ncols (a : list (list float)) : nat :=
  match a with [] => 0%nat | row :: _ => length row end.

(** [np.concatenate(arrays)] along the first axis: the rows must all
    have one length. *)
Definition concatenate {S} (arrays : list (list (list float))) : M S (list (list float)) :=
  match arrays with
  | [] => raise ValueError
  | a :: rest =>
      if forallb (fun b => (ncols b =? ncols a)%nat) rest then ret (concat arrays)
      else raise ValueError
  end.

(** [k] consecutive pieces of [m] items each. *)
Definition chunk {A} (k m : nat) (l : list A) : list (list A) :=
  map (fun r => take m (drop (r * m) l)) (seq 0 k).

(** [a.reshape(d0, d, d)]: the items in row-major order; a negative [d]
    is refused, and so is a shape of another size. *)
Definition reshape_planes {S} (a : list (list float)) (d0 : nat) (d : Z)
    : M S (list (list (list float))) :=
  if (0 <=? d) && (Z.of_nat (length (concat a)) =? Z.of_nat d0 * d * d) then
    ret (map (chunk (Z.to_nat d) (Z.to_nat d)) (chunk d0 (Z.to_nat (d * d)) (concat a)))
  else raise ValueError.

(** [np.float32(x)]: the binary32 number nearest to [x], ties to even,
    held as the binary64 number of the same value. *)
Definition float32 (x : float) : float :=
  match Prim2SF x with
  | S754_finite s m e => SF2Prim (binary_round 24 128 s m e)
  | _ => x
  end.

(** [a.astype(np.float32)] on a three-dimensional array. *)
Definition astype_float32 (a : list (list (list float))) : list (list (list float)) :=
  map (map (map float32)) a.

End np.

(** ** [board.stone.Stone] *)

(** Modelled from the spec: [board/stone.py] is not among the sources;
    the ledger stores "stone color played" and its empty state is the
    "empty color"; the sources name [Stone.EMPTY] and [Stone.WHITE], the
    spec's scenarios [BLACK] and [WHITE]. *)
Inductive Stone : Type := EMPTY | BLACK | WHITE.

(** ** [board/record.py] *)

Module Record.

(** The three parallel sequences of a [Record] object; [hash_value] is a
    [np.uint64] array. *)
Record t : Type := mk {
  color : list Stone;
  pos : list Z;
  hash_value : list Z
}.

(** What a method of the ledger acts on: the object, and the error
    stream it reports to. *)
Record world : Type := World {
  self : t;
  stderr : list string
}.

Definition set_color (v : list Stone) (r : t) : t :=
  {| color := v; pos := pos r; hash_value := hash_value r |}.
Definition set_pos (v : list Z) (r : t) : t :=
  {| color := color r; pos := v; hash_value := hash_value r |}.
Definition set_hash_value (v : list Z) (r : t) : t :=
  {| color := color r; pos := pos r; hash_value := v |}.

Definition update (f : t -> t) : M world unit :=
  fun w => Return tt {| self := f (self w); stderr := stderr w |}.

Definition this : M world t := fun w => Return (self w) w.

(** Modelled from the spec: [common/print_console.py] is not among the
    sources; the spec says the failure "is reported as a non-fatal error".
    [print_err] appends its message to the error stream and returns. *)
Definition print_err (message : string) : M world unit :=
  fun w => Return tt {| self := self w; stderr := stderr w ++ [message] |}.

Section Ledger.

(** [board.constant.MAX_RECORDS] and [board.constant.PASS]: the module is
    not among the sources, the two constants are parameters. *)
Variable MAX_RECORDS : nat.
Variable PASS : Z.

(** [Record.__init__]. *)
Definition init : t :=
  {| color := replicate MAX_RECORDS EMPTY;
     pos := replicate MAX_RECORDS PASS;
     hash_value := np.full MAX_RECORDS 0 |}.

(** [Record.clear]. *)
Definition clear : M world unit :=
  update (set_color (replicate MAX_RECORDS EMPTY)) ;;;
  update (set_pos (replicate MAX_RECORDS PASS)) ;;;
  update (fun r => set_hash_value (np.fill (hash_value r) 0) r).

(** [Record.save]. *)
Definition save (moves : Z) (color' : Stone) (pos' : Z) (hash_value' : Z) : M world unit :=
  if moves <? Z.of_nat MAX_RECORDS then
    r <- this ;; c <- setitem (color r) moves color' ;; update (set_color c) ;;;
    r <- this ;; p <- setitem (pos r) moves pos' ;; update (set_pos p) ;;;
    r <- this ;; h <- setitem (hash_value r) moves hash_value' ;; update (set_hash_value h)
  else
    print_err "Cannot save move record.".

(** [Record.has_same_hash]. *)
Definition has_same_hash (hash_value' : Z) : M world bool :=
  r <- this ;; ret (np.any_eq (hash_value r) hash_value').

(** [Record.get]. *)
Definition get (moves : Z) : M world (Stone * Z * Z) :=
  r <- this ;;
  c <- getitem (color r) moves ;;
  p <- getitem (pos r) moves ;;
  h <- getitem (hash_value r) moves ;;
  ret (c, p, h).



(** The shape every ledger has: three sequences of [MAX_RECORDS] slots. *)
Definition wf (r : t) : Prop :=
  length (color r) = MAX_RECORDS /\
  length (pos r) = MAX_RECORDS /\
  length (hash_value r) = MAX_RECORDS.

End Ledger.

End Record.

(** ** [board/record.py], with the identity of its objects *)

(** The ledger above holds its three sequences by value. Here they are
    objects of a heap, held by reference, as Python has them: [save]
    writes into the ledger's own lists, [clear] binds two new lists and
    zeroes the hash array in place, [get_hash_history] hands out the array
    itself and [copy_record] binds copies. A world in which an attribute
    does not refer to an object of its kind is outside the model: a
    computation on it gives [None]. *)
Module Store.

Definition addr : Type := nat.

Inductive obj : Type :=
| Stones (l : list Stone)
| Ints (l : list Z)
| Hashes (a : list Z)
| Instance (color pos hash_value : addr).

Record world : Type := World {
  heap : list obj;
  stderr : list string
}.

Definition MS (A : Type) : Type := world -> option (outcome world A).

Definition ret {A} (a : A) : MS A := fun w => Some (Return a w).

Definition bind {A B} (c : MS A) (k : A -> MS B) : MS B :=
  fun w => match c w with
           | Some (Return a w') => k a w'
           | Some (Raise e w') => Some (Raise e w')
           | None => None
           end.

Definition stuck {A} : MS A := fun _ => None.

(** A step of the run time of [Py], which cannot leave the model. *)
Definition lift {A} (c : M world A) : MS A := fun w => Some (c w).

Declare Scope store_scope.
Delimit Scope store_scope with store.
Notation "x <- c ;; k" := (bind c (fun x => k))
  (at level 100, c at next level, right associativity) : store_scope.
Notation "c ;;; k" := (bind c (fun _ => k))
  (at level 100, right associativity) : store_scope.
Local Open Scope store_scope.

(** A new object, at an address not in use. *)
Definition alloc (o : obj) : MS addr :=
  fun w => Some (Return (length (heap w)) (World (heap w ++ [o]) (stderr w))).

Definition load (a : addr) : MS obj :=
  fun w => match heap w !! a with
           | Some o => Some (Return o w)
           | None => None
           end.

Definition put (a : addr) (o : obj) : MS unit :=
  fun w => match heap w !! a with
           | Some _ => Some (Return tt (World (<[a:=o]> (heap w)) (stderr w)))
           | None => None
           end.

Definition stones (a : addr) : MS (list Stone) :=
  o <- load a ;; match o with Stones l => ret l | _ => stuck end.
Definition ints (a : addr) : MS (list Z) :=
  o <- load a ;; match o with Ints l => ret l | _ => stuck end.
Definition hashes (a : addr) : MS (list Z) :=
  o <- load a ;; match o with Hashes l => ret l | _ => stuck end.

(** [self.color], [self.pos], [self.hash_value]. *)
Definition get_color (self : addr) : MS addr :=
  o <- load self ;; match o with Instance c _ _ => ret c | _ => stuck end.
Definition get_pos (self : addr) : MS addr :=
  o <- load self ;; match o with Instance _ p _ => ret p | _ => stuck end.
Definition get_hash_value (self : addr) : MS addr :=
  o <- load self ;; match o with Instance _ _ h => ret h | _ => stuck end.

(** [self.color = c], [self.pos = p], [self.hash_value = h]. *)
Definition set_color (self c : addr) : MS unit :=
  o <- load self ;; match o with Instance _ p h => put self (Instance c p h) | _ => stuck end.
Definition set_pos (self p : addr) : MS unit :=
  o <- load self ;; match o with Instance c _ h => put self (Instance c p h) | _ => stuck end.
Definition set_hash_value (self h : addr) : MS unit :=
  o <- load self ;; match o with Instance c p _ => put self (Instance c p h) | _ => stuck end.

Definition print_err (message : string) : MS unit :=
  fun w => Some (Return tt (World (heap w) (stderr w ++ [message]))).

Section Ledger.

Variable MAX_RECORDS : nat.
Variable PASS : Z.

(** [Record()]: the three sequences of [__init__], then the instance
    that holds them. *)
Definition new : MS addr :=
  c <- alloc (Stones (replicate MAX_RECORDS EMPTY)) ;;
  p <- alloc (Ints (replicate MAX_RECORDS PASS)) ;;
  h <- alloc (Hashes (np.full MAX_RECORDS 0)) ;;
  alloc (Instance c p h).

(** [Record.clear]. *)
Definition clear (self : addr) : MS unit :=
  c <- alloc (Stones (replicate MAX_RECORDS EMPTY)) ;; set_color self c ;;;
  p <- alloc (Ints (replicate MAX_RECORDS PASS)) ;; set_pos self p ;;;
  h <- get_hash_value self ;; a <- hashes h ;; put h (Hashes (np.fill a 0)).

(** [Record.save]. *)
Definition save (self : addr) (moves : Z) (color' : Stone) (pos' : Z) (hash_value' : Z)
    : MS unit :=
  if moves <? Z.of_nat MAX_RECORDS then
    c <- get_color self ;; l <- stones c ;;
    l' <- lift (setitem l moves color') ;; put c (Stones l') ;;;
    p <- get_pos self ;; l <- ints p ;;
    l' <- lift (setitem l moves pos') ;; put p (Ints l') ;;;
    h <- get_hash_value self ;; a <- hashes h ;;
    a' <- lift (setitem a moves hash_value') ;; put h (Hashes a')
  else
    print_err "Cannot save move record.".

(** [Record.has_same_hash]. *)
Definition has_same_hash (self : addr) (hash_value' : Z) : MS bool :=
  h <- get_hash_value self ;; a <- hashes h ;; ret (np.any_eq a hash_value').

(** [Record.get]. *)
Definition get (self : addr) (moves : Z) : MS (Stone * Z * Z) :=
  c <- get_color self ;; l <- stones c ;; x <- lift (getitem l moves) ;;
  p <- get_pos self ;; l <- ints p ;; y <- lift (getitem l moves) ;;
  h <- get_hash_value self ;; a <- hashes h ;; z <- lift (getitem a moves) ;;
  ret (x, y, z).



End Ledger.

(** What an instance holds, read through its references. *)
Definition view (w : world) (self : addr) : option Record.t :=
  match heap w !! self with
  | Some (Instance c p h) =>
      match heap w !! c, heap w !! p, heap w !! h with
      | Some (Stones lc), Some (Ints lp), Some (Hashes lh) => Some (Record.mk lc lp lh)
      | _, _, _ => None
      end
  | _ => None
  end.


(** A run on the heap and a run on the ledger by value agree: the same
    value or exception, and the instance then holds the ledger that the
    run by value leaves, with the same reports. *)
Definition agrees {A} (self : addr) (o : option (outcome world A))
    (o' : outcome Record.world A) : Prop :=
  exists w', o = Some (with_state o' w') /\
    view w' self = Some (Record.self (state_of o')) /\
    stderr w' = Record.stderr (state_of o').


End Store.

(** ** [mcts/node.py] *)

Module MCTSNode.

(** The fields of an [MCTSNode] object. [action] is a Python list of
    [int]; [children_index], [children_visits] and [children_virtual_loss]
    are [np.int32] arrays; the other arrays are [np.float64]. *)
Record t : Type := mk {
  node_visits : Z;
  virtual_loss : Z;
  node_value_sum : float;
  action : list Z;
  children_index : list Z;
  children_value : list float;
  children_visits : list Z;
  children_policy : list float;
  children_virtual_loss : list Z;
  children_value_sum : list float;
  noise : list float;
  num_children : nat
}.

Definition set_node_visits (v : Z) (n : t) : t :=
  mk v (virtual_loss n) (node_value_sum n) (action n) (children_index n)
     (children_value n) (children_visits n) (children_policy n)
     (children_virtual_loss n) (children_value_sum n) (noise n) (num_children n).
Definition set_virtual_loss (v : Z) (n : t) : t :=
  mk (node_visits n) v (node_value_sum n) (action n) (children_index n)
     (children_value n) (children_visits n) (children_policy n)
     (children_virtual_loss n) (children_value_sum n) (noise n) (num_children n).
Definition set_node_value_sum (v : float) (n : t) : t :=
  mk (node_visits n) (virtual_loss n) v (action n) (children_index n)
     (children_value n) (children_visits n) (children_policy n)
     (children_virtual_loss n) (children_value_sum n) (noise n) (num_children n).
Definition set_action (v : list Z) (n : t) : t :=
  mk (node_visits n) (virtual_loss n) (node_value_sum n) v (children_index n)
     (children_value n) (children_visits n) (children_policy n)
     (children_virtual_loss n) (children_value_sum n) (noise n) (num_children n).
Definition set_children_index (v : list Z) (n : t) : t :=
  mk (node_visits n) (virtual_loss n) (node_value_sum n) (action n) v
     (children_value n) (children_visits n) (children_policy n)
     (children_virtual_loss n) (children_value_sum n) (noise n) (num_children n).
Definition set_children_value (v : list float) (n : t) : t :=
  mk (node_visits n) (virtual_loss n) (node_value_sum n) (action n) (children_index n)
     v (children_visits n) (children_policy n)
     (children_virtual_loss n) (children_value_sum n) (noise n) (num_children n).
Definition set_children_visits (v : list Z) (n : t) : t :=
  mk (node_visits n) (virtual_loss n) (node_value_sum n) (action n) (children_index n)
     (children_value n) v (children_policy n)
     (children_virtual_loss n) (children_value_sum n) (noise n) (num_children n).
Definition set_children_policy (v : list float) (n : t) : t :=
  mk (node_visits n) (virtual_loss n) (node_value_sum n) (action n) (children_index n)
     (children_value n) (children_visits n) v
     (children_virtual_loss n) (children_value_sum n) (noise n) (num_children n).
Definition set_children_virtual_loss (v : list Z) (n : t) : t :=
  mk (node_visits n) (virtual_loss n) (node_value_sum n) (action n) (children_index n)
     (children_value n) (children_visits n) (children_policy n)
     v (children_value_sum n) (noise n) (num_children n).
Definition set_children_value_sum (v : list float) (n : t) : t :=
  mk (node_visits n) (virtual_loss n) (node_value_sum n) (action n) (children_index n)
     (children_value n) (children_visits n) (children_policy n)
     (children_virtual_loss n) v (noise n) (num_children n).
Definition set_noise (v : list float) (n : t) : t :=
  mk (node_visits n) (virtual_loss n) (node_value_sum n) (action n) (children_index n)
     (children_value n) (children_visits n) (children_policy n)
     (children_virtual_loss n) (children_value_sum n) v (num_children n).
Definition set_num_children (v : nat) (n : t) : t :=
  mk (node_visits n) (virtual_loss n) (node_value_sum n) (action n) (children_index n)
     (children_value n) (children_visits n) (children_policy n)
     (children_virtual_loss n) (children_value_sum n) (noise n) v.

(** [self.f = v] and [self.f] inside a method. *)
Definition update (f : t -> t) : M t unit := fun n => Return tt (f n).
Definition this : M t t := read.

(** [PUCT_WEIGHT = 1.0]. *)
Definition PUCT_WEIGHT : float := 1%float.

Section Node.

(** [board.constant.BOARD_SIZE] and [mcts.constant.NOT_EXPANDED]: neither
    module is among the sources, the two constants are parameters. *)
Variable BOARD_SIZE : nat.
Variable NOT_EXPANDED : Z.

(** [mcts.pucb.pucb.calculate_pucb_value]: the evaluator is not among the
    sources; it is a parameter, taking the parent total, the array of
    child totals, the array of accumulated values and the array of
    exploration weights to the array of scores. *)
Variable calculate_pucb_value : Z -> list Z -> list float -> list float -> list float.

(** [MAX_ACTIONS = BOARD_SIZE ** 2 + 1]. *)
Definition MAX_ACTIONS : nat := (BOARD_SIZE ^ 2 + 1)%nat.

(** [MCTSNode.__init__], [num_actions] defaulting to [MAX_ACTIONS] at the
    call. *)
Definition init (num_actions : nat) : t :=
  {| node_visits := 0;
     virtual_loss := 0;
     node_value_sum := 0%float;
     action := replicate num_actions 0;
     children_index := np.full num_actions 0;
     children_value := np.full num_actions 0%float;
     children_visits := np.full num_actions 0;
     children_policy := np.full num_actions 0%float;
     children_virtual_loss := np.full num_actions 0;
     children_value_sum := np.full num_actions 0%float;
     noise := np.full num_actions 0%float;
     num_children := 0 |}.

(** The body of the loop of [set_policy]: one pass, from the loop
    variable [index] and the item [(pos, policy)] to the next [index]. *)
Definition set_policy_step (index : nat) (kv : Z * float) : M t nat :=
  let '(pos, policy) := kv in
  n <- this ;; a <- setitem (action n) (Z.of_nat index) pos ;; update (set_action a) ;;;
  n <- this ;; p <- setitem (children_policy n) (Z.of_nat index) policy ;;
  update (set_children_policy p) ;;;
  ret (index + 1)%nat.

(** [MCTSNode.set_policy]. *)
Definition set_policy (policy_map : dict float) : M t unit :=
  index <- for_fold (items policy_map) 0%nat set_policy_step ;;
  update (set_num_children index).

(** [MCTSNode.expand]. *)
Definition expand (policy : dict float) : M t unit :=
  update (set_node_visits 0) ;;;
  update (set_node_value_sum 0%float) ;;;
  update (set_virtual_loss 0) ;;;
  update (set_action (replicate MAX_ACTIONS 0)) ;;;
  update (fun n => set_children_index (np.fill (children_index n) NOT_EXPANDED) n) ;;;
  update (fun n => set_children_value (np.fill (children_value n) 0%float) n) ;;;
  update (fun n => set_children_visits (np.fill (children_visits n) 0) n) ;;;
  update (fun n => set_children_virtual_loss (np.fill (children_virtual_loss n) 0) n) ;;;
  update (fun n => set_children_value_sum (np.fill (children_value_sum n) 0%float) n) ;;;
  update (fun n => set_noise (np.fill (noise n) 0%float) n) ;;;
  set_policy policy.

(** [MCTSNode.add_virtual_loss]. *)
Definition add_virtual_loss (index : Z) : M t unit :=
  n <- this ;; update (set_virtual_loss (virtual_loss n + 1)) ;;;
  n <- this ;; x <- getitem (children_virtual_loss n) index ;;
  a <- setitem (children_virtual_loss n) index (np.add_int32 x 1) ;;
  update (set_children_virtual_loss a).

(** The body of the loop of [update_policy]. *)
Definition update_policy_step (policy : dict float) (i : nat) : M t unit :=
  n <- this ;;
  a <- getitem (action n) (Z.of_nat i) ;;
  p <- dict_getitem policy a ;;
  c <- setitem (children_policy n) (Z.of_nat i) p ;;
  update (set_children_policy c).

(** [MCTSNode.update_policy]. *)
Definition update_policy (policy : dict float) : M t unit :=
  n <- this ;;
  for_each (range (num_children n)) (update_policy_step policy).

(** [MCTSNode.update_child_value]. *)
Definition update_child_value (index : Z) (value : float) : M t unit :=
  n <- this ;; x <- getitem (children_value_sum n) index ;;
  a <- setitem (children_value_sum n) index (x + value)%float ;;
  update (set_children_value_sum a) ;;;
  n <- this ;; x <- getitem (children_visits n) index ;;
  a <- setitem (children_visits n) index (np.add_int32 x 1) ;;
  update (set_children_visits a) ;;;
  n <- this ;; x <- getitem (children_virtual_loss n) index ;;
  a <- setitem (children_virtual_loss n) index (np.sub_int32 x 1) ;;
  update (set_children_virtual_loss a).

(** [MCTSNode.update_node_value]. *)
Definition update_node_value (value : float) : M t unit :=
  n <- this ;; update (set_node_value_sum (node_value_sum n + value)%float) ;;;
  n <- this ;; update (set_node_visits (node_visits n + 1)) ;;;
  n <- this ;; update (set_virtual_loss (virtual_loss n - 1)).

(** The array of scores [select_next_action] takes its maximum over. *)
Definition pucb_values (n : t) : list float :=
  calculate_pucb_value (node_visits n + virtual_loss n)
    (np.add_int32_array (children_visits n) (children_virtual_loss n))
    (children_value_sum n)
    (np.add_float64_array (children_policy n) (noise n)).

(** The evaluator gives one score per child, by a function [f] of the
    parent total and of that child's total, value and weight. *)
Definition scores_per_child (f : Z -> Z -> float -> float -> float) : Prop :=
  forall N ns ws ps, calculate_pucb_value N ns ws ps = np.map3 (f N) ns ws ps.

(** The score [f] gives child [i] of a node, from the statistics that
    [select_next_action] passes on. *)
Definition child_score (f : Z -> Z -> float -> float -> float) (n : t) (i : nat) : option float :=
  v ← children_visits n !! i;
  l ← children_virtual_loss n !! i;
  w ← children_value_sum n !! i;
  p ← children_policy n !! i;
  z ← noise n !! i;
  Some (f (node_visits n + virtual_loss n) (np.add_int32 v l) w (p + z)%float).

(** Two nodes with the same statistics of their active children. *)
Definition same_statistics (n n' : t) : Prop :=
  num_children n' = num_children n /\
  node_visits n' + virtual_loss n' = node_visits n + virtual_loss n /\
  forall i, (i < num_children n)%nat ->
    children_visits n' !! i = children_visits n !! i /\
    children_virtual_loss n' !! i = children_virtual_loss n !! i /\
    children_value_sum n' !! i = children_value_sum n !! i /\
    children_policy n' !! i = children_policy n !! i /\
    noise n' !! i = noise n !! i.

(** [MCTSNode.select_next_action]. *)
Definition select_next_action : M t nat :=
  n <- this ;;
  np.argmax_float (take (num_children n) (pucb_values n)).

(** [MCTSNode.get_best_move_index]. *)
Definition get_best_move_index : M t nat :=
  n <- this ;;
  np.argmax_int (take (num_children n) (children_visits n)).

(** [MCTSNode.get_best_move]. *)
Definition get_best_move : M t Z :=
  i <- get_best_move_index ;;
  n <- this ;;
  getitem (action n) (Z.of_nat i).

(** [MCTSNode.set_leaf_value]. *)
Definition set_leaf_value (index : Z) (value : float) : M t unit :=
  n <- this ;; a <- setitem (children_value n) index value ;;
  update (set_children_value a).

(** [MCTSNode.get_num_children]. *)
Definition get_num_children : M t nat :=
  n <- this ;; ret (num_children n).

(** [MCTSNode.get_child_move]. *)
Definition get_child_move (index : Z) : M t Z :=
  n <- this ;; getitem (action n) index.

(** [MCTSNode.get_child_index]. *)
Definition get_child_index (index : Z) : M t Z :=
  n <- this ;; getitem (children_index n) index.

(** [MCTSNode.set_child_index]. The cell is a [np.int32]: the value is
    stored as NumPy's cast to 32 bits leaves it, which is the value itself
    when it is in range (NumPy 2 refuses an out-of-range Python [int]
    instead of reducing it). *)
Definition set_child_index (index : Z) (child_index : Z) : M t unit :=
  n <- this ;; a <- setitem (children_index n) index (np.wrap_int32 child_index) ;;
  update (set_children_index a).

(** The shape of a node whose arrays have [cap] slots: the seven arrays
    are of that one length, the [np.int32] cells are in range, and the
    active children are slots of the arrays and of [action]. *)
Record wf (cap : nat) (n : t) : Prop := {
  wf_children_index : length (children_index n) = cap;
  wf_children_value : length (children_value n) = cap;
  wf_children_visits : length (children_visits n) = cap;
  wf_children_policy : length (children_policy n) = cap;
  wf_children_virtual_loss : length (children_virtual_loss n) = cap;
  wf_children_value_sum : length (children_value_sum n) = cap;
  wf_noise : length (noise n) = cap;
  wf_visits_int32 : Forall np.is_int32 (children_visits n);
  wf_virtual_loss_int32 : Forall np.is_int32 (children_virtual_loss n);
  wf_num_children : (num_children n <= cap)%nat;
  wf_action : (num_children n <= length (action n))%nat
}.

End Node.

End MCTSNode.

(** ** The PUCB evaluator *)

Module PUCB.

(** The arithmetic the scoring formula is written in. *)
Class Arith (T : Type) : Type := {
  zero : T;
  one : T;
  add : T -> T -> T;
  mul : T -> T -> T;
  div : T -> T -> T;
  sqrt : T -> T;
  of_int : Z -> T
}.

(** Modelled from the spec: [mcts/pucb/pucb.py] is not among the sources.
    The spec (4.3) gives the score of a child from the parent total [N],
    the child total [n], the accumulated value [w] and the exploration
    weight [p]: "visited children blend an exploitation term (mean value
    w/n) with an exploration term proportional to p * sqrt(N) / (1 + n),
    scaled by a fixed exploration-weight constant", and an unvisited child
    gets no mean value (no division by zero): its exploitation term is
    zero. [c] is the exploration-weight constant. *)
Definition score {T} `{Arith T} (c : T) (N n : Z) (w p : T) : T :=
  add (if n =? 0 then zero else div w (of_int n))
      (div (mul (mul c p) (sqrt (of_int N))) (add one (of_int n))).

(** Binary64 arithmetic, as NumPy computes. *)
Definition float_of_int (z : Z) : float :=
  if z <? 0 then PrimFloat.opp (PrimFloat.of_uint63 (Uint63.of_Z (- z)))
  else PrimFloat.of_uint63 (Uint63.of_Z z).

#[export] Instance float_arith : Arith float := {|
  zero := 0%float;
  one := 1%float;
  add := PrimFloat.add;
  mul := PrimFloat.mul;
  div := PrimFloat.div;
  sqrt := PrimFloat.sqrt;
  of_int := float_of_int
|}.

(** Real arithmetic, the formula as the spec reads it. *)
#[export] Instance real_arith : Arith R := {|
  zero := 0%R;
  one := 1%R;
  add := Rplus;
  mul := Rmult;
  div := Rdiv;
  sqrt := R_sqrt.sqrt;
  of_int := IZR
|}.

(** Modelled from the spec: the evaluator "must operate over the full
    fixed-width arrays", one score per child. *)
Definition score_float (N n : Z) (w p : float) : float :=
  score MCTSNode.PUCT_WEIGHT N n w p.

Definition calculate_pucb_value (node_visits : Z) (children_visits : list Z)
    (value_sum policy : list float) : list float :=
  np.map3 (score_float node_visits) children_visits value_sum policy.


End PUCB.

(** ** [nn/feature.py] *)

Module Feature.

(** An item of [prev_moves]: the integer [PASS], or the tuple that
    [Record.get] returns. *)
Inductive prev_move : Type :=
| Int (z : Z)
| Tuple (t : Stone * Z * Z).

(** [m == z] for an integer [z]: a tuple and an integer are never equal. *)
Definition eq_int (m : prev_move) (z : Z) : bool :=
  match m with
  | Int x => x =? z
  | Tuple _ => false
  end.

Section Planes.

(** [board.constant.PASS], a Python [int] (it is a list subscript in
    [generate_rl_target_data]). *)
Variable PASS : Z.

(** The members of the [GoBoard] argument that the generators use;
    [board/go_board.py] is not among the sources, they are parameters:
    [board.get_board_data(sym)], [board.get_board_size()], [board.moves],
    [board.get_symmetrical_coordinate(pos, sym)] and [board.onboard_pos],
    all of them Python [int]s or lists of them. [board.record] is the
    state the generators run on. *)
Variable get_board_data : Z -> list Z.
Variable get_board_size : Z.
Variable moves : Z.
Variable get_symmetrical_coordinate : Z -> Z -> Z.
Variable onboard_pos : list Z.

(** [prev_moves], line 34. *)
Definition prev_moves_of : M Record.world (list prev_move) :=
  list_comp (range 5) (fun i =>
    if moves <? Z.of_nat i + 1 then ret (Int PASS)
    else t <- Record.get (moves - Z.of_nat i - 1) ;; ret (Tuple t)).

(** The body of the loop of lines 41 to 46, on the two lists of planes. *)
Definition planes_step (sym : Z) (prev_moves : list prev_move)
    (planes : list (list (list float)) * list (list (list float))) (i : nat)
    : M Record.world (list (list (list float)) * list (list (list float))) :=
  let board_size := get_board_size in
  let '(history_planes, pass_planes) := planes in
  is_pass <- (if moves >? Z.of_nat i + 1
              then m <- getitem prev_moves (Z.of_nat i) ;; ret (eq_int m PASS)
              else ret false) ;;
  if is_pass : bool then
    pass_planes <- setitem pass_planes (Z.of_nat i) (np.ones (1%nat, Z.to_nat (board_size ^ 2))) ;;
    ret (history_planes, pass_planes)
  else
    prev_move_data <- list_comp onboard_pos (fun pos =>
      m <- getitem prev_moves (Z.of_nat i) ;;
      ret (if eq_int m (get_symmetrical_coordinate pos sym) then 1 else 0)) ;;
    plane <- np.reshape_row (np.array prev_move_data) (Z.to_nat (board_size ^ 2)) ;;
    history_planes <- setitem history_planes (Z.of_nat i) plane ;;
    ret (history_planes, pass_planes).

(** [generate_input_planes]. *)
Definition generate_input_planes (color : Stone) (sym : Z)
    : M Record.world (list (list (list float))) :=
  let board_data := get_board_data sym in
  let board_size := get_board_size in
  let board_data :=
    match color with
    | WHITE => map (fun datum => if datum =? 0 then datum else 3 - datum) board_data
    | _ => board_data
    end in
  rows <- np.identity_getitem 3 board_data ;;
  let board_plane := np.transpose 3 rows in
  prev_moves <- prev_moves_of ;;
  let history_planes := map (fun _ => np.zeros (1%nat, Z.to_nat (board_size ^ 2))) (range 5) in
  let pass_planes := map (fun _ => np.zeros (1%nat, Z.to_nat (board_size ^ 2))) (range 5) in
  planes <- for_fold (range 5) (history_planes, pass_planes) (planes_step sym prev_moves) ;;
  let '(history_planes, pass_planes) := planes in
  let color_plane := np.ones (1%nat, Z.to_nat (board_size ^ 2)) in
  let color_plane :=
    match color with
    | WHITE => map (map (fun x => PrimFloat.mul x (-1)%float)) color_plane
    | _ => color_plane
    end in
  h0 <- getitem history_planes 0 ;; p0 <- getitem pass_planes 0 ;;
  h1 <- getitem history_planes 1 ;; p1 <- getitem pass_planes 1 ;;
  h2 <- getitem history_planes 2 ;; p2 <- getitem pass_planes 2 ;;
  h3 <- getitem history_planes 3 ;; p3 <- getitem pass_planes 3 ;;
  h4 <- getitem history_planes 4 ;; p4 <- getitem pass_planes 4 ;;
  input_data <- np.concatenate
    [board_plane; h0; p0; h1; p1; h2; p2; h3; p3; h4; p4; color_plane] ;;
  input_data <- np.reshape_planes input_data 14 board_size ;;
  ret (np.astype_float32 input_data).

(** The boards the generators are written for: a size that is not
    negative, and for each of its points one stone code (0 for an empty
    point, 1 and 2 for the two colours) and one on-board position. *)
Definition wf (sym : Z) : Prop :=
  0 <= get_board_size /\
  length (get_board_data sym) = Z.to_nat (get_board_size ^ 2) /\
  length onboard_pos = Z.to_nat (get_board_size ^ 2) /\
  Forall (fun datum => 0 <= datum <= 2) (get_board_data sym).

(** [generate_target_data]. *)
Definition generate_target_data (target_pos : Z) (sym : Z) : list Z :=
  let target :=
    map (fun pos => if target_pos =? get_symmetrical_coordinate pos sym then 1 else 0)
        onboard_pos in
  target ++ [if target_pos =? PASS then 1 else 0].

End Planes.

End Feature.

(** ** Concrete objects *)

(** A 2 by 2 board ([MAX_ACTIONS = 5]), the sentinel [-1], and the
    evaluator of the PUCB module; the nodes of the scenario of the spec. *)
Module Sample.

Definition BOARD_SIZE : nat := 2.
Definition NOT_EXPANDED : Z := -1.

Definition expand := MCTSNode.expand BOARD_SIZE NOT_EXPANDED.
Definition select_next_action := MCTSNode.select_next_action PUCB.calculate_pucb_value.

Definition fresh : MCTSNode.t := MCTSNode.init (MCTSNode.MAX_ACTIONS BOARD_SIZE).

Definition policy3 : dict float :=
  dict_display [(10, 0.5%float); (20, 0.3%float); (30, 0.2%float)].

Definition expanded : MCTSNode.t := state_of (expand policy3 fresh).

Definition visited : MCTSNode.t :=
  state_of ((MCTSNode.update_child_value 0 1%float ;;;
             MCTSNode.update_child_value 1 (-1)%float ;;;
             MCTSNode.update_child_value 1 0.5%float) expanded).

(** A node whose first virtual-loss cell holds the largest [np.int32]. *)
Definition saturated : MCTSNode.t :=
  MCTSNode.set_children_virtual_loss [2147483647; 0; 0; 0; 0] fresh.

(** Two ledgers of three slots on one heap ([PASS] is 82): the first,
    the instance at address 3, after a save at move number 0; the second,
    the instance at address 7, as created. *)
Definition two_ledgers : Store.world :=
  Store.World
    [Store.Stones [BLACK; EMPTY; EMPTY]; Store.Ints [4; 82; 82]; Store.Hashes [0xABC; 0; 0];
     Store.Instance 0%nat 1%nat 2%nat;
     Store.Stones [EMPTY; EMPTY; EMPTY]; Store.Ints [82; 82; 82]; Store.Hashes [0; 0; 0];
     Store.Instance 4%nat 5%nat 6%nat]
    [].

(** A board of size 2 inside a margin of one point ([PASS] is 16), with
    a black stone at 6 and a white stone at 9, the two moves played; the
    symmetry is the identity. *)
Definition get_board_data (sym : Z) : list Z := [0; 1; 2; 0].
Definition onboard_pos : list Z := [5; 6; 9; 10].
Definition get_symmetrical_coordinate (pos sym : Z) : Z := pos.
Definition record : Record.world :=
  Record.World (Record.mk [BLACK; WHITE; EMPTY] [6; 9; 16] [0xABC; 0xDEF; 0]) [].
Definition generate_input_planes (moves : Z) :=
  Feature.generate_input_planes 16 get_board_data 2 moves get_symmetrical_coordinate onboard_pos.

End Sample.

(* ================================================================= *)
(** * Part II: properties *)
(* ================================================================= *)

(** ** Subscripts *)

Section Subscripts.

Context {S A : Type}.
Implicit Types (l : list A) (i : Z) (k : nat) (s : S).

Lemma index_of_lt len i k : index_of len i = Some k -> (k < len)%nat.
Proof.
  unfold index_of. intros H.
  destruct ((0 <=? i) && (i <? Z.of_nat len)) eqn:E1.
  - apply andb_true_iff in E1 as [? ?]. inversion H. lia.
  - destruct ((- Z.of_nat len <=? i) && (i <? 0)) eqn:E2; [|discriminate].
    apply andb_true_iff in E2 as [? ?]. inversion H. lia.
Qed.

Lemma index_of_nonneg len i : 0 <= i < Z.of_nat len -> index_of len i = Some (Z.to_nat i).
Proof.
  intros H. unfold index_of.
  replace ((0 <=? i) && (i <? Z.of_nat len)) with true; [done|].
  symmetry. apply andb_true_iff. split; lia.
Qed.

Lemma index_of_nat len k : (k < len)%nat -> index_of len (Z.of_nat k) = Some k.
Proof. intros H. rewrite index_of_nonneg by lia. by rewrite Nat2Z.id. Qed.

Lemma index_of_high len i : Z.of_nat len <= i -> index_of len i = None.
Proof.
  intros H. unfold index_of.
  replace ((0 <=? i) && (i <? Z.of_nat len)) with false by (symmetry; apply andb_false_iff; lia).
  replace ((- Z.of_nat len <=? i) && (i <? 0)) with false by (symmetry; apply andb_false_iff; lia).
  done.
Qed.

Lemma getitem_Return l i k x s :
  index_of (length l) i = Some k -> l !! k = Some x -> getitem l i s = Return x s.
Proof. intros Hi Hx. unfold getitem. rewrite Hi. simpl. by rewrite Hx. Qed.

Lemma setitem_Return l i k x s :
  index_of (length l) i = Some k -> setitem l i x s = Return (<[k:=x]> l) s.
Proof. intros Hi. unfold setitem. by rewrite Hi. Qed.

Lemma getitem_Raise l i s : index_of (length l) i = None -> getitem l i s = Raise IndexError s.
Proof. intros Hi. unfold getitem. by rewrite Hi. Qed.

Lemma setitem_Raise l i x s : index_of (length l) i = None -> setitem l i x s = Raise IndexError s.
Proof. intros Hi. unfold setitem. by rewrite Hi. Qed.

End Subscripts.

(** ** The ledger *)

Section LedgerProperties.

Variable MAX_RECORDS : nat.
Variable PASS : Z.

Import Record.
Local Abbreviation wf := (Record.wf MAX_RECORDS).
Local Abbreviation save := (Record.save MAX_RECORDS).
Local Abbreviation clear := (Record.clear MAX_RECORDS PASS).
Local Abbreviation init := (Record.init MAX_RECORDS PASS).

Lemma ledger_wf_init : wf init.
Proof. unfold Record.wf, Record.init, np.full. simpl. by rewrite !length_replicate. Qed.

(** A save at a move number below the capacity that denotes slot [k]
    writes the triple there and reports nothing. *)
Lemma save_slot r e moves c p h k :
  wf r -> moves < Z.of_nat MAX_RECORDS -> index_of MAX_RECORDS moves = Some k ->
  save moves c p h (World r e) =
  Return tt (World (mk (<[k:=c]> (color r)) (<[k:=p]> (pos r)) (<[k:=h]> (hash_value r))) e).
Proof.
  intros (Hc & Hp & Hh) Hlt Hk. unfold Record.save.
  apply Z.ltb_lt in Hlt. rewrite Hlt.
  unfold bind, this, Record.update. simpl.
  rewrite (setitem_Return _ _ k) by (by rewrite Hc). simpl.
  rewrite (setitem_Return _ _ k) by (by rewrite Hp). simpl.
  rewrite (setitem_Return _ _ k) by (by rewrite Hh). reflexivity.
Qed.

(** A save at a move number at or above the capacity stores nothing and
    reports the error. *)
Lemma save_full w moves c p h :
  Z.of_nat MAX_RECORDS <= moves ->
  save moves c p h w =
  Return tt (World (self w) (stderr w ++ ["Cannot save move record."%string])).
Proof.
  intros Hge. unfold Record.save.
  replace (moves <? Z.of_nat MAX_RECORDS) with false by (symmetry; apply Z.ltb_ge; lia).
  reflexivity.
Qed.

Lemma get_slot r e moves k c p h :
  wf r -> index_of MAX_RECORDS moves = Some k ->
  color r !! k = Some c -> pos r !! k = Some p -> hash_value r !! k = Some h ->
  get moves (World r e) = Return (c, p, h) (World r e).
Proof.
  intros (Hc & Hp & Hh) Hk Lc Lp Lh. unfold get, bind, this. simpl.
  rewrite (getitem_Return _ _ k c) by (by rewrite ?Hc). simpl.
  rewrite (getitem_Return _ _ k p) by (by rewrite ?Hp). simpl.
  rewrite (getitem_Return _ _ k h) by (by rewrite ?Hh). reflexivity.
Qed.

Lemma ledger_wf_save r e moves c p h : wf r -> wf (self (state_of (save moves c p h (World r e)))).
Proof.
  intros Hwf. destruct (Z.ltb_spec moves (Z.of_nat MAX_RECORDS)) as [Hlt|Hge].
  - destruct (index_of MAX_RECORDS moves) as [k|] eqn:Hk.
    + rewrite (save_slot _ _ _ _ _ _ k) by done. simpl.
      destruct Hwf as (Hc & Hp & Hh). unfold Record.wf. simpl. by rewrite !length_insert.
    + unfold Record.save. apply Z.ltb_lt in Hlt. rewrite Hlt.
      unfold bind, this. simpl. destruct Hwf as (Hc & Hp & Hh).
      rewrite setitem_Raise by (by rewrite Hc). simpl. done.
  - by rewrite save_full.
Qed.

Lemma clear_Return w :
  clear w = Return tt (World (mk (replicate MAX_RECORDS EMPTY) (replicate MAX_RECORDS PASS)
                                 (replicate (length (hash_value (self w))) 0)) (stderr w)).
Proof. reflexivity. Qed.

Lemma any_eq_true a v : np.any_eq a v = true <-> exists i, a !! i = Some v.
Proof.
  unfold np.any_eq. rewrite existsb_exists. split.
  - intros (x & Hin & Hx). apply Z.eqb_eq in Hx. subst x.
    apply list_elem_of_In, list_elem_of_lookup in Hin. done.
  - intros (i & Hi). exists v. split; [|apply Z.eqb_refl].
    apply list_elem_of_In, list_elem_of_lookup. eauto.
Qed.

Lemma has_same_hash_Return w h :
  has_same_hash h w = Return (np.any_eq (hash_value (self w)) h) w.
Proof. reflexivity. Qed.





End LedgerProperties.

(** ** More of the ledger *)

Section LedgerCoverage.

Variable MAX_RECORDS : nat.
Variable PASS : Z.

Import Record.
Local Abbreviation wf := (Record.wf MAX_RECORDS).
Local Abbreviation save := (Record.save MAX_RECORDS).
Local Abbreviation clear := (Record.clear MAX_RECORDS PASS).


Lemma index_of_low len i : i < - Z.of_nat len -> index_of len i = None.
Proof.
  intros H. unfold index_of.
  replace ((0 <=? i) && (i <? Z.of_nat len)) with false by (symmetry; apply andb_false_iff; lia).
  replace ((- Z.of_nat len <=? i) && (i <? 0)) with false by (symmetry; apply andb_false_iff; lia).
  done.
Qed.


(** X12. Out of range the ledger raises and stores nothing: [save] at a
    move number below [-MAX_RECORDS] raises [IndexError] with no field
    written and nothing reported (only move numbers at or above
    [MAX_RECORDS] take the reporting branch), and [get] at a move number
    below [-MAX_RECORDS] or at or above [MAX_RECORDS] raises
    [IndexError]. *)
Theorem ledger_out_of_range r e moves c p h :
  wf r ->
  (moves < - Z.of_nat MAX_RECORDS ->
     save moves c p h (World r e) = Raise IndexError (World r e)) /\
  (moves < - Z.of_nat MAX_RECORDS \/ Z.of_nat MAX_RECORDS <= moves ->
     get moves (World r e) = Raise IndexError (World r e)).
Proof.
  intros (Hc & Hp & Hh). split.
  - intros Hlow. unfold Record.save.
    replace (moves <? Z.of_nat MAX_RECORDS) with true by (symmetry; apply Z.ltb_lt; lia).
    unfold bind, this. simpl. rewrite setitem_Raise; [done|].
    rewrite Hc. by apply index_of_low.
  - intros Hout. unfold get, bind, this. simpl. rewrite getitem_Raise; [done|].
    rewrite Hc. destruct Hout; [by apply index_of_low|by apply index_of_high].
Qed.


(** X14. [clear] empties the ledger whatever was saved: it returns
    without a report, every in-range [get] then returns the empty triple
    [(EMPTY, PASS, 0)], and [has_same_hash] answers true for the hash 0
    only. *)
Theorem clear_then_get w :
  wf (self w) ->
  exists w', clear w = Return tt w' /\
    stderr w' = stderr w /\ wf (self w') /\
    (forall moves k, index_of MAX_RECORDS moves = Some k ->
       get moves w' = Return (EMPTY, PASS, 0) w') /\
    (forall h, h <> 0 -> has_same_hash h w' = Return false w').
Proof.
  intros (Hc & Hp & Hh). eexists. split; [apply clear_Return|]. simpl. rewrite Hh.
  split; [done|]. split; [|split].
  - unfold Record.wf. simpl. by rewrite !length_replicate.
  - intros moves k Hk. pose proof (index_of_lt _ _ _ Hk) as Hlt.
    apply (get_slot MAX_RECORDS _ _ _ k); simpl; try done.
    + unfold Record.wf. simpl. by rewrite !length_replicate.
    + by apply lookup_replicate_2.
    + by apply lookup_replicate_2.
    + by apply lookup_replicate_2.
  - intros h Hne. rewrite has_same_hash_Return. f_equal. simpl.
    destruct (np.any_eq (replicate MAX_RECORDS 0) h) eqn:E; [|done].
    apply any_eq_true in E as (i & Hi). apply lookup_replicate in Hi as [-> _]. done.
Qed.

End LedgerCoverage.

(** ** The ledger on the heap *)

Section StoreProperties.

Variable MAX_RECORDS : nat.
Variable PASS : Z.

Import Store.
Local Open Scope store_scope.

Lemma view_Some w self r :
  view w self = Some r <->
  exists c p h,
    heap w !! self = Some (Instance c p h) /\
    heap w !! c = Some (Stones (Record.color r)) /\
    heap w !! p = Some (Ints (Record.pos r)) /\
    heap w !! h = Some (Hashes (Record.hash_value r)).
Proof.
  unfold view. split.
  - destruct (heap w !! self) as [[| | |c p h]|]; try done.
    destruct (heap w !! c) as [[lc| | |]|] eqn:Hc; try done.
    destruct (heap w !! p) as [[|lp | |]|] eqn:Hp; try done.
    destruct (heap w !! h) as [[| |lh |]|] eqn:Hh; try done.
    intros [= <-]. exists c, p, h. simpl. by rewrite Hc, Hp, Hh.
  - intros (c & p & h & -> & -> & -> & ->). by destruct r.
Qed.

Lemma bind_Return {A B} (c : MS A) (k : A -> MS B) w a w' :
  c w = Some (Return a w') -> bind c k w = k a w'.
Proof. intros H. unfold bind. by rewrite H. Qed.

Lemma bind_Raise {A B} (c : MS A) (k : A -> MS B) w e w' :
  c w = Some (Raise e w') -> bind c k w = Some (Raise e w').
Proof. intros H. unfold bind. by rewrite H. Qed.

Lemma get_color_eq w self c p h :
  heap w !! self = Some (Instance c p h) -> get_color self w = Some (Return c w).
Proof. intros H. unfold get_color, bind, load. by rewrite H. Qed.

Lemma get_pos_eq w self c p h :
  heap w !! self = Some (Instance c p h) -> get_pos self w = Some (Return p w).
Proof. intros H. unfold get_pos, bind, load. by rewrite H. Qed.

Lemma get_hash_value_eq w self c p h :
  heap w !! self = Some (Instance c p h) -> get_hash_value self w = Some (Return h w).
Proof. intros H. unfold get_hash_value, bind, load. by rewrite H. Qed.

Lemma stones_eq w a l : heap w !! a = Some (Stones l) -> stones a w = Some (Return l w).
Proof. intros H. unfold stones, bind, load. by rewrite H. Qed.

Lemma ints_eq w a l : heap w !! a = Some (Ints l) -> ints a w = Some (Return l w).
Proof. intros H. unfold ints, bind, load. by rewrite H. Qed.

Lemma hashes_eq w a l : heap w !! a = Some (Hashes l) -> hashes a w = Some (Return l w).
Proof. intros H. unfold hashes, bind, load. by rewrite H. Qed.

Lemma put_eq w a o o' :
  heap w !! a = Some o' ->
  put a o w = Some (Return tt (World (<[a:=o]> (heap w)) (stderr w))).
Proof. intros H. unfold put. by rewrite H. Qed.

Lemma set_color_eq w self c p h c' :
  heap w !! self = Some (Instance c p h) ->
  set_color self c' w = Some (Return tt (World (<[self:=Instance c' p h]> (heap w)) (stderr w))).
Proof. intros H. unfold set_color, bind, load, put. by rewrite H, H. Qed.

Lemma set_pos_eq w self c p h p' :
  heap w !! self = Some (Instance c p h) ->
  set_pos self p' w = Some (Return tt (World (<[self:=Instance c p' h]> (heap w)) (stderr w))).
Proof. intros H. unfold set_pos, bind, load, put. by rewrite H, H. Qed.

Lemma set_hash_value_eq w self c p h h' :
  heap w !! self = Some (Instance c p h) ->
  set_hash_value self h' w =
  Some (Return tt (World (<[self:=Instance c p h']> (heap w)) (stderr w))).
Proof. intros H. unfold set_hash_value, bind, load, put. by rewrite H, H. Qed.

Lemma lift_setitem_eq {A} w (l : list A) i k x :
  index_of (length l) i = Some k ->
  lift (setitem l i x) w = Some (Return (<[k:=x]> l) w).
Proof. intros H. unfold lift. by rewrite (setitem_Return _ _ k). Qed.

Lemma lift_getitem_eq {A} w (l : list A) i k x :
  index_of (length l) i = Some k -> l !! k = Some x ->
  lift (getitem l i) w = Some (Return x w).
Proof. intros H Hx. unfold lift. by rewrite (getitem_Return _ _ k x). Qed.

(** Lookups in a heap built by updates and allocations. *)
Local Ltac heap_len := repeat (rewrite length_insert || rewrite length_app); simpl; lia.
Local Ltac heap_lookup :=
  cbn [heap stderr];
  repeat first
    [ rewrite list_lookup_insert_ne by (congruence || lia)
    | rewrite list_lookup_insert_eq by heap_len
    | rewrite lookup_app_l by heap_len
    | rewrite list_lookup_middle by heap_len ];
  first [ eassumption | reflexivity | idtac ].

(** One step of a run: the first computation of a [bind] returns. *)
Local Ltac step :=
  lazymatch goal with
  | |- bind (get_color _) _ _ = _ => erewrite bind_Return by (eapply get_color_eq; heap_lookup)
  | |- bind (get_pos _) _ _ = _ => erewrite bind_Return by (eapply get_pos_eq; heap_lookup)
  | |- bind (get_hash_value _) _ _ = _ =>
      erewrite bind_Return by (eapply get_hash_value_eq; heap_lookup)
  | |- bind (stones _) _ _ = _ => erewrite bind_Return by (eapply stones_eq; heap_lookup)
  | |- bind (ints _) _ _ = _ => erewrite bind_Return by (eapply ints_eq; heap_lookup)
  | |- bind (hashes _) _ _ = _ => erewrite bind_Return by (eapply hashes_eq; heap_lookup)
  | |- bind (put _ _) _ _ = _ => erewrite bind_Return by (eapply put_eq; heap_lookup)
  | |- bind (set_color _ _) _ _ = _ => erewrite bind_Return by (eapply set_color_eq; heap_lookup)
  | |- bind (set_pos _ _) _ _ = _ => erewrite bind_Return by (eapply set_pos_eq; heap_lookup)
  | |- bind (set_hash_value _ _) _ _ = _ =>
      erewrite bind_Return by (eapply set_hash_value_eq; heap_lookup)
  | |- bind (alloc _) _ _ = _ => erewrite bind_Return by reflexivity
  end; cbn beta.

Lemma save_slot_store w self c p h lc lp lh moves k x y z :
  heap w !! self = Some (Instance c p h) ->
  heap w !! c = Some (Stones lc) -> heap w !! p = Some (Ints lp) ->
  heap w !! h = Some (Hashes lh) ->
  length lc = MAX_RECORDS -> length lp = MAX_RECORDS -> length lh = MAX_RECORDS ->
  moves < Z.of_nat MAX_RECORDS -> index_of MAX_RECORDS moves = Some k ->
  save MAX_RECORDS self moves x y z w =
  Some (Return tt (World (<[h:=Hashes (<[k:=z]> lh)]>
                            (<[p:=Ints (<[k:=y]> lp)]>
                               (<[c:=Stones (<[k:=x]> lc)]> (heap w)))) (stderr w))).
Proof.
  intros Hself Hc Hp Hh Lc Lp Lh Hlt Hk.
  unfold save. apply Z.ltb_lt in Hlt. rewrite Hlt.
  step. step.
  erewrite bind_Return by (apply (lift_setitem_eq _ _ _ k); by rewrite Lc). cbn beta.
  step. step. step.
  erewrite bind_Return by (apply (lift_setitem_eq _ _ _ k); by rewrite Lp). cbn beta.
  step. step. step.
  erewrite bind_Return by (apply (lift_setitem_eq _ _ _ k); by rewrite Lh). cbn beta.
  erewrite put_eq by heap_lookup. reflexivity.
Qed.

Lemma save_low_store w self c p h lc moves x y z :
  heap w !! self = Some (Instance c p h) -> heap w !! c = Some (Stones lc) ->
  length lc = MAX_RECORDS ->
  moves < Z.of_nat MAX_RECORDS -> index_of MAX_RECORDS moves = None ->
  save MAX_RECORDS self moves x y z w = Some (Raise IndexError w).
Proof.
  intros Hself Hc Lc Hlt Hk.
  unfold save. apply Z.ltb_lt in Hlt. rewrite Hlt.
  step. step. apply bind_Raise. unfold lift. by rewrite setitem_Raise by (by rewrite Lc).
Qed.

Lemma save_full_store w self moves x y z :
  Z.of_nat MAX_RECORDS <= moves ->
  save MAX_RECORDS self moves x y z w =
  Some (Return tt (World (heap w) (stderr w ++ ["Cannot save move record."%string]))).
Proof.
  intros Hge. unfold save.
  replace (moves <? Z.of_nat MAX_RECORDS) with false by (symmetry; apply Z.ltb_ge; lia).
  reflexivity.
Qed.


Lemma clear_store w self c p h lh :
  heap w !! self = Some (Instance c p h) -> heap w !! h = Some (Hashes lh) ->
  clear MAX_RECORDS PASS self w =
  Some (Return tt
    (World (<[h:=Hashes (np.fill lh 0)]>
              (<[self:=Instance (length (heap w)) (S (length (heap w))) h]>
                 (<[self:=Instance (length (heap w)) p h]>
                    (heap w ++ [Stones (replicate MAX_RECORDS EMPTY)]) ++
                  [Ints (replicate MAX_RECORDS PASS)])))
           (stderr w))).
Proof.
  intros Hself Hh.
  pose proof (lookup_lt_Some _ _ _ Hself). pose proof (lookup_lt_Some _ _ _ Hh).
  assert (h <> self) by congruence.
  unfold clear. step. step. step. cbn [heap stderr].
  rewrite length_insert, length_app. simpl.
  replace (length (heap w) + 1)%nat with (S (length (heap w))) by lia.
  step. step. step.
  erewrite put_eq by heap_lookup. reflexivity.
Qed.



Lemma save_low_ledger r e moves x y z :
  Record.wf MAX_RECORDS r ->
  moves < Z.of_nat MAX_RECORDS -> index_of MAX_RECORDS moves = None ->
  Record.save MAX_RECORDS moves x y z (Record.World r e) = Raise IndexError (Record.World r e).
Proof.
  intros (Lc & Lp & Lh) Hlt Hk. unfold Record.save. apply Z.ltb_lt in Hlt. rewrite Hlt.
  unfold Py.bind, Record.this. simpl. by rewrite setitem_Raise by (by rewrite Lc).
Qed.



(** X17. Read through an instance's references, the methods of [Record]
    do what the ledger by value does: [save], [get], [has_same_hash] and
    [clear] give the same value or exception and the same reports, and
    leave the instance holding the same ledger. *)
Theorem store_agrees_with_ledger w self r :
  view w self = Some r -> Record.wf MAX_RECORDS r ->
  (forall moves x y z,
     agrees self (save MAX_RECORDS self moves x y z w)
       (Record.save MAX_RECORDS moves x y z (Record.World r (stderr w)))) /\
  (forall moves,
     agrees self (get self moves w) (Record.get moves (Record.World r (stderr w)))) /\
  (forall x,
     agrees self (has_same_hash self x w)
       (Record.has_same_hash x (Record.World r (stderr w)))) /\
  agrees self (clear MAX_RECORDS PASS self w)
    (Record.clear MAX_RECORDS PASS (Record.World r (stderr w))).
Proof.
  intros Hv Hwf. pose proof Hwf as (Lc & Lp & Lh).
  pose proof Hv as Hv'. apply view_Some in Hv' as (c & p & h & Hself & Hc & Hp & Hh).
  pose proof (lookup_lt_Some _ _ _ Hself). pose proof (lookup_lt_Some _ _ _ Hh).
  pose proof (lookup_lt_Some _ _ _ Hc). pose proof (lookup_lt_Some _ _ _ Hp).
  assert (c <> self) by congruence. assert (p <> self) by congruence.
  assert (h <> self) by congruence. assert (c <> p) by congruence.
  assert (c <> h) by congruence. assert (p <> h) by congruence.
  unfold agrees. split; [|split; [|split]].
  - intros moves x y z. destruct (Z.ltb_spec moves (Z.of_nat MAX_RECORDS)) as [Hlt|Hge].
    + destruct (index_of MAX_RECORDS moves) as [k|] eqn:Hk.
      * rewrite (save_slot MAX_RECORDS r _ moves x y z k) by done.
        rewrite (save_slot_store w self c p h _ _ _ moves k) by done.
        eexists. split; [reflexivity|]. simpl. split; [|done].
        apply view_Some. exists c, p, h. simpl. split; [|split; [|split]]; by heap_lookup.
      * rewrite save_low_ledger by done.
        rewrite (save_low_store w self c p h _ moves) by done.
        exists w. done.
    + rewrite save_full by done. rewrite save_full_store by done.
      eexists. split; [reflexivity|]. simpl. split; [|done].
      apply view_Some. exists c, p, h. done.
  - intros moves. destruct (index_of MAX_RECORDS moves) as [k|] eqn:Hk.
    + pose proof (index_of_lt _ _ _ Hk) as Hlt.
      destruct (lookup_lt_is_Some_2 (Record.color r) k) as [x Hx]; [lia|].
      destruct (lookup_lt_is_Some_2 (Record.pos r) k) as [y Hy]; [lia|].
      destruct (lookup_lt_is_Some_2 (Record.hash_value r) k) as [z Hz]; [lia|].
      rewrite (get_slot MAX_RECORDS r _ moves k x y z) by done.
      exists w. split; [|done]. simpl. unfold get. step. step.
      erewrite bind_Return by (apply (lift_getitem_eq _ _ _ k x); by rewrite ?Lc). cbn beta.
      step. step.
      erewrite bind_Return by (apply (lift_getitem_eq _ _ _ k y); by rewrite ?Lp). cbn beta.
      step. step.
      erewrite bind_Return by (apply (lift_getitem_eq _ _ _ k z); by rewrite ?Lh). cbn beta.
      reflexivity.
    + assert (Record.get moves (Record.World r (stderr w)) =
              Raise IndexError (Record.World r (stderr w))) as ->.
      { unfold Record.get, Py.bind, Record.this. simpl.
        by rewrite getitem_Raise by (by rewrite Lc). }
      exists w. split; [|done]. simpl. unfold get. step. step.
      apply bind_Raise. unfold lift. by rewrite getitem_Raise by (by rewrite Lc).
  - intros x. exists w. split; [|split; [exact Hv|reflexivity]].
    unfold has_same_hash. step. step. reflexivity.
  - rewrite (clear_store w self c p h _ Hself Hh). rewrite clear_Return.
    eexists. split; [reflexivity|]. simpl. split; [|reflexivity].
    apply view_Some. exists (length (heap w)), (S (length (heap w))), h. simpl. unfold np.fill.
    split; [|split; [|split]]; heap_lookup.
Qed.

End StoreProperties.

(** ** The order of binary64 numbers *)

Section Float64Order.

Local Ltac order_cases :=
  repeat match goal with
  | |- context [Z.compare ?a ?b] => destruct (Z.compare_spec a b); subst
  | H : context [Z.compare ?a ?b] |- _ => destruct (Z.compare_spec a b); subst
  | |- context [Pos.compare_cont Eq ?a ?b] =>
      change (Pos.compare_cont Eq a b) with (Pos.compare a b);
      destruct (Pos.compare_spec a b); subst
  | H : context [Pos.compare_cont Eq ?a ?b] |- _ =>
      change (Pos.compare_cont Eq a b) with (Pos.compare a b) in H;
      destruct (Pos.compare_spec a b); subst
  end; simpl in *; try congruence; try lia.

Lemma SFleb_trans x y z : SFleb x y = true -> SFleb y z = true -> SFleb x z = true.
Proof.
  unfold SFleb, SFcompare.
  destruct x as [[]|[]| |[] mx ex], y as [[]|[]| |[] my ey], z as [[]|[]| |[] mz ez];
    simpl; try congruence; intros Hxy Hyz; order_cases.
Qed.

Lemma SFleb_total x y :
  SFeqb x x = true -> SFeqb y y = true -> SFleb x y = true \/ SFleb y x = true.
Proof.
  unfold SFleb, SFeqb, SFcompare.
  destruct x as [[]|[]| |[] mx ex], y as [[]|[]| |[] my ey];
    simpl; try congruence; intros _ _; try (left; reflexivity); try (right; reflexivity);
    order_cases; auto.
Qed.

Lemma SFleb_refl x : SFeqb x x = true -> SFleb x x = true.
Proof. unfold SFleb, SFeqb. destruct (SFcompare x x) as [[]|]; congruence. Qed.

Lemma SFleb_unordered x y : SFeqb x x = false -> SFleb x y = false /\ SFleb y x = false.
Proof.
  unfold SFleb, SFeqb, SFcompare.
  destruct x as [[]|[]| |[] mx ex]; simpl; try congruence;
    try (rewrite Z.compare_refl, Pos.compare_cont_refl; simpl; congruence).
  intros _. destruct y as [[]|[]| |[] ? ?]; auto.
Qed.

Lemma is_nan_false x : PrimFloat.is_nan x = false <-> SFeqb (Prim2SF x) (Prim2SF x) = true.
Proof.
  unfold PrimFloat.is_nan. rewrite FloatAxioms.eqb_spec.
  destruct (SFeqb (Prim2SF x) (Prim2SF x)); simpl; split; intros; congruence.
Qed.

Lemma is_nan_true x : PrimFloat.is_nan x = true <-> SFeqb (Prim2SF x) (Prim2SF x) = false.
Proof.
  unfold PrimFloat.is_nan. rewrite FloatAxioms.eqb_spec.
  destruct (SFeqb (Prim2SF x) (Prim2SF x)); simpl; split; intros; congruence.
Qed.

Lemma leb_trans x y z :
  PrimFloat.leb x y = true -> PrimFloat.leb y z = true -> PrimFloat.leb x z = true.
Proof. rewrite !FloatAxioms.leb_spec. apply SFleb_trans. Qed.

Lemma leb_total x y :
  PrimFloat.is_nan x = false -> PrimFloat.is_nan y = false ->
  PrimFloat.leb x y = true \/ PrimFloat.leb y x = true.
Proof. rewrite !is_nan_false, !FloatAxioms.leb_spec. apply SFleb_total. Qed.

Lemma leb_refl x : PrimFloat.is_nan x = false -> PrimFloat.leb x x = true.
Proof. rewrite is_nan_false, FloatAxioms.leb_spec. apply SFleb_refl. Qed.

Lemma leb_nan_l x y : PrimFloat.is_nan x = true -> PrimFloat.leb x y = false.
Proof.
  rewrite is_nan_true, FloatAxioms.leb_spec. intros H.
  apply (proj1 (SFleb_unordered _ (Prim2SF y) H)).
Qed.

Lemma leb_nan_r x y : PrimFloat.is_nan y = true -> PrimFloat.leb x y = false.
Proof.
  rewrite is_nan_true, FloatAxioms.leb_spec. intros H.
  apply (proj2 (SFleb_unordered _ (Prim2SF x) H)).
Qed.

Lemma leb_not_nan x y : PrimFloat.leb x y = true -> PrimFloat.is_nan x = false /\ PrimFloat.is_nan y = false.
Proof.
  intros H. split.
  - destruct (PrimFloat.is_nan x) eqn:E; [|done]. by rewrite leb_nan_l in H.
  - destruct (PrimFloat.is_nan y) eqn:E; [|done]. by rewrite leb_nan_r in H.
Qed.

End Float64Order.

(** ** [np.argmax] *)

Section Argmax.

Lemma argmax_int_loop_first_max ip : forall pre mp max_ind,
  pre !! max_ind = Some mp ->
  (forall j x, pre !! j = Some x -> x <= mp) ->
  (forall j x, (j < max_ind)%nat -> pre !! j = Some x -> x < mp) ->
  np.first_max Z.le (pre ++ ip) (np.argmax_int_loop ip (length pre) mp max_ind).
Proof.
  induction ip as [|x ip IH]; intros pre mp max_ind Hmp Hle Hlt; simpl.
  - rewrite app_nil_r. exists mp. split; [done|]. split; [done|].
    intros j x Hj Hx. specialize (Hlt j x Hj Hx). lia.
  - replace (pre ++ x :: ip) with ((pre ++ [x]) ++ ip) by (by rewrite <- app_assoc).
    replace (S (length pre)) with (length (pre ++ [x])) by (rewrite length_app; simpl; lia).
    destruct (Z.ltb_spec mp x) as [Hgt|Hngt].
    + apply IH.
      * rewrite lookup_app_r by lia. by rewrite Nat.sub_diag.
      * intros j y Hy. apply lookup_snoc_Some in Hy as [[_ Hy]|[_ <-]]; [|lia].
        specialize (Hle j y Hy). lia.
      * intros j y Hj Hy. apply lookup_snoc_Some in Hy as [[_ Hy]|[-> _]]; [|lia].
        specialize (Hle j y Hy). lia.
    + apply IH.
      * by apply lookup_app_l_Some.
      * intros j y Hy. apply lookup_snoc_Some in Hy as [[_ Hy]|[_ <-]]; [|lia].
        by apply (Hle j).
      * intros j y Hj Hy. apply lookup_snoc_Some in Hy as [[_ Hy]|[-> _]].
        -- by apply (Hlt j).
        -- apply lookup_lt_Some in Hmp. lia.
Qed.

Lemma argmax_int_first_max {S} (a : list Z) (s : S) :
  a <> [] -> exists r, np.argmax_int a s = Return r s /\ np.first_max Z.le a r.
Proof.
  destruct a as [|x ip]; [done|]. intros _. eexists. split; [reflexivity|].
  apply (argmax_int_loop_first_max ip [x] x 0%nat).
  - done.
  - intros [|j] y Hy; simpl in Hy; [|done]. injection Hy as <-. lia.
  - intros j y Hj. lia.
Qed.

Lemma argmax_float_loop_first_max ip : forall pre mp max_ind,
  pre !! max_ind = Some mp ->
  PrimFloat.is_nan mp = false ->
  (forall j x, pre !! j = Some x -> PrimFloat.leb x mp = true) ->
  (forall j x, (j < max_ind)%nat -> pre !! j = Some x -> PrimFloat.leb mp x = false) ->
  np.first_max np.float_le (pre ++ ip) (np.argmax_float_loop ip (length pre) mp max_ind).
Proof.
  induction ip as [|x ip IH]; intros pre mp max_ind Hmp Hnan Hle Hlt; simpl.
  - rewrite app_nil_r. exists mp. split; [done|]. unfold np.float_le, np.rank_le. split.
    + intros j x Hx. rewrite (Hle j x Hx). apply orb_true_r.
    + intros j x Hj Hx. rewrite (Hlt j x Hj Hx).
      destruct (leb_not_nan _ _ (Hle j x Hx)) as [-> _]. done.
  - destruct (PrimFloat.leb x mp) eqn:Hx; simpl.
    + replace (pre ++ x :: ip) with ((pre ++ [x]) ++ ip) by (by rewrite <- app_assoc).
      replace (S (length pre)) with (length (pre ++ [x])) by (rewrite length_app; simpl; lia).
      apply IH; [by apply lookup_app_l_Some|done| |].
      * intros j y Hy. apply lookup_snoc_Some in Hy as [[_ Hy]|[_ <-]]; [|done].
        by apply (Hle j).
      * intros j y Hj Hy. apply lookup_snoc_Some in Hy as [[_ Hy]|[-> _]].
        -- by apply (Hlt j).
        -- apply lookup_lt_Some in Hmp. lia.
    + destruct (PrimFloat.is_nan x) eqn:Hxnan.
      * exists x. split; [by rewrite lookup_app_r, Nat.sub_diag by lia|].
        unfold np.float_le, np.rank_le. split.
        -- intros j y _. by rewrite Hxnan.
        -- intros j y Hj Hy. rewrite lookup_app_l in Hy by done.
           destruct (leb_not_nan _ _ (Hle j y Hy)) as [-> _].
           by rewrite leb_nan_l.
      * replace (pre ++ x :: ip) with ((pre ++ [x]) ++ ip) by (by rewrite <- app_assoc).
        replace (S (length pre)) with (length (pre ++ [x])) by (rewrite length_app; simpl; lia).
        assert (Hmpx : PrimFloat.leb mp x = true).
        { destruct (leb_total x mp Hxnan Hnan) as [H|H]; [congruence|done]. }
        apply IH; [by rewrite lookup_app_r, Nat.sub_diag by lia|done| |].
        -- intros j y Hy. apply lookup_snoc_Some in Hy as [[_ Hy]|[_ <-]].
           ++ eapply leb_trans; [by apply (Hle j)|done].
           ++ by apply leb_refl.
        -- intros j y Hj Hy. apply lookup_snoc_Some in Hy as [[_ Hy]|[-> _]]; [|lia].
           destruct (PrimFloat.leb x y) eqn:Hxy; [|done].
           rewrite (leb_trans x y mp Hxy (Hle j y Hy)) in Hx. done.
Qed.

Lemma argmax_float_first_max {S} (a : list float) (s : S) :
  a <> [] -> exists r, np.argmax_float a s = Return r s /\ np.first_max np.float_le a r.
Proof.
  destruct a as [|x ip]; [done|]. intros _. unfold np.argmax_float.
  destruct (PrimFloat.is_nan x) eqn:Hnan.
  - exists 0%nat. split; [done|]. exists x. split; [done|].
    unfold np.float_le, np.rank_le. split.
    + intros j y _. by rewrite Hnan.
    + intros j y Hj. lia.
  - eexists. split; [reflexivity|].
    apply (argmax_float_loop_first_max ip [x] x 0%nat); [done|done| |].
    + intros [|j] y Hy; simpl in Hy; [|done]. injection Hy as <-. by apply leb_refl.
    + intros j y Hj. lia.
Qed.

Lemma argmax_float_tie {S} (x : float) (s : S) : np.argmax_float [x; x] s = Return 0%nat s.
Proof.
  unfold np.argmax_float. destruct (PrimFloat.is_nan x) eqn:Hnan; [done|].
  simpl. by rewrite leb_refl.
Qed.

Lemma first_max_lt {A} (le : A -> A -> Prop) (l : list A) r :
  np.first_max le l r -> (r < length l)%nat.
Proof. intros (m & Hm & _). by apply lookup_lt_Some in Hm. Qed.

Lemma map3_lookup {A B C D} (f : A -> B -> C -> D) la : forall lb lc i,
  np.map3 f la lb lc !! i =
  (a ← la !! i; b ← lb !! i; c ← lc !! i; Some (f a b c)).
Proof.
  induction la as [|a la IH]; intros lb lc i; [done|].
  destruct lb as [|b lb].
  { destruct i; simpl; [done|]. by destruct (la !! i). }
  destruct lc as [|c lc].
  { destruct i; simpl; [done|]. destruct (la !! i); simpl; [|done]. by destruct (lb !! i). }
  destruct i; simpl; [done|]. apply IH.
Qed.

End Argmax.

(** ** The search node *)

Section Int32.

Lemma add_int32_exact x : np.is_int32 x -> x < np.int32_max -> np.add_int32 x 1 = x + 1.
Proof.
  unfold np.is_int32, np.int32_min, np.int32_max, np.add_int32, np.wrap_int32. intros H1 H2.
  rewrite Z.mod_small by lia. lia.
Qed.

Lemma add_int32_wraps : np.add_int32 np.int32_max 1 = np.int32_min.
Proof. reflexivity. Qed.

Lemma wrap_int32_range z : np.is_int32 (np.wrap_int32 z).
Proof.
  unfold np.is_int32, np.int32_min, np.int32_max, np.wrap_int32.
  pose proof (Z.mod_pos_bound (z + 2147483648) 4294967296). lia.
Qed.

Lemma sub_add_int32 x : np.is_int32 x -> np.sub_int32 (np.add_int32 x 1) 1 = x.
Proof.
  intros H. destruct (Z.eq_dec x np.int32_max) as [->|Hne]; [reflexivity|].
  rewrite add_int32_exact by (unfold np.is_int32, np.int32_max in *; lia).
  unfold np.is_int32, np.int32_min, np.int32_max, np.sub_int32, np.wrap_int32 in *.
  rewrite Z.mod_small by lia. lia.
Qed.

End Int32.

Section NodeProperties.

Variable BOARD_SIZE : nat.
Variable NOT_EXPANDED : Z.
Variable calculate_pucb_value : Z -> list Z -> list float -> list float -> list float.

Import MCTSNode.
Local Abbreviation MAX_ACTIONS := (MCTSNode.MAX_ACTIONS BOARD_SIZE).
Local Abbreviation expand := (MCTSNode.expand BOARD_SIZE NOT_EXPANDED).
Local Abbreviation select_next_action := (MCTSNode.select_next_action calculate_pucb_value).
Local Abbreviation pucb_values := (MCTSNode.pucb_values calculate_pucb_value).
Local Abbreviation scores_per_child := (MCTSNode.scores_per_child calculate_pucb_value).

Lemma node_wf_init num_actions : wf num_actions (init num_actions).
Proof.
  unfold init, np.full. split; simpl; rewrite ?length_replicate; try done.
  - apply Forall_replicate. unfold np.is_int32, np.int32_min, np.int32_max. lia.
  - apply Forall_replicate. unfold np.is_int32, np.int32_min, np.int32_max. lia.
  - lia.
  - lia.
Qed.

(** *** Virtual loss *)

Lemma add_virtual_loss_Return n index k x :
  index_of (length (children_virtual_loss n)) index = Some k ->
  children_virtual_loss n !! k = Some x ->
  add_virtual_loss index n =
  Return tt (set_children_virtual_loss (<[k:=np.add_int32 x 1]> (children_virtual_loss n))
               (set_virtual_loss (virtual_loss n + 1) n)).
Proof.
  intros Hk Hx. unfold add_virtual_loss, bind, this, read, update. simpl.
  rewrite (getitem_Return _ _ k x) by done.
  rewrite (setitem_Return _ _ k) by done. reflexivity.
Qed.

Lemma update_child_value_Return cap n index k value w c l :
  wf cap n -> index_of cap index = Some k ->
  children_value_sum n !! k = Some w ->
  children_visits n !! k = Some c ->
  children_virtual_loss n !! k = Some l ->
  update_child_value index value n =
  Return tt (set_children_virtual_loss (<[k:=np.sub_int32 l 1]> (children_virtual_loss n))
               (set_children_visits (<[k:=np.add_int32 c 1]> (children_visits n))
                  (set_children_value_sum (<[k:=(w + value)%float]> (children_value_sum n)) n))).
Proof.
  intros Hwf Hk Hw Hc Hl. destruct Hwf as [Li Lv Lc Lp Ll Ls Lz Fc Fl Hn Ha].
  unfold update_child_value, bind, this, read, update. simpl.
  rewrite (getitem_Return _ _ k w) by (by rewrite ?Ls).
  rewrite (setitem_Return _ _ k) by (by rewrite ?Ls). simpl.
  rewrite (getitem_Return _ _ k c) by (by rewrite ?Lc).
  rewrite (setitem_Return _ _ k) by (by rewrite ?Lc). simpl.
  rewrite (getitem_Return _ _ k l) by (by rewrite ?Ll).
  rewrite (setitem_Return _ _ k) by (by rewrite ?Ll). reflexivity.
Qed.

Lemma update_node_value_Return n value :
  update_node_value value n =
  Return tt (set_virtual_loss (virtual_loss n - 1)
               (set_node_visits (node_visits n + 1)
                  (set_node_value_sum (node_value_sum n + value)%float n))).
Proof. reflexivity. Qed.

Lemma wf_set_virtual_loss cap n v : wf cap n -> wf cap (set_virtual_loss v n).
Proof. intros []. by split. Qed.

Lemma wf_set_children_virtual_loss cap n k x :
  wf cap n -> np.is_int32 x -> wf cap (set_children_virtual_loss (<[k:=x]> (children_virtual_loss n)) n).
Proof.
  intros [] Hx. split; simpl; try done.
  - by rewrite length_insert.
  - by apply Forall_insert.
Qed.

Lemma add_virtual_loss_wf cap n index k :
  wf cap n -> index_of cap index = Some k -> wf cap (state_of (add_virtual_loss index n)).
Proof.
  intros Hwf Hk. pose proof Hwf as [Li Lv Lc Lp Ll Ls Lz Fc Fl Hn Ha].
  destruct (lookup_lt_is_Some_2 (children_virtual_loss n) k) as [l Hl].
  { apply index_of_lt in Hk. lia. }
  rewrite (add_virtual_loss_Return n index k l) by (by rewrite ?Ll). simpl.
  apply (wf_set_children_virtual_loss cap (set_virtual_loss (virtual_loss n + 1) n)).
  - by apply wf_set_virtual_loss.
  - apply wrap_int32_range.
Qed.

Lemma update_child_value_wf cap n index k value :
  wf cap n -> index_of cap index = Some k ->
  wf cap (state_of (update_child_value index value n)).
Proof.
  intros Hwf Hk. pose proof Hwf as [Li Lv Lc Lp Ll Ls Lz Fc Fl Hn Ha].
  pose proof (index_of_lt _ _ _ Hk) as Hlt.
  destruct (lookup_lt_is_Some_2 (children_virtual_loss n) k) as [l Hl]; [lia|].
  destruct (lookup_lt_is_Some_2 (children_visits n) k) as [c Hc]; [lia|].
  destruct (lookup_lt_is_Some_2 (children_value_sum n) k) as [w Hw]; [lia|].
  rewrite (update_child_value_Return cap n index k value w c l) by done.
  split; simpl; rewrite ?length_insert; try done.
  - apply Forall_insert; [done|apply wrap_int32_range].
  - apply Forall_insert; [done|apply wrap_int32_range].
Qed.

(** C1 (amended). On a node whose arrays have [cap] slots, for a subscript
    [index] that denotes slot [k] and any [value]: [add_virtual_loss index]
    adds exactly 1 to [virtual_loss] and adds 1 to
    [children_virtual_loss[k]] in [np.int32] arithmetic (exactly 1 while
    the cell is below [2^31 - 1]); a following [update_child_value index
    value] gives [children_virtual_loss] its value from before
    [add_virtual_loss], adds 1 to [children_visits[k]] in [np.int32]
    arithmetic (exactly 1 below [2^31 - 1]) and makes
    [children_value_sum[k]] the binary64 sum of its old value and [value];
    [update_node_value value] makes [node_value_sum] the binary64 sum of
    its old value and [value], adds 1 to [node_visits] and takes 1 from
    [virtual_loss]; after the three calls both virtual-loss counters hold
    their original values. *)
Theorem virtual_loss_round_trip cap n index k value :
  wf cap n -> index_of cap index = Some k ->
  exists l c w n1 n2 n3,
    children_virtual_loss n !! k = Some l /\
    children_visits n !! k = Some c /\
    children_value_sum n !! k = Some w /\
    add_virtual_loss index n = Return tt n1 /\
    virtual_loss n1 = virtual_loss n + 1 /\
    children_virtual_loss n1 !! k = Some (np.add_int32 l 1) /\
    (l < np.int32_max -> np.add_int32 l 1 = l + 1) /\
    update_child_value index value n1 = Return tt n2 /\
    children_virtual_loss n2 = children_virtual_loss n /\
    children_visits n2 !! k = Some (np.add_int32 c 1) /\
    (c < np.int32_max -> np.add_int32 c 1 = c + 1) /\
    children_value_sum n2 !! k = Some (w + value)%float /\
    update_node_value value n2 = Return tt n3 /\
    node_value_sum n3 = (node_value_sum n + value)%float /\
    node_visits n3 = node_visits n + 1 /\
    virtual_loss n3 = virtual_loss n1 - 1 /\
    virtual_loss n3 = virtual_loss n /\
    children_virtual_loss n3 = children_virtual_loss n.
Proof.
  intros Hwf Hk. pose proof Hwf as [Li Lv Lc Lp Ll Ls Lz Fc Fl Hn Ha].
  pose proof (index_of_lt _ _ _ Hk) as Hlt.
  destruct (lookup_lt_is_Some_2 (children_virtual_loss n) k) as [l Hl]; [lia|].
  destruct (lookup_lt_is_Some_2 (children_visits n) k) as [c Hc]; [lia|].
  destruct (lookup_lt_is_Some_2 (children_value_sum n) k) as [w Hw]; [lia|].
  assert (Hl32 : np.is_int32 l) by (by apply (Forall_lookup_1 _ _ _ _ Fl Hl)).
  assert (Hc32 : np.is_int32 c) by (by apply (Forall_lookup_1 _ _ _ _ Fc Hc)).
  pose proof (add_virtual_loss_Return n index k l) as Hadd.
  rewrite Ll in Hadd. specialize (Hadd Hk Hl).
  set (n1 := set_children_virtual_loss _ _) in Hadd.
  assert (Hwf1 : wf cap n1).
  { apply (wf_set_children_virtual_loss cap (set_virtual_loss (virtual_loss n + 1) n)).
    - by apply wf_set_virtual_loss.
    - apply wrap_int32_range. }
  assert (Hl1 : children_virtual_loss n1 !! k = Some (np.add_int32 l 1)).
  { unfold n1. simpl. apply list_lookup_insert_eq. lia. }
  pose proof (update_child_value_Return cap n1 index k value w c _ Hwf1 Hk Hw Hc Hl1) as Hupd.
  set (n2 := set_children_virtual_loss _ _) in Hupd.
  assert (Hrestore : children_virtual_loss n2 = children_virtual_loss n).
  { unfold n2, n1. simpl. rewrite sub_add_int32 by done.
    rewrite list_insert_insert_eq. by apply list_insert_id. }
  exists l, c, w, n1, n2.
  eexists. repeat match goal with |- _ /\ _ => split end; try done.
  - by apply add_int32_exact.
  - unfold n2. simpl. apply list_lookup_insert_eq. lia.
  - by apply add_int32_exact.
  - unfold n2. simpl. apply list_lookup_insert_eq. lia.
  - simpl. lia.
Qed.

(** *** Expansion *)

Lemma installs_nil {A} start (l : list A) : installs [] start l l.
Proof. split; [done|]. split; [|done]. intros i x Hx. done. Qed.

Lemma installs_cons {A} (x : A) xs start old new :
  (start < length old)%nat ->
  installs xs (S start) (<[start:=x]> old) new ->
  installs (x :: xs) start old new.
Proof.
  intros Hlt (Hlen & Hin & Hout). rewrite length_insert in Hlen.
  split; [done|]. split.
  - intros [|i] y Hy; simpl in Hy.
    + injection Hy as <-. rewrite Nat.add_0_r, Hout by lia.
      by apply list_lookup_insert_eq.
    + replace (start + S i)%nat with (S start + i)%nat by lia. by apply Hin.
  - intros j Hj. simpl in Hj. rewrite Hout by lia. apply list_lookup_insert_ne. lia.
Qed.

Lemma set_policy_step_Return n index pos policy :
  (index < length (action n))%nat -> (index < length (children_policy n))%nat ->
  set_policy_step index (pos, policy) n =
  Return (index + 1)%nat
    (set_children_policy (<[index:=policy]> (children_policy n))
       (set_action (<[index:=pos]> (action n)) n)).
Proof.
  intros Ha Hp. unfold set_policy_step, bind, this, read, update. simpl.
  rewrite (setitem_Return _ _ index) by (by apply index_of_nat). simpl.
  rewrite (setitem_Return _ _ index) by (by apply index_of_nat). reflexivity.
Qed.

Lemma set_policy_loop kvs : forall index n,
  (index + length kvs <= length (action n))%nat ->
  (index + length kvs <= length (children_policy n))%nat ->
  exists a p,
    for_fold kvs index set_policy_step n =
      Return (index + length kvs)%nat (set_children_policy p (set_action a n)) /\
    installs (map fst kvs) index (action n) a /\
    installs (map snd kvs) index (children_policy n) p.
Proof.
  induction kvs as [|[pos policy] kvs IH]; intros index n Ha Hp;
    cbn [for_fold length map fst snd] in *.
  - exists (action n), (children_policy n). rewrite Nat.add_0_r. unfold ret.
    split; [by destruct n|]. split; apply installs_nil.
  - unfold bind at 1. rewrite set_policy_step_Return by lia.
    set (n1 := set_children_policy _ _).
    destruct (IH (index + 1)%nat n1) as (a & p & Hrun & Hia & Hip).
    + unfold n1. simpl. rewrite length_insert. lia.
    + unfold n1. simpl. rewrite length_insert. lia.
    + exists a, p. split.
      * rewrite Hrun. f_equal. lia.
      * unfold n1 in Hia, Hip. simpl in Hia, Hip.
        replace (index + 1)%nat with (S index) in * by lia.
        split; apply installs_cons; (lia || done).
Qed.

Lemma set_policy_Return n policy_map :
  (length policy_map <= length (action n))%nat ->
  (length policy_map <= length (children_policy n))%nat ->
  exists a p,
    set_policy policy_map n =
      Return tt (set_num_children (length policy_map)
                   (set_children_policy p (set_action a n))) /\
    installs (map fst policy_map) 0 (action n) a /\
    installs (map snd policy_map) 0 (children_policy n) p.
Proof.
  intros Ha Hp.
  destruct (set_policy_loop policy_map 0%nat n Ha Hp) as (a & p & Hrun & Hia & Hip).
  exists a, p. split; [|done].
  unfold set_policy, items, bind. rewrite Hrun. reflexivity.
Qed.

Lemma installs_lookup_map {A B} (f : A -> B) (xs : list A) old new i x :
  installs (map f xs) 0 old new -> xs !! i = Some x -> new !! i = Some (f x).
Proof.
  intros (_ & Hin & _) Hx. apply (Hin i (f x)).
  change (map f xs) with (f <$> xs). by rewrite list_lookup_fmap, Hx.
Qed.

Lemma expand_Return cap n policy :
  wf cap n -> (length policy <= cap)%nat -> (length policy <= MAX_ACTIONS)%nat ->
  exists a p,
    expand policy n =
      Return tt (mk 0 0 0%float a (replicate cap NOT_EXPANDED) (replicate cap 0%float)
                   (replicate cap 0) p (replicate cap 0) (replicate cap 0%float)
                   (replicate cap 0%float) (length policy)) /\
    installs (map fst policy) 0 (replicate MAX_ACTIONS 0) a /\
    installs (map snd policy) 0 (children_policy n) p.
Proof.
  intros [Li Lv Lc Lp Ll Ls Lz Fc Fl Hn Ha] Hcap Hmax.
  set (n1 := mk 0 0 0%float (replicate MAX_ACTIONS 0)
               (np.fill (children_index n) NOT_EXPANDED) (np.fill (children_value n) 0%float)
               (np.fill (children_visits n) 0) (children_policy n)
               (np.fill (children_virtual_loss n) 0) (np.fill (children_value_sum n) 0%float)
               (np.fill (noise n) 0%float) (num_children n)).
  assert (Hexp : expand policy n = set_policy policy n1) by reflexivity.
  destruct (set_policy_Return n1 policy) as (a & p & Hrun & Hia & Hip).
  - unfold n1. simpl. by rewrite length_replicate.
  - unfold n1. simpl. lia.
  - exists a, p. split; [|done]. rewrite Hexp, Hrun. unfold n1, np.fill. simpl.
    by rewrite Li, Lv, Lc, Ll, Ls, Lz.
Qed.

Lemma expand_wf cap n policy :
  wf cap n -> (length policy <= cap)%nat -> (length policy <= MAX_ACTIONS)%nat ->
  wf cap (state_of (expand policy n)).
Proof.
  intros Hwf Hcap Hmax.
  destruct (expand_Return cap n policy Hwf Hcap Hmax) as (a & p & -> & Hia & Hip).
  destruct Hwf as [Li Lv Lc Lp Ll Ls Lz Fc Fl Hn Ha].
  destruct Hia as (Hla & _), Hip as (Hlp & _). rewrite length_replicate in Hla.
  split; simpl; rewrite ?length_replicate; try done; try lia.
  - apply Forall_replicate. unfold np.is_int32, np.int32_min, np.int32_max. lia.
  - apply Forall_replicate. unfold np.is_int32, np.int32_min, np.int32_max. lia.
Qed.

(** C3 (amended). For a node whose arrays have [cap] slots, in any prior
    state, and a policy map of at most [cap] and at most [MAX_ACTIONS]
    entries, [expand] returns and leaves a freshly expanded leaf:
    [num_children] is the size of the map; [action[i]] and
    [children_policy[i]] hold the map's entries in iteration order;
    [node_visits], [node_value_sum] and [virtual_loss] are zero; every
    [children_index] slot holds the unexpanded sentinel; [children_value],
    [children_visits], [children_virtual_loss], [children_value_sum] and
    [noise] are zero everywhere. The [children_policy] slots that the map
    does not fill keep the value they had before the call (so they are
    zero where they were zero before, as on a node never expanded). *)
Theorem expand_fresh_leaf cap n policy :
  wf cap n -> (length policy <= cap)%nat -> (length policy <= MAX_ACTIONS)%nat ->
  exists n', expand policy n = Return tt n' /\
    num_children n' = length policy /\
    (forall i pos p, items policy !! i = Some (pos, p) ->
       action n' !! i = Some pos /\ children_policy n' !! i = Some p) /\
    node_visits n' = 0 /\ node_value_sum n' = 0%float /\ virtual_loss n' = 0 /\
    children_index n' = replicate cap NOT_EXPANDED /\
    children_value n' = replicate cap 0%float /\
    children_visits n' = replicate cap 0 /\
    children_virtual_loss n' = replicate cap 0 /\
    children_value_sum n' = replicate cap 0%float /\
    noise n' = replicate cap 0%float /\
    (forall i, (length policy <= i)%nat ->
       children_policy n' !! i = children_policy n !! i) /\
    (children_policy n = replicate cap 0%float ->
       forall i, (length policy <= i < cap)%nat -> children_policy n' !! i = Some 0%float).
Proof.
  intros Hwf Hcap Hmax.
  destruct (expand_Return cap n policy Hwf Hcap Hmax) as (a & p & Hrun & Hia & Hip).
  eexists. split; [exact Hrun|]. simpl.
  assert (Hkeep : forall i, (length policy <= i)%nat -> p !! i = children_policy n !! i).
  { intros i Hi. destruct Hip as (_ & _ & Hout). apply Hout. rewrite length_map. lia. }
  repeat match goal with |- _ /\ _ => split end; try done.
  - intros i pos q Hi. unfold items in Hi. split.
    + apply (installs_lookup_map fst _ _ _ _ _ Hia Hi).
    + apply (installs_lookup_map snd _ _ _ _ _ Hip Hi).
  - intros Hzero i Hi. rewrite Hkeep, Hzero by lia. apply lookup_replicate_2. lia.
Qed.

(** C4. After [expand({A: 0.4, B: 0.6})] on a node whose arrays have at
    least two slots (as every node has on a board of at least one cell):
    [num_children] is 2, [action[0]] is [A], [children_policy[0]] is 0.4,
    [action[1]] is [B], [children_policy[1]] is 0.6, and [node_visits] is
    0. *)
Theorem expand_two_entries cap n A B :
  wf cap n -> (2 <= cap)%nat -> (1 <= BOARD_SIZE)%nat -> A <> B ->
  exists n', expand (dict_display [(A, 0.4%float); (B, 0.6%float)]) n = Return tt n' /\
    num_children n' = 2%nat /\
    action n' !! 0%nat = Some A /\ children_policy n' !! 0%nat = Some 0.4%float /\
    action n' !! 1%nat = Some B /\ children_policy n' !! 1%nat = Some 0.6%float /\
    node_visits n' = 0.
Proof.
  intros Hwf Hcap Hboard Hne.
  assert (Hd : dict_display [(A, 0.4%float); (B, 0.6%float)] = [(A, 0.4%float); (B, 0.6%float)]).
  { unfold dict_display. simpl. apply Z.eqb_neq in Hne. by rewrite Hne. }
  rewrite Hd.
  assert (Hmax : (2 <= MAX_ACTIONS)%nat).
  { unfold MCTSNode.MAX_ACTIONS. destruct BOARD_SIZE; simpl; lia. }
  destruct (expand_Return cap n [(A, 0.4%float); (B, 0.6%float)] Hwf Hcap Hmax)
    as (a & p & Hrun & Hia & Hip).
  eexists. split; [exact Hrun|]. simpl.
  repeat match goal with |- _ /\ _ => split end; try done.
  - by apply (installs_lookup_map fst _ _ _ 0%nat (A, 0.4%float) Hia).
  - by apply (installs_lookup_map snd _ _ _ 0%nat (A, 0.4%float) Hip).
  - by apply (installs_lookup_map fst _ _ _ 1%nat (B, 0.6%float) Hia).
  - by apply (installs_lookup_map snd _ _ _ 1%nat (B, 0.6%float) Hip).
Qed.

(** *** Policy update *)

Lemma update_policy_step_Return policy n i a v :
  (i < length (children_policy n))%nat ->
  action n !! i = Some a -> dict_get policy a = Some v ->
  update_policy_step policy i n =
  Return tt (set_children_policy (<[i:=v]> (children_policy n)) n).
Proof.
  intros Hi Ha Hv. unfold update_policy_step, bind, this, read, update. simpl.
  rewrite (getitem_Return _ _ i a); [|apply index_of_nat; by apply lookup_lt_Some in Ha|done].
  unfold dict_getitem. rewrite Hv. unfold ret.
  rewrite (setitem_Return _ _ i) by (by apply index_of_nat). reflexivity.
Qed.

Lemma update_policy_step_KeyError policy n i a :
  action n !! i = Some a -> dict_get policy a = None ->
  update_policy_step policy i n = Raise (KeyError a) n.
Proof.
  intros Ha Hv. unfold update_policy_step, bind, this, read, update. simpl.
  rewrite (getitem_Return _ _ i a); [|apply index_of_nat; by apply lookup_lt_Some in Ha|done].
  unfold dict_getitem. by rewrite Hv.
Qed.

Lemma update_policy_loop policy cnt : forall start n,
  (start + cnt <= length (children_policy n))%nat ->
  (forall i, (start <= i < start + cnt)%nat ->
     exists a v, action n !! i = Some a /\ dict_get policy a = Some v) ->
  exists p,
    for_each (seq start cnt) (update_policy_step policy) n = Return tt (set_children_policy p n) /\
    length p = length (children_policy n) /\
    (forall i a, (start <= i < start + cnt)%nat -> action n !! i = Some a ->
       p !! i = dict_get policy a) /\
    (forall j, (j < start)%nat \/ (start + cnt <= j)%nat -> p !! j = children_policy n !! j).
Proof.
  induction cnt as [|cnt IH]; intros start n Hlen Hkeys.
  - exists (children_policy n). split; [by destruct n|]. split; [done|].
    split; [intros; lia|done].
  - destruct (Hkeys start) as (a & v & Ha & Hv); [lia|].
    cbn [seq]. unfold for_each. cbn [for_fold]. unfold bind at 1.
    rewrite (update_policy_step_Return policy n start a v) by (lia || done).
    set (n1 := set_children_policy _ n).
    destruct (IH (S start) n1) as (p & Hrun & Hp & Hin & Hout).
    + unfold n1. simpl. rewrite length_insert. lia.
    + intros i Hi. apply Hkeys. lia.
    + exists p. unfold for_each in Hrun. split; [exact Hrun|].
      unfold n1 in Hp, Hin, Hout. simpl in Hp, Hin, Hout. rewrite length_insert in Hp.
      split; [done|]. split.
      * intros i b Hi Hb. destruct (decide (i = start)) as [->|Hne].
        -- rewrite Hout by lia. rewrite list_lookup_insert_eq by lia. congruence.
        -- apply Hin; [lia|done].
      * intros j Hj. rewrite Hout by lia. apply list_lookup_insert_ne. lia.
Qed.

Lemma update_policy_loop_KeyError policy cnt : forall start n,
  (start + cnt <= length (children_policy n))%nat ->
  (start + cnt <= length (action n))%nat ->
  (exists i a, (start <= i < start + cnt)%nat /\ action n !! i = Some a /\
     dict_get policy a = None) ->
  exists k n',
    for_each (seq start cnt) (update_policy_step policy) n = Raise (KeyError k) n' /\
    dict_get policy k = None.
Proof.
  induction cnt as [|cnt IH]; intros start n Hlen Hact (i & a & Hi & Ha & Hnone); [lia|].
  destruct (lookup_lt_is_Some_2 (action n) start) as [a0 Ha0]; [lia|].
  cbn [seq]. unfold for_each. cbn [for_fold]. unfold bind at 1.
  destruct (dict_get policy a0) as [v|] eqn:Hv.
  - rewrite (update_policy_step_Return policy n start a0 v) by (lia || done).
    set (n1 := set_children_policy _ n).
    destruct (IH (S start) n1) as (k & n' & Hrun & Hk).
    + unfold n1. simpl. rewrite length_insert. lia.
    + unfold n1. simpl. lia.
    + exists i, a. split; [|done].
      destruct (decide (i = start)) as [->|Hne]; [congruence|lia].
    + exists k, n'. done.
  - rewrite (update_policy_step_KeyError policy n start a0) by done.
    exists a0, n. done.
Qed.

(** C8. On a node whose active children are slots of its arrays: when
    every [action[i]] with [i < num_children] is a key of the map,
    [update_policy] returns, with [children_policy[i]] equal to
    [policy[action[i]]] for every [i < num_children], every other slot of
    [children_policy] as it was, and no other field changed; when some
    such action is not a key of the map, [update_policy] raises [KeyError]
    (for a key that the map lacks) instead of returning. *)
Theorem update_policy_overwrites_or_raises cap n policy :
  wf cap n ->
  ((forall i a, (i < num_children n)%nat -> action n !! i = Some a ->
      is_Some (dict_get policy a)) ->
   exists p,
     update_policy policy n = Return tt (set_children_policy p n) /\
     length p = length (children_policy n) /\
     (forall i a, (i < num_children n)%nat -> action n !! i = Some a ->
        p !! i = dict_get policy a) /\
     (forall j, (num_children n <= j)%nat -> p !! j = children_policy n !! j)) /\
  ((exists i a, (i < num_children n)%nat /\ action n !! i = Some a /\
      dict_get policy a = None) ->
   exists k n', update_policy policy n = Raise (KeyError k) n' /\ dict_get policy k = None).
Proof.
  intros [Li Lv Lc Lp Ll Ls Lz Fc Fl Hn Ha].
  assert (Hup : update_policy policy n =
                for_each (seq 0 (num_children n)) (update_policy_step policy) n) by reflexivity.
  split.
  - intros Hkeys.
    destruct (update_policy_loop policy (num_children n) 0%nat n) as (p & Hrun & Hp & Hin & Hout).
    + lia.
    + intros i Hi. destruct (lookup_lt_is_Some_2 (action n) i) as [a Hia]; [lia|].
      destruct (Hkeys i a) as [v Hv]; [lia|done|]. eauto.
    + exists p. rewrite Hup. split; [done|]. split; [done|]. split.
      * intros i a Hi. apply Hin. lia.
      * intros j Hj. apply Hout. lia.
  - intros (i & a & Hi & Hia & Hnone). rewrite Hup.
    apply (update_policy_loop_KeyError policy (num_children n) 0%nat n); [lia|lia|].
    exists i, a. split; [lia|done].
Qed.

(** *** Selection *)

Lemma pucb_values_lookup f n i :
  scores_per_child f -> pucb_values n !! i = child_score f n i.
Proof.
  intros Hf. unfold MCTSNode.pucb_values. rewrite Hf, map3_lookup.
  unfold np.add_int32_array, np.add_float64_array. rewrite !lookup_zip_with.
  unfold child_score.
  destruct (children_visits n !! i), (children_virtual_loss n !! i),
    (children_value_sum n !! i), (children_policy n !! i), (noise n !! i); reflexivity.
Qed.

Lemma child_score_is_Some f cap n i : wf cap n -> (i < cap)%nat -> is_Some (child_score f n i).
Proof.
  intros [Li Lv Lc Lp Ll Ls Lz Fc Fl Hn Ha] Hi. unfold child_score.
  destruct (lookup_lt_is_Some_2 (children_visits n) i) as [? ->]; [lia|].
  destruct (lookup_lt_is_Some_2 (children_virtual_loss n) i) as [? ->]; [lia|].
  destruct (lookup_lt_is_Some_2 (children_value_sum n) i) as [? ->]; [lia|].
  destruct (lookup_lt_is_Some_2 (children_policy n) i) as [? ->]; [lia|].
  destruct (lookup_lt_is_Some_2 (noise n) i) as [? ->]; [lia|].
  simpl. eauto.
Qed.

Lemma select_next_action_unfold n :
  select_next_action n = np.argmax_float (take (num_children n) (pucb_values n)) n.
Proof. reflexivity. Qed.

Lemma argmax_float_state {S S'} (a : list float) (s : S) (s' : S') r :
  np.argmax_float a s = Return r s -> np.argmax_float a s' = Return r s'.
Proof.
  destruct a as [|x ip]; [done|]. unfold np.argmax_float, ret.
  destruct (PrimFloat.is_nan x); intros [= <-]; reflexivity.
Qed.

Lemma same_statistics_scores f n n' :
  scores_per_child f -> same_statistics n n' ->
  take (num_children n') (pucb_values n') = take (num_children n) (pucb_values n).
Proof.
  intros Hf (Hk & HN & Hstat). rewrite Hk. apply list_eq. intros i.
  destruct (decide (i < num_children n)%nat) as [Hi|Hi].
  - rewrite !lookup_take_lt by done. rewrite !(pucb_values_lookup f) by done.
    unfold child_score. destruct (Hstat i Hi) as (-> & -> & -> & -> & ->). by rewrite HN.
  - rewrite !lookup_take_ge by lia. done.
Qed.

Lemma select_next_action_first_max f cap n :
  scores_per_child f -> wf cap n -> (1 <= num_children n)%nat ->
  exists r m,
    select_next_action n = Return r n /\ (r < num_children n)%nat /\
    child_score f n r = Some m /\
    (forall j x, (j < num_children n)%nat -> child_score f n j = Some x ->
       np.rank_le x m = true) /\
    (forall j x, (j < r)%nat -> child_score f n j = Some x -> np.rank_le m x = false).
Proof.
  intros Hf Hwf Hk. pose proof Hwf as [Li Lv Lc Lp Ll Ls Lz Fc Fl Hn Ha].
  rewrite select_next_action_unfold.
  destruct (argmax_float_first_max (take (num_children n) (pucb_values n)) n)
    as (r & Hrun & m & Hm & Hall & Hbefore).
  { destruct (child_score_is_Some f cap n 0%nat Hwf) as [x Hx]; [lia|].
    intros Hnil. rewrite <- (pucb_values_lookup f) in Hx by done.
    rewrite <- (lookup_take_lt _ (num_children n)) in Hx by lia. by rewrite Hnil in Hx. }
  apply lookup_take_Some in Hm as [Hm Hr]. rewrite (pucb_values_lookup f) in Hm by done.
  exists r, m. split; [done|]. split; [done|]. split; [done|]. split.
  - intros j x Hj Hx. apply (Hall j). rewrite lookup_take_lt by done.
    by rewrite (pucb_values_lookup f).
  - intros j x Hj Hx. destruct (np.rank_le m x) eqn:E; [|done]. exfalso.
    apply (Hbefore j x Hj); [|done]. rewrite lookup_take_lt by lia.
    by rewrite (pucb_values_lookup f).
Qed.

Lemma select_next_action_pair f cap n A B p :
  scores_per_child f -> wf cap n -> (2 <= cap)%nat -> (1 <= BOARD_SIZE)%nat -> A <> B ->
  exists n', expand (dict_display [(A, p); (B, p)]) n = Return tt n' /\
    select_next_action n' = Return 0%nat n'.
Proof.
  intros Hf Hwf Hcap Hboard Hne.
  assert (Hd : dict_display [(A, p); (B, p)] = [(A, p); (B, p)]).
  { unfold dict_display. simpl. apply Z.eqb_neq in Hne. by rewrite Hne. }
  rewrite Hd.
  assert (Hmax : (2 <= MAX_ACTIONS)%nat).
  { unfold MCTSNode.MAX_ACTIONS. destruct BOARD_SIZE; simpl; lia. }
  destruct (expand_Return cap n [(A, p); (B, p)] Hwf Hcap Hmax) as (a & q & Hrun & Hia & Hip).
  eexists. split; [exact Hrun|]. set (n' := mk _ _ _ _ _ _ _ _ _ _ _ _).
  set (x := f 0 (np.add_int32 0 0) 0%float (p + 0)%float).
  assert (Hscore : forall i, (i < 2)%nat -> pucb_values n' !! i = Some x).
  { intros i Hi. rewrite (pucb_values_lookup f) by done. unfold child_score, n'. simpl.
    rewrite !lookup_replicate_2 by lia. simpl.
    assert (Hq : q !! i = Some p).
    { destruct i as [|[|i]]; [|
        |lia].
      - by apply (installs_lookup_map snd _ _ _ 0%nat (A, p) Hip).
      - by apply (installs_lookup_map snd _ _ _ 1%nat (B, p) Hip). }
    rewrite Hq. reflexivity. }
  rewrite select_next_action_unfold.
  pose proof (Hscore 0%nat ltac:(lia)) as H0. pose proof (Hscore 1%nat ltac:(lia)) as H1.
  change (num_children n') with 2%nat.
  destruct (pucb_values n') as [|x0 [|x1 rest]]; [done|done|].
  simpl in H0, H1. injection H0 as ->. injection H1 as ->.
  simpl. apply (argmax_float_tie x n').
Qed.

(** C5. With an evaluator that gives one score per child, by a function
    [f] of the parent total [node_visits + virtual_loss], the child total
    [children_visits[i] + children_virtual_loss[i]], [children_value_sum[i]]
    and [children_policy[i] + noise[i]]: on a node with at least one
    active child [select_next_action] returns, leaves the node as it was,
    and gives the lowest index among the first [num_children] whose score
    is maximal in the order of [np.argmax] (NaN above every number); a
    call on any node with the same statistics of the active children
    returns the same index; and on a node just expanded with two entries
    of equal policy it returns index 0. *)
Theorem select_next_action_deterministic f :
  scores_per_child f ->
  (forall cap n, wf cap n -> (1 <= num_children n)%nat ->
     exists r m,
       select_next_action n = Return r n /\ (r < num_children n)%nat /\
       child_score f n r = Some m /\
       (forall j x, (j < num_children n)%nat -> child_score f n j = Some x ->
          np.rank_le x m = true) /\
       (forall j x, (j < r)%nat -> child_score f n j = Some x -> np.rank_le m x = false) /\
       (forall n', same_statistics n n' -> select_next_action n' = Return r n')) /\
  (forall cap n A B p,
     wf cap n -> (2 <= cap)%nat -> (1 <= BOARD_SIZE)%nat -> A <> B ->
     exists n', expand (dict_display [(A, p); (B, p)]) n = Return tt n' /\
       select_next_action n' = Return 0%nat n').
Proof.
  intros Hf. split.
  - intros cap n Hwf Hk.
    destruct (select_next_action_first_max f cap n Hf Hwf Hk) as (r & m & Hrun & Hr & Hm & Hall & Hbefore).
    exists r, m. repeat (split; [done|]).
    intros n' Hsame. rewrite select_next_action_unfold in Hrun.
    rewrite select_next_action_unfold, (same_statistics_scores f n n') by done.
    by apply (argmax_float_state _ n).
  - intros cap n A B p. by apply (select_next_action_pair f).
Qed.

(** *** Best move *)

Lemma argmax_int_state {S S'} (a : list Z) (s : S) (s' : S') r :
  np.argmax_int a s = Return r s -> np.argmax_int a s' = Return r s'.
Proof. destruct a as [|x ip]; [done|]. unfold np.argmax_int, ret. by intros [= <-]. Qed.

(** C6. On a node with at least one active child, whatever the visit
    counts, [get_best_move_index] returns the index of the maximum of
    [children_visits[:num_children]], the lowest such index when several
    attain it (index 0 when all the counts are zero), and [get_best_move]
    returns [action] at exactly that index. *)
Theorem get_best_move_most_visited cap n :
  wf cap n -> (1 <= num_children n)%nat ->
  exists r m a,
    get_best_move_index n = Return r n /\ (r < num_children n)%nat /\
    children_visits n !! r = Some m /\
    (forall j x, (j < num_children n)%nat -> children_visits n !! j = Some x -> x <= m) /\
    (forall j x, (j < r)%nat -> children_visits n !! j = Some x -> x < m) /\
    ((forall j x, (j < num_children n)%nat -> children_visits n !! j = Some x -> x = 0) ->
       r = 0%nat) /\
    action n !! r = Some a /\
    get_best_move n = Return a n.
Proof.
  intros [Li Lv Lc Lp Ll Ls Lz Fc Fl Hn Ha] Hk.
  assert (Hidx : get_best_move_index n =
                 np.argmax_int (take (num_children n) (children_visits n)) n) by reflexivity.
  destruct (lookup_lt_is_Some_2 (children_visits n) 0%nat) as [x0 Hx0]; [lia|].
  destruct (argmax_int_first_max (take (num_children n) (children_visits n)) n)
    as (r & Hrun & m & Hm & Hall & Hbefore).
  { intros Hnil. rewrite <- (lookup_take_lt _ (num_children n)) in Hx0 by lia.
    by rewrite Hnil in Hx0. }
  apply lookup_take_Some in Hm as [Hm Hr].
  destruct (lookup_lt_is_Some_2 (action n) r) as [a Hact]; [lia|].
  assert (Hbefore' : forall j x, (j < r)%nat -> children_visits n !! j = Some x -> x < m).
  { intros j x Hj Hx. assert (~ m <= x); [|lia].
    apply (Hbefore j x Hj). by rewrite lookup_take_lt by lia. }
  exists r, m, a. rewrite Hidx. split; [done|]. split; [done|]. split; [done|].
  split; [|split; [done|split; [|split; [done|]]]].
  - intros j x Hj Hx. apply (Hall j). by rewrite lookup_take_lt.
  - intros Hzero. destruct r as [|r]; [done|]. exfalso.
    pose proof (Hbefore' 0%nat x0 ltac:(lia) Hx0).
    pose proof (Hzero 0%nat x0 ltac:(lia) Hx0). pose proof (Hzero (S r) m Hr Hm). lia.
  - unfold get_best_move, bind. rewrite Hidx, Hrun. unfold this, read.
    apply (getitem_Return _ _ r); [|done]. apply index_of_nat. lia.
Qed.

(** C10. On a node with [num_children == 0], as a node never expanded
    and a node expanded with an empty policy map are,
    [select_next_action] and [get_best_move_index] raise [ValueError]
    (the maximum of an empty slice) and return no index; so does
    [get_best_move]. *)
Theorem argmax_without_children :
  (forall n, num_children n = 0%nat ->
     select_next_action n = Raise ValueError n /\
     get_best_move_index n = Raise ValueError n /\
     get_best_move n = Raise ValueError n) /\
  (forall num_actions, num_children (init num_actions) = 0%nat) /\
  (forall cap n, wf cap n ->
     exists n', expand (dict_display []) n = Return tt n' /\ num_children n' = 0%nat).
Proof.
  split; [|split].
  - intros n Hk.
    assert (Hs : select_next_action n = Raise ValueError n).
    { rewrite select_next_action_unfold, Hk. reflexivity. }
    assert (Hi : get_best_move_index n = Raise ValueError n).
    { unfold get_best_move_index, bind, this, read. by rewrite Hk. }
    split; [done|]. split; [done|]. unfold get_best_move, bind. by rewrite Hi.
  - reflexivity.
  - intros cap n Hwf.
    destruct (expand_Return cap n [] Hwf) as (a & p & Hrun & _); [simpl; lia|simpl; lia|].
    eexists. split; [exact Hrun|]. reflexivity.
Qed.

End NodeProperties.

(** ** More of the search node *)

Section Loops.

Context {S A B : Type}.

Lemma for_fold_app (xs ys : list A) (acc : B) (body : B -> A -> M S B) (s : S) :
  for_fold (xs ++ ys) acc body s =
  match for_fold xs acc body s with
  | Return acc' s' => for_fold ys acc' body s'
  | Raise e s' => Raise e s'
  end.
Proof.
  revert acc s. induction xs as [|x xs IH]; intros acc s; [done|].
  cbn [app for_fold]. unfold bind. destruct (body acc x s) as [acc' s'|e s']; [apply IH|done].
Qed.

Lemma getitem_with_state {S'} (l : list A) (i : Z) (s : S) (s' : S') :
  getitem l i s' = with_state (getitem l i s) s'.
Proof. unfold getitem. by destruct (index_of (length l) i ≫= (fun k => l !! k)). Qed.

End Loops.

Section ArgmaxFacts.

Lemma argmax_int_with_state {S S'} (a : list Z) (s : S) (s' : S') :
  np.argmax_int a s' = with_state (np.argmax_int a s) s'.
Proof. by destruct a. Qed.

Lemma argmax_float_with_state {S S'} (a : list float) (s : S) (s' : S') :
  np.argmax_float a s' = with_state (np.argmax_float a s) s'.
Proof. destruct a as [|x ip]; [done|]. unfold np.argmax_float. by destruct (PrimFloat.is_nan x). Qed.

Lemma first_max_int_unique (l : list Z) r r' :
  np.first_max Z.le l r -> np.first_max Z.le l r' -> r = r'.
Proof.
  intros (m & Hm & Hall & Hbefore) (m' & Hm' & Hall' & Hbefore').
  destruct (Nat.lt_trichotomy r r') as [Hlt|[->|Hlt]]; [|done|].
  - exfalso. apply (Hbefore' r m Hlt Hm). by apply (Hall r').
  - exfalso. apply (Hbefore r' m' Hlt Hm'). by apply (Hall' r).
Qed.

End ArgmaxFacts.

Section NodeCoverage.

Variable BOARD_SIZE : nat.
Variable NOT_EXPANDED : Z.
Variable calculate_pucb_value : Z -> list Z -> list float -> list float -> list float.

Import MCTSNode.
Local Abbreviation MAX_ACTIONS := (MCTSNode.MAX_ACTIONS BOARD_SIZE).
Local Abbreviation expand := (MCTSNode.expand BOARD_SIZE NOT_EXPANDED).
Local Abbreviation select_next_action := (MCTSNode.select_next_action calculate_pucb_value).
Local Abbreviation pucb_values := (MCTSNode.pucb_values calculate_pucb_value).
Local Abbreviation scores_per_child := (MCTSNode.scores_per_child calculate_pucb_value).

(** *** What the reads depend on *)

Lemma get_best_move_index_depends n n' :
  num_children n' = num_children n -> children_visits n' = children_visits n ->
  get_best_move_index n' = with_state (get_best_move_index n) n'.
Proof.
  intros Hk Hv. unfold get_best_move_index, bind, this, read. rewrite Hk, Hv.
  apply argmax_int_with_state.
Qed.

Lemma get_best_move_depends n n' :
  num_children n' = num_children n -> children_visits n' = children_visits n ->
  action n' = action n ->
  get_best_move n' = with_state (get_best_move n) n'.
Proof.
  intros Hk Hv Ha. unfold get_best_move, get_best_move_index, bind, this, read.
  rewrite Hk, Hv.
  destruct (take (num_children n) (children_visits n)) as [|x ip]; [done|].
  simpl. rewrite Ha. apply getitem_with_state.
Qed.

Lemma select_next_action_depends n n' :
  num_children n' = num_children n -> pucb_values n' = pucb_values n ->
  select_next_action n' = with_state (select_next_action n) n'.
Proof.
  intros Hk Hv. unfold MCTSNode.select_next_action, bind, this, read.
  fold (pucb_values n). fold (pucb_values n'). rewrite Hk, Hv.
  apply argmax_float_with_state.
Qed.

(** The state a method leaves, whether it returns or raises, for the
    methods that write one cell. *)
Lemma add_virtual_loss_state n index :
  exists v a, state_of (add_virtual_loss index n) =
              set_children_virtual_loss a (set_virtual_loss v n).
Proof.
  unfold add_virtual_loss, bind, this, read, update, getitem, setitem. simpl.
  destruct (index_of (length (children_virtual_loss n)) index) as [k|]; simpl.
  - destruct (children_virtual_loss n !! k); simpl.
    + eexists _, _. reflexivity.
    + exists (virtual_loss n + 1), (children_virtual_loss n). by destruct n.
  - exists (virtual_loss n + 1), (children_virtual_loss n). by destruct n.
Qed.

Lemma set_leaf_value_state n index value :
  exists a, state_of (set_leaf_value index value n) = set_children_value a n.
Proof.
  unfold set_leaf_value, bind, this, read, update, setitem. simpl.
  destruct (index_of (length (children_value n)) index) as [k|]; simpl.
  - eexists. reflexivity.
  - exists (children_value n). by destruct n.
Qed.

Lemma set_child_index_state n index child_index :
  exists a, state_of (set_child_index index child_index n) = set_children_index a n.
Proof.
  unfold set_child_index, bind, this, read, update, setitem. simpl.
  destruct (index_of (length (children_index n)) index) as [k|]; simpl.
  - eexists. reflexivity.
  - exists (children_index n). by destruct n.
Qed.

(** X1. Virtual loss, leaf values, child links and the node's own
    aggregate never change the reported best move: after
    [add_virtual_loss], [set_leaf_value], [set_child_index] or
    [update_node_value], with any arguments and whether the call returned
    or raised, [get_best_move_index] and [get_best_move] give what they
    gave before. *)
Theorem bookkeeping_keeps_best_move n index value child_index :
  let same n' :=
    get_best_move_index n' = with_state (get_best_move_index n) n' /\
    get_best_move n' = with_state (get_best_move n) n' in
  same (state_of (add_virtual_loss index n)) /\
  same (state_of (set_leaf_value index value n)) /\
  same (state_of (set_child_index index child_index n)) /\
  same (state_of (update_node_value value n)).
Proof.
  assert (Hsame : forall n', num_children n' = num_children n ->
            children_visits n' = children_visits n -> action n' = action n ->
            get_best_move_index n' = with_state (get_best_move_index n) n' /\
            get_best_move n' = with_state (get_best_move n) n').
  { intros n' Hk Hv Ha.
    split; [by apply get_best_move_index_depends|by apply get_best_move_depends]. }
  cbv zeta. split; [|split; [|split]].
  - destruct (add_virtual_loss_state n index) as (v & a & ->). by apply Hsame.
  - destruct (set_leaf_value_state n index value) as (a & ->). by apply Hsame.
  - destruct (set_child_index_state n index child_index) as (a & ->). by apply Hsame.
  - by apply Hsame.
Qed.

(** X2. Leaf values and child links never change the selection: after
    [set_leaf_value] or [set_child_index], with any arguments and whether
    the call returned or raised, [select_next_action] gives what it gave
    before, whatever the evaluator. *)
Theorem links_and_leaf_values_keep_selection n index value child_index :
  let same n' := select_next_action n' = with_state (select_next_action n) n' in
  same (state_of (set_leaf_value index value n)) /\
  same (state_of (set_child_index index child_index n)).
Proof.
  cbv zeta. split.
  - destruct (set_leaf_value_state n index value) as (a & ->).
    by apply select_next_action_depends.
  - destruct (set_child_index_state n index child_index) as (a & ->).
    by apply select_next_action_depends.
Qed.

(** *** Child links *)

Lemma wrap_int32_id z : np.is_int32 z -> np.wrap_int32 z = z.
Proof.
  unfold np.is_int32, np.int32_min, np.int32_max, np.wrap_int32. intros H.
  rewrite Z.mod_small by lia. lia.
Qed.

(** X3. A child link written with [set_child_index] is read back by
    [get_child_index] at the same subscript, every other link reads as
    before, and no other field changes; with a subscript out of range both
    methods raise [IndexError] and the node is left as it was. *)
Theorem child_index_round_trip cap n index child_index :
  wf cap n -> np.is_int32 child_index ->
  (forall k, index_of cap index = Some k ->
     exists n', set_child_index index child_index n = Return tt n' /\
       get_child_index index n' = Return child_index n' /\
       n' = set_children_index (children_index n') n /\
       forall index' k', index_of cap index' = Some k' -> k' <> k ->
         get_child_index index' n' = with_state (get_child_index index' n) n') /\
  (index_of cap index = None ->
     set_child_index index child_index n = Raise IndexError n /\
     get_child_index index n = Raise IndexError n).
Proof.
  intros [Li Lv Lc Lp Ll Ls Lz Fc Fl Hn Ha] Hc. split.
  - intros k Hk. pose proof (index_of_lt _ _ _ Hk) as Hlt.
    eexists. split.
    { unfold set_child_index, bind, this, read, update.
      rewrite (setitem_Return _ _ k) by (by rewrite Li). reflexivity. }
    rewrite wrap_int32_id by done. simpl. split; [|split; [done|]].
    + unfold get_child_index, bind, this, read. simpl.
      apply (getitem_Return _ _ k); [by rewrite length_insert, Li|].
      apply list_lookup_insert_eq. lia.
    + intros index' k' Hk' Hne. unfold get_child_index, bind, this, read, getitem. simpl.
      rewrite length_insert, Li, Hk'. simpl. rewrite list_lookup_insert_ne by done.
      by destruct (children_index n !! k').
  - intros Hnone. split.
    + unfold set_child_index, bind, this, read. by rewrite setitem_Raise by (by rewrite Li).
    + unfold get_child_index, bind, this, read. by rewrite getitem_Raise by (by rewrite Li).
Qed.

(** *** Best move and visits *)

Lemma get_best_move_index_first_max cap n r :
  wf cap n -> get_best_move_index n = Return r n ->
  np.first_max Z.le (take (num_children n) (children_visits n)) r.
Proof.
  intros Hwf Hr. unfold get_best_move_index, bind, this, read in Hr.
  destruct (take (num_children n) (children_visits n)) as [|x ip] eqn:E; [done|].
  destruct (argmax_int_first_max (x :: ip) n) as (r' & Hr' & Hmax); [done|].
  congruence.
Qed.

(** X4. Committing a visit to the child that is the best move keeps it
    the best move: when [get_best_move_index] returns [r] and
    [children_visits[r]] is below the largest [np.int32],
    [get_best_move_index] still returns [r] after
    [update_child_value(r, value)]. *)
Theorem committed_visit_keeps_best cap n r value :
  wf cap n -> get_best_move_index n = Return r n ->
  (forall c, children_visits n !! r = Some c -> c < np.int32_max) ->
  exists n', update_child_value (Z.of_nat r) value n = Return tt n' /\
    get_best_move_index n' = Return r n'.
Proof.
  intros Hwf Hr Hbelow. pose proof Hwf as [Li Lv Lc Lp Ll Ls Lz Fc Fl Hn Ha].
  pose proof (get_best_move_index_first_max cap n r Hwf Hr) as (m & Hm & Hall & Hbefore).
  apply lookup_take_Some in Hm as [Hm Hrk].
  destruct (lookup_lt_is_Some_2 (children_virtual_loss n) r) as [l Hl]; [lia|].
  destruct (lookup_lt_is_Some_2 (children_value_sum n) r) as [w Hw]; [lia|].
  assert (Hidx : index_of cap (Z.of_nat r) = Some r) by (apply index_of_nat; lia).
  eexists. split; [apply (update_child_value_Return cap n _ r value w m l); done|].
  set (n' := set_children_virtual_loss _ _).
  assert (Hm32 : np.is_int32 m) by (by apply (Forall_lookup_1 _ _ _ _ Fc Hm)).
  assert (Hv' : children_visits n' = <[r:=m + 1]> (children_visits n)).
  { unfold n'. simpl. rewrite add_int32_exact; [done|done|by apply Hbelow]. }
  assert (Hmax' : np.first_max Z.le (take (num_children n') (children_visits n')) r).
  { change (num_children n') with (num_children n). rewrite Hv'.
    exists (m + 1). split; [|split].
    - apply lookup_take_Some. split; [|done]. apply list_lookup_insert_eq. lia.
    - intros j x Hx. apply lookup_take_Some in Hx as [Hx Hj].
      destruct (decide (j = r)) as [->|Hne].
      + rewrite list_lookup_insert_eq in Hx by lia. injection Hx as <-. lia.
      + rewrite list_lookup_insert_ne in Hx by done.
        assert (x <= m); [|lia]. apply (Hall j). by apply lookup_take_Some.
    - intros j x Hj Hx. apply lookup_take_Some in Hx as [Hx Hjk].
      rewrite list_lookup_insert_ne in Hx by lia.
      assert (~ m <= x); [|lia]. apply (Hbefore j x Hj). by apply lookup_take_Some. }
  destruct (argmax_int_first_max (take (num_children n') (children_visits n')) n')
    as (r' & Hr' & Hmax'').
  { intros Hnil. destruct Hmax' as (? & Hx & _). by rewrite Hnil in Hx. }
  rewrite (first_max_int_unique _ _ _ Hmax' Hmax''). exact Hr'.
Qed.

(** *** One pass of a simulation *)

(** X5. Selection composes with the updates: on a node with at least one
    active child, the index that [select_next_action] returns is accepted
    by [add_virtual_loss], [update_child_value] and then
    [update_node_value]; the four calls in a row return, leave both
    virtual-loss counters as they were, add 1 to [node_visits] and add 1
    (in [np.int32]) to the visits of the selected child only. *)
Theorem simulation_pass f cap n value :
  scores_per_child f -> wf cap n -> (1 <= num_children n)%nat ->
  exists i c n',
    (i <- select_next_action ;;
     add_virtual_loss (Z.of_nat i) ;;;
     update_child_value (Z.of_nat i) value ;;;
     update_node_value value ;;;
     ret i) n = Return i n' /\
    (i < num_children n)%nat /\
    children_visits n !! i = Some c /\
    children_visits n' = <[i:=np.add_int32 c 1]> (children_visits n) /\
    children_virtual_loss n' = children_virtual_loss n /\
    virtual_loss n' = virtual_loss n /\
    node_visits n' = node_visits n + 1 /\
    wf cap n'.
Proof.
  intros Hf Hwf Hk. pose proof Hwf as [Li Lv Lc Lp Ll Ls Lz Fc Fl Hn Ha].
  destruct (select_next_action_first_max calculate_pucb_value f cap n Hf Hwf Hk)
    as (i & m & Hsel & Hi & _).
  assert (Hidx : index_of cap (Z.of_nat i) = Some i) by (apply index_of_nat; lia).
  destruct (lookup_lt_is_Some_2 (children_virtual_loss n) i) as [l Hl]; [lia|].
  destruct (lookup_lt_is_Some_2 (children_visits n) i) as [c Hc]; [lia|].
  destruct (lookup_lt_is_Some_2 (children_value_sum n) i) as [w Hw]; [lia|].
  assert (Hl32 : np.is_int32 l) by (by apply (Forall_lookup_1 _ _ _ _ Fl Hl)).
  pose proof (add_virtual_loss_Return n (Z.of_nat i) i l) as Hadd.
  rewrite Ll in Hadd. specialize (Hadd Hidx Hl).
  set (n1 := set_children_virtual_loss _ _) in Hadd.
  assert (Hwf1 : wf cap n1).
  { apply (wf_set_children_virtual_loss cap (set_virtual_loss (virtual_loss n + 1) n)).
    - by apply wf_set_virtual_loss.
    - apply wrap_int32_range. }
  assert (Hl1 : children_virtual_loss n1 !! i = Some (np.add_int32 l 1)).
  { unfold n1. simpl. apply list_lookup_insert_eq. lia. }
  pose proof (update_child_value_Return cap n1 (Z.of_nat i) i value w c _ Hwf1 Hidx Hw Hc Hl1)
    as Hupd.
  set (n2 := set_children_virtual_loss _ _) in Hupd.
  assert (Hrestore : children_virtual_loss n2 = children_virtual_loss n).
  { unfold n2, n1. simpl. rewrite sub_add_int32 by done.
    rewrite list_insert_insert_eq. by apply list_insert_id. }
  exists i, c. eexists. split.
  { unfold bind at 1. rewrite Hsel. unfold bind at 1. rewrite Hadd.
    unfold bind at 1. rewrite Hupd. unfold bind at 1.
    rewrite update_node_value_Return. reflexivity. }
  simpl. split; [done|]. split; [done|]. split; [done|]. split; [done|].
  split; [lia|]. split; [done|].
  split; simpl; rewrite ?Hrestore, ?length_insert; try done.
  - apply Forall_insert; [done|apply wrap_int32_range].
  - change (Forall np.is_int32 (children_virtual_loss n2)). by rewrite Hrestore.
Qed.

(** *** More on expansion *)

Lemma set_policy_overflow n policy_map :
  length (children_policy n) = length (action n) ->
  (length (action n) < length policy_map)%nat ->
  exists a p,
    set_policy policy_map n = Raise IndexError (set_children_policy p (set_action a n)) /\
    installs (map fst (take (length (action n)) policy_map)) 0 (action n) a /\
    installs (map snd (take (length (action n)) policy_map)) 0 (children_policy n) p.
Proof.
  intros Hlen Hlt. set (L := length (action n)) in *.
  assert (Htake : length (take L policy_map) = L) by (rewrite length_take; lia).
  destruct (set_policy_loop (take L policy_map) 0%nat n) as (a & p & Hrun & Hia & Hip).
  { rewrite Htake. fold L. lia. }
  { rewrite Htake, Hlen. fold L. lia. }
  exists a, p. split; [|done].
  destruct (drop L policy_map) as [|[pos pr] rest] eqn:Hdrop.
  { apply (f_equal length) in Hdrop. rewrite length_drop in Hdrop. simpl in Hdrop. lia. }
  unfold set_policy, items, bind.
  rewrite <- (take_drop L policy_map), Hdrop, for_fold_app, Hrun.
  cbn [for_fold]. unfold bind at 1.
  assert (Hstep : set_policy_step (0 + length (take L policy_map)) (pos, pr)
                    (set_children_policy p (set_action a n)) =
                  Raise IndexError (set_children_policy p (set_action a n))).
  { unfold set_policy_step, bind, this, read. simpl.
    rewrite setitem_Raise; [done|].
    destruct Hia as (Hla & _). rewrite Hla, Htake. fold L. apply index_of_high. lia. }
  by rewrite Hstep.
Qed.

(** X6. [set_policy] alone re-primes a node without touching its
    statistics: with a map that fits the node it returns, installs the
    entries in order and sets [num_children], and every visit count, value
    sum, virtual loss, child link, leaf value and noise cell, and any
    action or prior beyond the map, is as before. *)
Theorem set_policy_keeps_statistics n policy :
  (length policy <= length (action n))%nat ->
  (length policy <= length (children_policy n))%nat ->
  exists n', set_policy policy n = Return tt n' /\
    num_children n' = length policy /\
    (forall i pos p, items policy !! i = Some (pos, p) ->
       action n' !! i = Some pos /\ children_policy n' !! i = Some p) /\
    (forall i, (length policy <= i)%nat ->
       action n' !! i = action n !! i /\ children_policy n' !! i = children_policy n !! i) /\
    n' = set_num_children (num_children n')
           (set_children_policy (children_policy n') (set_action (action n') n)).
Proof.
  intros Ha Hp.
  destruct (set_policy_Return n policy Ha Hp) as (a & p & Hrun & Hia & Hip).
  eexists. split; [exact Hrun|]. simpl. split; [done|]. split; [|split; [|done]].
  - intros i pos q Hi. unfold items in Hi. split.
    + apply (installs_lookup_map fst _ _ _ _ _ Hia Hi).
    + apply (installs_lookup_map snd _ _ _ _ _ Hip Hi).
  - intros i Hi. destruct Hia as (_ & _ & Hoa), Hip as (_ & _ & Hop).
    split; [apply Hoa|apply Hop]; rewrite length_map; lia.
Qed.

(** X7. [expand] with more entries than [MAX_ACTIONS], on a node built
    with the default number of slots, raises [IndexError] and returns
    nothing: by then the statistics are reset and the first
    [MAX_ACTIONS] entries are installed, while [num_children] still holds
    the count from before the call. *)
Theorem expand_overflow n policy :
  wf MAX_ACTIONS n -> (MAX_ACTIONS < length policy)%nat ->
  exists n', expand policy n = Raise IndexError n' /\
    num_children n' = num_children n /\
    node_visits n' = 0 /\ virtual_loss n' = 0 /\
    children_visits n' = replicate MAX_ACTIONS 0 /\
    children_index n' = replicate MAX_ACTIONS NOT_EXPANDED /\
    forall i pos p, (i < MAX_ACTIONS)%nat -> items policy !! i = Some (pos, p) ->
      action n' !! i = Some pos /\ children_policy n' !! i = Some p.
Proof.
  intros [Li Lv Lc Lp Ll Ls Lz Fc Fl Hn Ha] Hlt.
  set (n1 := mk 0 0 0%float (replicate MAX_ACTIONS 0)
               (np.fill (children_index n) NOT_EXPANDED) (np.fill (children_value n) 0%float)
               (np.fill (children_visits n) 0) (children_policy n)
               (np.fill (children_virtual_loss n) 0) (np.fill (children_value_sum n) 0%float)
               (np.fill (noise n) 0%float) (num_children n)).
  assert (Hexp : expand policy n = set_policy policy n1) by reflexivity.
  assert (HL : length (action n1) = MAX_ACTIONS) by (unfold n1; simpl; apply length_replicate).
  destruct (set_policy_overflow n1 policy) as (a & p & Hrun & Hia & Hip).
  { rewrite HL. unfold n1. simpl. done. }
  { rewrite HL. done. }
  rewrite HL in Hia, Hip.
  eexists. split; [by rewrite Hexp, Hrun|]. unfold n1, np.fill. simpl.
  rewrite Lc, Li. repeat (split; [done|]).
  intros i pos q Hi Hpol. unfold items in Hpol.
  assert (Htk : take MAX_ACTIONS policy !! i = Some (pos, q)) by (by rewrite lookup_take_lt).
  split.
  - apply (installs_lookup_map fst _ _ _ _ _ Hia Htk).
  - apply (installs_lookup_map snd _ _ _ _ _ Hip Htk).
Qed.

(** X8. After [expand] the reads do not look at [num_children]:
    [get_num_children] returns the size of the map and [get_child_move]
    returns the map's keys in order, but for a subscript past the map and
    within [MAX_ACTIONS] it returns 0 rather than failing, and only from
    [MAX_ACTIONS] on (or below [-MAX_ACTIONS]) does it raise
    [IndexError]. *)
Theorem get_child_move_after_expand cap n policy :
  wf cap n -> (length policy <= cap)%nat -> (length policy <= MAX_ACTIONS)%nat ->
  exists n', expand policy n = Return tt n' /\
    get_num_children n' = Return (length policy) n' /\
    (forall i pos p, items policy !! i = Some (pos, p) ->
       get_child_move (Z.of_nat i) n' = Return pos n') /\
    (forall index k, index_of MAX_ACTIONS index = Some k -> (length policy <= k)%nat ->
       get_child_move index n' = Return 0 n') /\
    (forall index, index_of MAX_ACTIONS index = None ->
       get_child_move index n' = Raise IndexError n').
Proof.
  intros Hwf Hcap Hmax.
  destruct (expand_Return BOARD_SIZE NOT_EXPANDED cap n policy Hwf Hcap Hmax)
    as (a & p & Hrun & Hia & Hip).
  eexists. split; [exact Hrun|]. split; [done|].
  pose proof Hia as (Hla & _ & Hout). rewrite length_replicate in Hla.
  unfold get_child_move, bind, this, read. simpl. split; [|split].
  - intros i pos q Hi. unfold items in Hi.
    pose proof (installs_lookup_map fst _ _ _ _ _ Hia Hi) as Hai. simpl in Hai.
    apply (getitem_Return _ _ i); [|done].
    apply index_of_nat. by apply lookup_lt_Some in Hai.
  - intros index k Hk Hge. apply (getitem_Return _ _ k); [by rewrite Hla|].
    rewrite Hout by (rewrite length_map; lia).
    apply lookup_replicate_2. by apply index_of_lt in Hk.
  - intros index Hnone. apply getitem_Raise. by rewrite Hla.
Qed.

(** *** Policy update after expansion *)

Lemma dict_get_lookup {V} (d : dict V) i k v :
  NoDup (map fst d) -> d !! i = Some (k, v) -> dict_get d k = Some v.
Proof.
  revert i. induction d as [|[k' v'] d IH]; intros i Hnd Hi; [done|].
  apply NoDup_cons in Hnd as [Hnotin Hnd]. simpl.
  destruct i as [|i]; simpl in Hi.
  - injection Hi as -> ->. by rewrite Z.eqb_refl.
  - destruct (Z.eqb_spec k' k) as [->|Hne]; [|by apply (IH i)].
    exfalso. apply Hnotin. apply list_elem_of_In, in_map_iff.
    exists (k, v). split; [done|]. apply list_elem_of_In, list_elem_of_lookup. eauto.
Qed.

(** X9. [update_policy] with the map a node was just expanded with
    changes nothing: it returns and the node is as [expand] left it (the
    keys of a [dict] being distinct). *)
Theorem update_policy_after_expand cap n policy :
  wf cap n -> (length policy <= cap)%nat -> (length policy <= MAX_ACTIONS)%nat ->
  NoDup (map fst policy) ->
  exists n', expand policy n = Return tt n' /\ update_policy policy n' = Return tt n'.
Proof.
  intros Hwf Hcap Hmax Hnd.
  destruct (expand_Return BOARD_SIZE NOT_EXPANDED cap n policy Hwf Hcap Hmax)
    as (a & p & Hrun & Hia & Hip).
  eexists. split; [exact Hrun|]. set (n' := mk _ _ _ _ _ _ _ _ _ _ _ _).
  assert (Hup : update_policy policy n' =
                for_each (seq 0 (length policy)) (update_policy_step policy) n') by reflexivity.
  pose proof Hip as (Hlp & _).
  destruct Hwf as [Li Lv Lc Lp Ll Ls Lz Fc Fl Hn Ha].
  assert (Hkey : forall i, (i < length policy)%nat ->
            exists k v, policy !! i = Some (k, v) /\ a !! i = Some k /\ p !! i = Some v /\
                        dict_get policy k = Some v).
  { intros i Hi. destruct (lookup_lt_is_Some_2 policy i Hi) as [[k v] Hkv].
    exists k, v. split; [done|]. split; [|split].
    - apply (installs_lookup_map fst _ _ _ _ _ Hia Hkv).
    - apply (installs_lookup_map snd _ _ _ _ _ Hip Hkv).
    - by apply (dict_get_lookup policy i). }
  destruct (update_policy_loop policy (length policy) 0%nat n') as (q & Hloop & Hq & Hin & Hout).
  { unfold n'. simpl. rewrite Hlp, Lp. lia. }
  { intros i Hi. destruct (Hkey i) as (k & v & _ & Hak & _ & Hget); [lia|]. eauto. }
  assert (q = p) as ->; [|by rewrite Hup, Hloop].
  apply list_eq. intros i. destruct (decide (i < length policy)%nat) as [Hi|Hi].
  - destruct (Hkey i Hi) as (k & v & _ & Hak & Hpv & Hget).
    rewrite (Hin i k) by (lia || done). congruence.
  - apply Hout. lia.
Qed.

(** *** Virtual loss along several paths *)

Lemma wrap_int32_add_l a b : np.wrap_int32 (np.wrap_int32 a + b) = np.wrap_int32 (a + b).
Proof.
  unfold np.wrap_int32. f_equal.
  replace ((a + 2147483648) mod 4294967296 - 2147483648 + b + 2147483648)
    with ((a + 2147483648) mod 4294967296 + b) by lia.
  rewrite Zplus_mod_idemp_l. f_equal. lia.
Qed.

Lemma hits_cons len k i path :
  hits len k (i :: path) =
  (if bool_decide (index_of len i = Some k) then 1 else 0) + hits len k path.
Proof.
  unfold hits. rewrite filter_cons. destruct (bool_decide (index_of len i = Some k)); simpl; lia.
Qed.

Lemma add_virtual_loss_path cap (path : list (Z * float)) : forall n,
  wf cap n -> Forall (fun iv => is_Some (index_of cap iv.1)) path ->
  exists n1,
    for_each path (fun iv => add_virtual_loss iv.1) n = Return tt n1 /\
    wf cap n1 /\
    virtual_loss n1 = virtual_loss n + Z.of_nat (length path) /\
    forall k x, children_virtual_loss n !! k = Some x ->
      children_virtual_loss n1 !! k = Some (np.wrap_int32 (x + hits cap k (path.*1))).
Proof.
  induction path as [|[i v] path IH]; intros n Hwf Hall.
  - exists n. split; [done|]. split; [done|]. split; [simpl; lia|].
    intros k x Hx. assert (np.is_int32 x).
    { destruct Hwf. by eapply (Forall_lookup_1 _ (children_virtual_loss n)). }
    unfold hits. simpl. rewrite Z.add_0_r. by rewrite wrap_int32_id.
  - apply Forall_cons in Hall as [[k0 Hk0] Hall]. simpl in Hk0.
    pose proof Hwf as [Li Lv Lc Lp Ll Ls Lz Fc Fl Hn Ha].
    destruct (lookup_lt_is_Some_2 (children_virtual_loss n) k0) as [l Hl].
    { apply index_of_lt in Hk0. lia. }
    pose proof (add_virtual_loss_Return n i k0 l) as Hadd.
    rewrite Ll in Hadd. specialize (Hadd Hk0 Hl).
    set (n0 := set_children_virtual_loss _ _) in Hadd.
    assert (Hwf0 : wf cap n0).
    { apply (wf_set_children_virtual_loss cap (set_virtual_loss (virtual_loss n + 1) n)).
      - by apply wf_set_virtual_loss.
      - apply wrap_int32_range. }
    destruct (IH n0 Hwf0 Hall) as (n1 & Hrun & Hwf1 & Hv & Hcells).
    exists n1. split; [|split; [done|split]].
    + unfold for_each in *. cbn [for_fold]. unfold bind at 1. simpl. by rewrite Hadd.
    + rewrite Hv. unfold n0. simpl. lia.
    + intros k x Hx. cbn [fmap list_fmap]. simpl. rewrite hits_cons.
      destruct (decide (k = k0)) as [->|Hne].
      * rewrite bool_decide_eq_true_2 by done.
        assert (x = l) as -> by congruence.
        rewrite (Hcells k0 (np.add_int32 l 1)).
        -- unfold np.add_int32. rewrite wrap_int32_add_l. do 2 f_equal. lia.
        -- unfold n0. simpl. apply list_lookup_insert_eq. apply index_of_lt in Hk0. lia.
      * rewrite bool_decide_eq_false_2 by congruence.
        rewrite (Hcells k x); [done|].
        unfold n0. simpl. by rewrite list_lookup_insert_ne.
Qed.

Lemma update_child_value_path cap (path : list (Z * float)) : forall n,
  wf cap n -> Forall (fun iv => is_Some (index_of cap iv.1)) path ->
  exists n2,
    for_each path (fun iv => update_child_value iv.1 iv.2) n = Return tt n2 /\
    wf cap n2 /\
    virtual_loss n2 = virtual_loss n /\
    forall k x, children_virtual_loss n !! k = Some x ->
      children_virtual_loss n2 !! k = Some (np.wrap_int32 (x - hits cap k (path.*1))).
Proof.
  induction path as [|[i v] path IH]; intros n Hwf Hall.
  - exists n. split; [done|]. split; [done|]. split; [done|].
    intros k x Hx. assert (np.is_int32 x).
    { destruct Hwf. by eapply (Forall_lookup_1 _ (children_virtual_loss n)). }
    unfold hits. simpl. rewrite Z.sub_0_r. by rewrite wrap_int32_id.
  - apply Forall_cons in Hall as [[k0 Hk0] Hall]. simpl in Hk0.
    pose proof Hwf as [Li Lv Lc Lp Ll Ls Lz Fc Fl Hn Ha].
    pose proof (index_of_lt _ _ _ Hk0) as Hlt.
    destruct (lookup_lt_is_Some_2 (children_virtual_loss n) k0) as [l Hl]; [lia|].
    destruct (lookup_lt_is_Some_2 (children_visits n) k0) as [c Hc]; [lia|].
    destruct (lookup_lt_is_Some_2 (children_value_sum n) k0) as [w Hw]; [lia|].
    pose proof (update_child_value_Return cap n i k0 v w c l Hwf Hk0 Hw Hc Hl) as Hupd.
    pose proof (update_child_value_wf cap n i k0 v Hwf Hk0) as Hwf0.
    rewrite Hupd in Hwf0. simpl in Hwf0.
    set (n0 := set_children_virtual_loss _ _) in Hupd, Hwf0.
    destruct (IH n0 Hwf0 Hall) as (n2 & Hrun & Hwf2 & Hv & Hcells).
    exists n2. split; [|split; [done|split]].
    + unfold for_each in *. cbn [for_fold]. unfold bind at 1. simpl. by rewrite Hupd.
    + rewrite Hv. reflexivity.
    + intros k x Hx. cbn [fmap list_fmap]. simpl. rewrite hits_cons.
      destruct (decide (k = k0)) as [->|Hne].
      * rewrite bool_decide_eq_true_2 by done.
        assert (x = l) as -> by congruence.
        rewrite (Hcells k0 (np.sub_int32 l 1)).
        -- unfold np.sub_int32.
           replace (np.wrap_int32 (l - 1) - hits cap k0 path.*1)
             with (np.wrap_int32 (l - 1) + - hits cap k0 path.*1) by lia.
           rewrite wrap_int32_add_l. do 2 f_equal. lia.
        -- unfold n0. simpl. apply list_lookup_insert_eq. lia.
      * rewrite bool_decide_eq_false_2 by congruence.
        rewrite (Hcells k x); [done|].
        unfold n0. simpl. by rewrite list_lookup_insert_ne.
Qed.

(** X10. Virtual loss is released exactly once per increment, however
    the paths overlap: after [add_virtual_loss] for every child of a list
    of in-range subscripts (repeats allowed) and then [update_child_value]
    for the same list, every cell of [children_virtual_loss] holds its
    original value; the node's own [virtual_loss] is up by the number of
    paths until the matching [update_node_value] calls. *)
Theorem virtual_loss_balanced cap n (path : list (Z * float)) :
  wf cap n -> Forall (fun iv => is_Some (index_of cap iv.1)) path ->
  exists n1 n2,
    for_each path (fun iv => add_virtual_loss iv.1) n = Return tt n1 /\
    virtual_loss n1 = virtual_loss n + Z.of_nat (length path) /\
    for_each path (fun iv => update_child_value iv.1 iv.2) n1 = Return tt n2 /\
    children_virtual_loss n2 = children_virtual_loss n /\
    virtual_loss n2 = virtual_loss n + Z.of_nat (length path) /\
    wf cap n2.
Proof.
  intros Hwf Hall.
  destruct (add_virtual_loss_path cap path n Hwf Hall) as (n1 & Hrun1 & Hwf1 & Hv1 & Hc1).
  destruct (update_child_value_path cap path n1 Hwf1 Hall) as (n2 & Hrun2 & Hwf2 & Hv2 & Hc2).
  exists n1, n2. repeat (split; [done|]). split; [|split; [congruence|done]].
  apply list_eq. intros k.
  destruct (children_virtual_loss n !! k) as [x|] eqn:Hx.
  - rewrite (Hc2 k _ (Hc1 k x Hx)).
    replace (np.wrap_int32 (x + hits cap k path.*1) - hits cap k path.*1)
      with (np.wrap_int32 (x + hits cap k path.*1) + - hits cap k path.*1) by lia.
    rewrite wrap_int32_add_l. f_equal.
    replace (x + hits cap k path.*1 + - hits cap k path.*1) with x by lia.
    apply wrap_int32_id. destruct Hwf.
    by eapply (Forall_lookup_1 _ (children_virtual_loss n)).
  - apply lookup_ge_None. apply lookup_ge_None in Hx.
    destruct Hwf, Hwf2. lia.
Qed.

End NodeCoverage.

(** ** The plane generators *)

Section Comprehensions.

Context {S A B : Type}.

Lemma list_comp_Return (xs : list A) (f : A -> M S B) (g : A -> B) (s : S) :
  Forall (fun x => f x s = Return (g x) s) xs -> list_comp xs f s = Return (map g xs) s.
Proof.
  induction 1 as [|x xs Hx _ IH]; [done|].
  simpl. unfold bind at 1. rewrite Hx. unfold bind at 1. by rewrite IH.
Qed.

(** A comprehension whose items can only return without a change of
    state, or raise [e], can itself only do so. *)
Lemma list_comp_outcome (xs : list A) (f : A -> M S B) (e : exn) (s : S) :
  (forall x, (exists y, f x s = Return y s) \/ f x s = Raise e s) ->
  (exists ys, list_comp xs f s = Return ys s) \/ list_comp xs f s = Raise e s.
Proof.
  intros Hf. induction xs as [|x xs IH]; [left; eexists; reflexivity|].
  destruct (Hf x) as [[y Hy]|Hy].
  - destruct IH as [[ys Hys]|Hys]; [left; exists (y :: ys)|right];
      simpl; unfold bind; by rewrite Hy, Hys.
  - right. simpl. unfold bind. by rewrite Hy.
Qed.

Lemma for_fold_cons_Return (x : A) (xs : list A) (acc acc' : B) (body : B -> A -> M S B) (s : S) :
  body acc x s = Return acc' s ->
  for_fold (x :: xs) acc body s = for_fold xs acc' body s.
Proof. intros H. simpl. unfold bind. by rewrite H. Qed.

Lemma map_lookup (f : A -> B) (l : list A) (i : nat) : map f l !! i = f <$> l !! i.
Proof. exact (list_lookup_fmap f l i). Qed.

Lemma map_const (l : list A) (y : B) : map (fun _ => y) l = replicate (length l) y.
Proof. induction l as [|x l IH]; [done|]. simpl. by rewrite IH. Qed.

Lemma map_replicate (f : A -> B) (k : nat) (x : A) : map f (replicate k x) = replicate k (f x).
Proof. induction k as [|k IH]; [done|]. simpl. by rewrite IH. Qed.

End Comprehensions.

Section Arrays.

Lemma chunk_concat {A} (m : nat) (rows : list (list A)) :
  Forall (fun row => length row = m) rows ->
  np.chunk (length rows) m (concat rows) = rows.
Proof.
  induction 1 as [|row rows Hrow _ IH]; [done|].
  unfold np.chunk in *. simpl seq. cbn [map concat]. f_equal.
  - change (0 * m)%nat with 0%nat. rewrite drop_0. by apply take_app_length'.
  - rewrite <- seq_shift, map_map. rewrite <- IH at 2.
    apply map_ext. intros r. f_equal.
    rewrite drop_app_ge by (rewrite Hrow; lia). f_equal. rewrite Hrow. lia.
Qed.

Lemma concat_length {A} (m : nat) (rows : list (list A)) :
  Forall (fun row => length row = m) rows -> length (concat rows) = (length rows * m)%nat.
Proof.
  induction 1 as [|row rows Hrow _ IH]; [done|].
  cbn [concat length]. rewrite length_app, IH, Hrow. lia.
Qed.

Lemma chunk_replicate {A} (k m : nat) (v : A) :
  np.chunk k m (replicate (k * m) v) = replicate k (replicate m v).
Proof.
  assert (replicate (k * m) v = concat (replicate k (replicate m v))) as ->.
  { induction k as [|k IH]; [done|]. simpl. by rewrite replicate_add, IH. }
  rewrite <- (length_replicate k (replicate m v)) at 1.
  apply chunk_concat, Forall_replicate, length_replicate.
Qed.

Lemma chunk_shape {A} (k m : nat) (l : list A) :
  length l = (k * m)%nat ->
  length (np.chunk k m l) = k /\ Forall (fun row => length row = m) (np.chunk k m l).
Proof.
  intros Hl. unfold np.chunk. split; [by rewrite length_map, length_seq|].
  apply Forall_forall. intros row Hin. apply list_elem_of_In, in_map_iff in Hin as (r & <- & Hr).
  apply in_seq in Hr. rewrite length_take, length_drop, Hl.
  assert ((r + 1) * m <= k * m)%nat by (apply Nat.mul_le_mono_r; lia). lia.
Qed.

Lemma to_nat_square (d : Z) : 0 <= d -> Z.to_nat (d ^ 2) = (Z.to_nat d * Z.to_nat d)%nat.
Proof. intros Hd. rewrite Z.pow_2_r. by rewrite Z2Nat.inj_mul. Qed.

Context {S : Type}.

Lemma identity_getitem_Return (idx : list Z) (s : S) :
  Forall (fun d => 0 <= d <= 2) idx ->
  np.identity_getitem 3 idx s = Return (map (fun d => np.identity_row 3 (Z.to_nat d)) idx) s.
Proof.
  intros Hidx. apply list_comp_Return. eapply Forall_impl; [exact Hidx|].
  intros d Hd. cbv beta in *. by rewrite index_of_nonneg by (simpl; lia).
Qed.

Lemma identity_getitem_outcome (n : nat) (idx : list Z) (s : S) :
  (exists rows, np.identity_getitem n idx s = Return rows s) \/
  np.identity_getitem n idx s = Raise IndexError s.
Proof.
  apply list_comp_outcome. intros i. destruct (index_of n i); [left; eexists; reflexivity|by right].
Qed.

Lemma concatenate_Return (a : list (list float)) (rest : list (list (list float))) (s : S) :
  Forall (fun b => np.ncols b = np.ncols a) rest ->
  np.concatenate (a :: rest) s = Return (concat (a :: rest)) s.
Proof.
  intros H. unfold np.concatenate.
  replace (forallb _ rest) with true; [done|].
  symmetry. apply forallb_forall. intros b Hb. apply Nat.eqb_eq.
  rewrite Forall_forall in H. by apply H, list_elem_of_In.
Qed.

Lemma reshape_planes_Return (a : list (list float)) (d0 : nat) (d : Z) (s : S) :
  0 <= d -> length a = d0 -> Forall (fun row => length row = Z.to_nat (d ^ 2)) a ->
  np.reshape_planes a d0 d s =
  Return (map (np.chunk (Z.to_nat d) (Z.to_nat d)) a) s.
Proof.
  intros Hd Hlen Hrows. unfold np.reshape_planes.
  rewrite (concat_length _ _ Hrows), Hlen.
  replace ((0 <=? d) && _) with true.
  - f_equal. f_equal. rewrite <- Z.pow_2_r, <- Hlen. by apply chunk_concat.
  - symmetry. apply andb_true_iff. split; [lia|]. apply Z.eqb_eq.
    rewrite Nat2Z.inj_mul, Z2Nat.id by lia. lia.
Qed.

End Arrays.

Section FeatureProperties.

Variable MAX_RECORDS : nat.
Variable PASS : Z.
Variable get_board_data : Z -> list Z.
Variable get_board_size : Z.
Variable moves : Z.
Variable get_symmetrical_coordinate : Z -> Z -> Z.
Variable onboard_pos : list Z.

Local Abbreviation prev_moves_of := (Feature.prev_moves_of PASS moves).
Local Abbreviation planes_step :=
  (Feature.planes_step PASS get_board_size moves get_symmetrical_coordinate onboard_pos).
Local Abbreviation generate_input_planes :=
  (Feature.generate_input_planes PASS get_board_data get_board_size moves
     get_symmetrical_coordinate onboard_pos).
Local Abbreviation generate_target_data :=
  (Feature.generate_target_data PASS get_symmetrical_coordinate onboard_pos).
Local Abbreviation board_wf :=
  (Feature.wf get_board_data get_board_size onboard_pos).
Local Abbreviation cells := (Z.to_nat (get_board_size ^ 2)).
Local Abbreviation side := (Z.to_nat get_board_size).

(** What [prev_moves] holds when every move it asks for is in the
    ledger: the integer [PASS] for a move not yet played, a tuple
    otherwise; so an item equals an integer only when it is [PASS] for a
    move not yet played. *)
Lemma prev_moves_of_Return w :
  Record.wf MAX_RECORDS (Record.self w) -> moves <= Z.of_nat MAX_RECORDS ->
  exists prev_moves,
    prev_moves_of w = Return prev_moves w /\ length prev_moves = 5%nat /\
    forall i m x, prev_moves !! i = Some m ->
      Feature.eq_int m x = (moves <? Z.of_nat i + 1) && (PASS =? x).
Proof.
  intros Hwf Hmoves. destruct w as [r e]. simpl in Hwf.
  set (g := fun i : nat =>
    if moves <? Z.of_nat i + 1 then Feature.Int PASS
    else match Record.get (moves - Z.of_nat i - 1) (Record.World r e) with
         | Return t _ => Feature.Tuple t
         | Raise _ _ => Feature.Int PASS
         end).
  assert (Hget : forall i : nat, Z.of_nat i + 1 <= moves ->
            exists t, Record.get (moves - Z.of_nat i - 1) (Record.World r e) =
                      Return t (Record.World r e)).
  { intros i Hi. pose proof Hwf as (Lc & Lp & Lh).
    set (k := Z.to_nat (moves - Z.of_nat i - 1)).
    destruct (lookup_lt_is_Some_2 (Record.color r) k) as [x Hx]; [lia|].
    destruct (lookup_lt_is_Some_2 (Record.pos r) k) as [y Hy]; [lia|].
    destruct (lookup_lt_is_Some_2 (Record.hash_value r) k) as [z Hz]; [lia|].
    exists (x, y, z). apply (get_slot MAX_RECORDS r e _ k); try done.
    apply index_of_nonneg. lia. }
  exists (map g (range 5)). split; [|split].
  - apply list_comp_Return, Forall_forall. intros i _. unfold g.
    destruct (Z.ltb_spec moves (Z.of_nat i + 1)) as [Hlt|Hge]; [done|].
    destruct (Hget i Hge) as [t Ht]. unfold bind. by rewrite Ht.
  - done.
  - intros i m x Hm. rewrite map_lookup in Hm.
    destruct (range 5 !! i) as [j|] eqn:Hj; [|done].
    apply lookup_seq in Hj as [-> _]. simpl in Hm. injection Hm as <-. unfold g.
    destruct (Z.ltb_spec moves (Z.of_nat i + 1)) as [Hlt|Hge]; [done|].
    destruct (Hget i Hge) as [t ->]. done.
Qed.

(** One round of the loop: the test for a pass never holds, and the
    history plane is written from the comparison of the item with the
    coordinates. *)
Lemma planes_step_Return sym prev_moves history_planes pass_planes (i : nat) (w : Record.world) :
  length onboard_pos = cells -> length prev_moves = 5%nat ->
  (forall i m x, prev_moves !! i = Some m ->
     Feature.eq_int m x = (moves <? Z.of_nat i + 1) && (PASS =? x)) ->
  (i < 5)%nat -> length history_planes = 5%nat ->
  planes_step sym prev_moves (history_planes, pass_planes) i w =
  Return (<[i := [np.array (map (fun pos =>
                     if (moves <? Z.of_nat i + 1) && (PASS =? get_symmetrical_coordinate pos sym)
                     then 1 else 0) onboard_pos)]]> history_planes, pass_planes) w.
Proof.
  intros Hpos Hlen Hpm Hi Hh. unfold Feature.planes_step.
  destruct (lookup_lt_is_Some_2 prev_moves i) as [m Hm]; [lia|].
  assert (Hgetitem : getitem prev_moves (Z.of_nat i) w = Return m w).
  { apply (getitem_Return _ _ i); [|done]. apply index_of_nat. lia. }
  unfold bind at 1.
  assert ((if moves >? Z.of_nat i + 1
           then m0 <- getitem prev_moves (Z.of_nat i) ;; ret (Feature.eq_int m0 PASS)
           else ret false) w = Return false w) as ->.
  { destruct (Z.gtb_spec moves (Z.of_nat i + 1)) as [Hgt|Hle]; [|done].
    unfold bind. rewrite Hgetitem. unfold ret. f_equal. rewrite (Hpm i m PASS Hm).
    replace (moves <? Z.of_nat i + 1) with false by (symmetry; apply Z.ltb_ge; lia). done. }
  unfold bind at 1.
  rewrite (list_comp_Return _ _
    (fun pos => if (moves <? Z.of_nat i + 1) && (PASS =? get_symmetrical_coordinate pos sym)
                then 1 else 0)).
  2:{ apply Forall_forall. intros pos _. unfold bind. rewrite Hgetitem.
      by rewrite (Hpm i m _ Hm). }
  unfold bind at 1. unfold np.reshape_row, np.array. rewrite !length_map, Hpos, Nat.eqb_refl.
  unfold ret at 1. unfold bind.
  by rewrite (setitem_Return _ _ i) by (apply index_of_nat; lia).
Qed.

(** The planes of a board, each as one row, before they are cut into
    the rows of the board. *)
Lemma generate_input_planes_Return color sym w :
  board_wf sym -> Record.wf MAX_RECORDS (Record.self w) -> moves <= Z.of_nat MAX_RECORDS ->
  let board_data :=
    match color with
    | WHITE => map (fun datum => if datum =? 0 then datum else 3 - datum) (get_board_data sym)
    | _ => get_board_data sym
    end in
  let board j := map (fun datum => nth j (np.identity_row 3 (Z.to_nat datum)) 0%float) board_data in
  let history (i : nat) :=
    np.array (map (fun pos =>
      if (moves <? Z.of_nat i + 1) && (PASS =? get_symmetrical_coordinate pos sym)
      then 1 else 0) onboard_pos) in
  let zero := replicate cells 0%float in
  let turn :=
    replicate cells (match color with WHITE => PrimFloat.mul 1 (-1) | _ => 1%float end) in
  generate_input_planes color sym w =
  Return (np.astype_float32
            (map (np.chunk side side)
               [board 0%nat; board 1%nat; board 2%nat;
                history 0%nat; zero; history 1%nat; zero; history 2%nat; zero;
                history 3%nat; zero; history 4%nat; zero; turn])) w.
Proof.
  intros (Hsize & Hdata & Hpos & Hcodes) Hwf Hmoves board_data board history zero turn.
  assert (Hcodes' : Forall (fun d => 0 <= d <= 2) board_data).
  { unfold board_data. destruct color; try done.
    apply Forall_forall. intros d Hd. apply list_elem_of_In, in_map_iff in Hd as (d0 & <- & Hd0).
    rewrite Forall_forall in Hcodes. apply list_elem_of_In, Hcodes in Hd0.
    destruct (Z.eqb_spec d0 0); lia. }
  assert (Hdata' : length board_data = cells).
  { unfold board_data. destruct color; try done. by rewrite length_map. }
  destruct (prev_moves_of_Return w Hwf Hmoves) as (prev_moves & Hprev & Hlen & Hpm).
  unfold Feature.generate_input_planes. fold board_data.
  unfold bind at 1. rewrite (identity_getitem_Return _ _ Hcodes').
  unfold bind at 1. rewrite Hprev.
  unfold bind at 1. cbn [range seq map].
  do 5 (erewrite for_fold_cons_Return
          by (apply planes_step_Return; try done; rewrite ?length_insert; simpl; lia)).
  cbn [for_fold ret list_insert Z.of_nat].
  repeat (unfold bind at 1; erewrite getitem_Return by (simpl; reflexivity)).
  unfold bind at 1. rewrite concatenate_Return.
  2:{ unfold np.transpose, np.zeros, np.ones, np.array. cbn [seq map np.ncols fst snd replicate].
      destruct color; repeat constructor;
        cbn [map np.ncols]; by rewrite ?length_map, ?length_replicate, ?Hpos, ?Hdata'. }
  unfold bind at 1. rewrite (reshape_planes_Return _ 14).
  - unfold ret, np.astype_float32. do 2 f_equal.
    unfold np.transpose, np.zeros, np.ones.
    destruct color; cbn [seq map concat app fst snd replicate];
      rewrite ?map_map, ?map_replicate; reflexivity.
  - done.
  - unfold np.transpose, np.zeros, np.ones. destruct color; reflexivity.
  - unfold np.transpose, np.zeros, np.ones, np.array. cbn [seq map concat app fst snd replicate].
    destruct color; repeat constructor;
      by rewrite ?length_map, ?length_replicate, ?Hpos, ?Hdata'.
Qed.

Lemma float32_plane (v : float) :
  0 <= get_board_size -> np.float32 v = v ->
  map (map np.float32) (np.chunk side side (replicate cells v)) = replicate side (replicate side v).
Proof.
  intros Hsize Hv. rewrite to_nat_square by done.
  by rewrite chunk_replicate, !map_replicate, Hv.
Qed.

Lemma array_zeros {A} (l : list A) : np.array (map (fun _ => 0) l) = replicate (length l) 0%float.
Proof. unfold np.array. rewrite map_map. apply map_const. Qed.

Lemma astype_float32_lookup (a : list (list float)) (k : nat) :
  np.astype_float32 (map (np.chunk side side) a) !! k =
  (fun row => map (map np.float32) (np.chunk side side row)) <$> a !! k.
Proof.
  unfold np.astype_float32. rewrite !map_lookup. by destruct (a !! k).
Qed.

(** X18. On a well-formed board whose moves are all in the ledger,
    [generate_input_planes] returns, and its planes carry no move: each
    of the five pass planes is zero everywhere, and so is the history
    plane of every move that has been played, because the tuple that
    [Record.get] returns is compared with an integer.  The planes are the
    same whatever the ledger holds. *)
Theorem input_planes_carry_no_move color sym w :
  board_wf sym -> Record.wf MAX_RECORDS (Record.self w) -> moves <= Z.of_nat MAX_RECORDS ->
  exists planes,
    generate_input_planes color sym w = Return planes w /\
    (forall i : nat, (i < 5)%nat ->
       planes !! (4 + 2 * i)%nat = Some (np.zeros (side, side)) /\
       (Z.of_nat i + 1 <= moves -> planes !! (3 + 2 * i)%nat = Some (np.zeros (side, side)))) /\
    (forall r', Record.wf MAX_RECORDS r' ->
       generate_input_planes color sym (Record.World r' (Record.stderr w)) =
       Return planes (Record.World r' (Record.stderr w))).
Proof.
  intros Hboard Hwf Hmoves. pose proof Hboard as (Hsize & _ & Hpos & _).
  eexists. split; [by apply generate_input_planes_Return|]. split.
  - intros i Hi. split.
    + rewrite astype_float32_lookup.
      do 5 (destruct i as [|i]; [simpl; f_equal; by apply float32_plane|]). lia.
    + intros Hplayed. rewrite astype_float32_lookup.
      assert (Hzero : map (map np.float32) (np.chunk side side (np.array (map (fun pos =>
                 if (moves <? Z.of_nat i + 1) && (PASS =? get_symmetrical_coordinate pos sym)
                 then 1 else 0) onboard_pos))) = np.zeros (side, side)).
      { replace (moves <? Z.of_nat i + 1) with false by (symmetry; apply Z.ltb_ge; lia).
        cbn [andb]. rewrite array_zeros, Hpos. by apply float32_plane. }
      do 5 (destruct i as [|i]; [simpl; f_equal; exact Hzero|]). lia.
  - intros r' Hwf'. by apply generate_input_planes_Return.
Qed.

(** X19. Once the board counts more moves than the ledger has slots,
    [generate_input_planes] raises [IndexError], whatever the board and
    the colour: the last move it asks the ledger for lies beyond the
    slots. *)
Theorem input_planes_ledger_overrun color sym w :
  Record.wf MAX_RECORDS (Record.self w) -> Z.of_nat MAX_RECORDS < moves ->
  generate_input_planes color sym w = Raise IndexError w.
Proof.
  intros (Lc & _) Hmoves. unfold Feature.generate_input_planes.
  unfold bind at 1.
  match goal with
  | |- context [np.identity_getitem 3 ?d w] =>
      destruct (identity_getitem_outcome 3 d w) as [[rows ->]| ->]; [|done]
  end.
  unfold bind at 1.
  assert (prev_moves_of w = Raise IndexError w) as ->; [|done].
  unfold Feature.prev_moves_of. cbn [range seq list_comp]. unfold bind at 1.
  replace (moves <? Z.of_nat 0 + 1) with false by (symmetry; apply Z.ltb_ge; lia).
  unfold bind at 1. unfold Record.get, Record.this. unfold bind at 1. unfold bind at 1.
  by rewrite getitem_Raise by (apply index_of_high; simpl in *; lia).
Qed.

(** X20. The planes are those of the player to move: for White the
    plane of the empty points is the one Black gets, the planes of the
    two colours change places, the ten planes of the moves are the same,
    and the last plane is -1 everywhere where Black's is 1. *)
Theorem input_planes_of_the_mover sym w :
  board_wf sym -> Record.wf MAX_RECORDS (Record.self w) -> moves <= Z.of_nat MAX_RECORDS ->
  exists black white,
    generate_input_planes BLACK sym w = Return black w /\
    generate_input_planes WHITE sym w = Return white w /\
    white !! 0%nat = black !! 0%nat /\
    white !! 1%nat = black !! 2%nat /\
    white !! 2%nat = black !! 1%nat /\
    (forall k, (3 <= k < 13)%nat -> white !! k = black !! k) /\
    black !! 13%nat = Some (np.ones (side, side)) /\
    white !! 13%nat = Some (replicate side (replicate side (-1)%float)).
Proof.
  intros Hboard Hwf Hmoves. pose proof Hboard as (Hsize & _ & _ & Hcodes).
  do 2 eexists. split; [by apply generate_input_planes_Return|].
  split; [by apply generate_input_planes_Return|].
  assert (Hswap : forall j j' : nat,
    (forall d, 0 <= d <= 2 ->
       nth j (np.identity_row 3 (Z.to_nat (if d =? 0 then d else 3 - d))) 0%float =
       nth j' (np.identity_row 3 (Z.to_nat d)) 0%float) ->
    map (fun datum => nth j (np.identity_row 3 (Z.to_nat datum)) 0%float)
      (map (fun datum => if datum =? 0 then datum else 3 - datum) (get_board_data sym)) =
    map (fun datum => nth j' (np.identity_row 3 (Z.to_nat datum)) 0%float) (get_board_data sym)).
  { intros j j' Hj. rewrite map_map. apply map_ext_in. intros d Hd. apply Hj.
    rewrite Forall_forall in Hcodes. by apply Hcodes, list_elem_of_In. }
  assert (Hcode : forall d, 0 <= d <= 2 -> d = 0 \/ d = 1 \/ d = 2) by lia.
  rewrite !astype_float32_lookup. cbn [lookup list_lookup fmap option_fmap option_map].
  split; [|split; [|split; [|split; [|split]]]].
  - do 3 f_equal. apply Hswap. intros d Hd. by destruct (Hcode d Hd) as [->|[->| ->]].
  - do 3 f_equal. apply Hswap. intros d Hd. by destruct (Hcode d Hd) as [->|[->| ->]].
  - do 3 f_equal. apply Hswap. intros d Hd. by destruct (Hcode d Hd) as [->|[->| ->]].
  - intros k Hk. rewrite !astype_float32_lookup.
    do 3 (destruct k as [|k]; [lia|]).
    do 10 (destruct k as [|k]; [reflexivity|]). lia.
  - f_equal. by apply float32_plane.
  - f_equal. by apply float32_plane.
Qed.

(** X21. The array that [generate_input_planes] returns has the shape
    (14, size, size). *)
Theorem input_planes_shape color sym w :
  board_wf sym -> Record.wf MAX_RECORDS (Record.self w) -> moves <= Z.of_nat MAX_RECORDS ->
  exists planes,
    generate_input_planes color sym w = Return planes w /\
    length planes = 14%nat /\
    Forall (fun plane => length plane = side /\ Forall (fun row => length row = side) plane)
      planes.
Proof.
  intros Hboard Hwf Hmoves. pose proof Hboard as (Hsize & Hdata & Hpos & _).
  eexists. split; [by apply generate_input_planes_Return|]. split; [done|].
  assert (Hshape : forall row : list float, length row = cells ->
            length (map (map np.float32) (np.chunk side side row)) = side /\
            Forall (fun row => length row = side) (map (map np.float32) (np.chunk side side row))).
  { intros row Hrow. rewrite to_nat_square in Hrow by done.
    destruct (chunk_shape side side row Hrow) as [Hk Hrows].
    split; [by rewrite length_map|].
    apply Forall_forall. intros r Hr. apply list_elem_of_In, in_map_iff in Hr as (r0 & <- & Hr0).
    rewrite length_map. rewrite Forall_forall in Hrows. by apply Hrows, list_elem_of_In. }
  unfold np.astype_float32, np.array. cbn [map].
  repeat constructor; apply Hshape;
    destruct color; by rewrite ?length_map, ?length_replicate, ?Hpos, ?Hdata.
Qed.

Lemma one_hot (l : list Z) (k : nat) (t : Z) :
  NoDup l -> l !! k = Some t ->
  map (fun x => if t =? x then 1 else 0) l = <[k:=1]> (replicate (length l) 0).
Proof.
  intros Hl. revert k. induction Hl as [|x l Hx Hl IH]; intros k Hk; [done|].
  destruct k as [|k]; simpl in *.
  - injection Hk as ->. rewrite Z.eqb_refl. f_equal.
    rewrite <- map_const. apply map_ext_in. intros y Hy.
    destruct (Z.eqb_spec t y) as [->|]; [|done]. by apply list_elem_of_In in Hy.
  - destruct (Z.eqb_spec t x) as [->|].
    + by apply list_elem_of_lookup_2 in Hk.
    + f_equal. by apply IH.
Qed.

(** X22. When the coordinates of the on-board positions are distinct
    and none is [PASS], [generate_target_data] is one-hot: a target among
    them, or [PASS], gives 1 at its own place (the pass after the
    positions) and 0 elsewhere; any other target gives 0 everywhere. *)
Theorem target_data_one_hot target_pos sym :
  let coordinates :=
    map (fun pos => get_symmetrical_coordinate pos sym) onboard_pos ++ [PASS] in
  NoDup coordinates ->
  (forall k, coordinates !! k = Some target_pos ->
     generate_target_data target_pos sym = <[k:=1]> (replicate (S (length onboard_pos)) 0)) /\
  (target_pos ∉ coordinates ->
     generate_target_data target_pos sym = replicate (S (length onboard_pos)) 0).
Proof.
  intros coordinates Hnodup.
  assert (Hdata : generate_target_data target_pos sym =
                  map (fun x => if target_pos =? x then 1 else 0) coordinates).
  { unfold Feature.generate_target_data, coordinates. by rewrite map_app, map_map. }
  assert (Hlen : length coordinates = S (length onboard_pos)).
  { unfold coordinates. rewrite length_app, length_map. simpl. lia. }
  rewrite Hdata, <- Hlen. split.
  - intros k Hk. by apply one_hot.
  - intros Hnot. rewrite <- map_const. apply map_ext_in. intros y Hy.
    destruct (Z.eqb_spec target_pos y) as [->|]; [|done]. by apply list_elem_of_In in Hy.
Qed.

End FeatureProperties.

(** ** The PUCB score over the reals *)

Section ScoreMonotone.

Import PUCB.
Local Open Scope R_scope.










End ScoreMonotone.

(** ** Concrete runs *)

(** *** The ledger on concrete runs *)




(** *** The PUCB score on concrete values *)



(** The same two scores in binary64 arithmetic. *)
Example pucb_score_rises_with_visits_float :
  PUCB.score_float 1 1 (-1)%float 0%float = (-1)%float /\
  PUCB.score_float 1 2 (-1)%float 0%float = (-0.5)%float.
Proof. split; reflexivity. Qed.

(** *** The search node on concrete runs *)

Ltac node_wf :=
  split;
  lazymatch goal with
  | |- Forall ?P ?l =>
      let l' := eval vm_compute in l in
      change (Forall P l');
      repeat constructor; unfold np.is_int32, np.int32_min, np.int32_max; lia
  | |- (?a <= ?b)%nat =>
      let a' := eval vm_compute in a in
      let b' := eval vm_compute in b in
      change (a' <= b')%nat; lia
  | |- _ => reflexivity
  end.

(** The evaluator of the PUCB module scores child by child. *)
Lemma sample_scores_per_child :
  MCTSNode.scores_per_child PUCB.calculate_pucb_value PUCB.score_float.
Proof. intros N ns ws ps. reflexivity. Qed.

(** The node scenario of the spec: expanded with three priors, then three
    value updates. *)
Example visited_scenario :
  MCTSNode.action Sample.visited = [10; 20; 30; 0; 0] /\
  MCTSNode.children_visits Sample.visited = [1; 2; 0; 0; 0] /\
  MCTSNode.children_value_sum Sample.visited =
    [1%float; (-0.5)%float; 0%float; 0%float; 0%float] /\
  MCTSNode.get_best_move_index Sample.visited = Return 1%nat Sample.visited.
Proof. repeat split. Qed.

(** The round trip on child 1 of the expanded node, named by the
    negative subscript [-4]. *)
Lemma virtual_loss_round_trip_witness :
  MCTSNode.wf 5 Sample.expanded /\ index_of 5 (-4) = Some 1%nat /\
  exists n3,
    (MCTSNode.add_virtual_loss (-4) ;;; MCTSNode.update_child_value (-4) 0.5%float ;;;
     MCTSNode.update_node_value 0.5%float) Sample.expanded = Return tt n3 /\
    MCTSNode.virtual_loss n3 = 0 /\
    MCTSNode.children_virtual_loss n3 = [0; 0; 0; 0; 0] /\
    MCTSNode.node_visits n3 = 1.
Proof.
  assert (Hwf : MCTSNode.wf 5 Sample.expanded) by node_wf.
  split; [exact Hwf|]. split; [reflexivity|].
  destruct (virtual_loss_round_trip 5 Sample.expanded (-4) 1 0.5%float Hwf eq_refl)
    as (l & c & w & n1 & n2 & n3 & Hl & Hc & Hw & Hadd & _ & _ & _ & Hupd & _ & _ & _ & _ &
        Hnode & _ & Hnv & _ & Hv & Hcv).
  exists n3. unfold bind. rewrite Hadd, Hupd, Hnode.
  split; [reflexivity|]. split; [exact Hv|]. split; [exact Hcv|exact Hnv].
Defined.

(** C1 as stated fails: a [np.int32] cell at [2^31 - 1] does not go up by
    1, it wraps to [-2^31]. *)
Lemma add_virtual_loss_wraps :
  MCTSNode.children_virtual_loss Sample.saturated !! 0%nat = Some 2147483647 /\
  (exists n1, MCTSNode.add_virtual_loss 0 Sample.saturated = Return tt n1 /\
     MCTSNode.children_virtual_loss n1 !! 0%nat = Some (-2147483648)) /\
  -2147483648 <> 2147483647 + 1.
Proof. split; [reflexivity|]. split; [eexists; split; reflexivity|lia]. Qed.

(** Expanding the visited node again clears its statistics. *)
Lemma expand_fresh_leaf_witness :
  MCTSNode.wf 5 Sample.visited /\
  exists n', Sample.expand Sample.policy3 Sample.visited = Return tt n' /\
    MCTSNode.num_children n' = 3%nat /\
    MCTSNode.children_visits n' = [0; 0; 0; 0; 0] /\
    MCTSNode.children_index n' = [-1; -1; -1; -1; -1].
Proof.
  assert (Hwf : MCTSNode.wf 5 Sample.visited) by node_wf.
  split; [exact Hwf|].
  destruct (expand_fresh_leaf Sample.BOARD_SIZE Sample.NOT_EXPANDED 5 Sample.visited
              Sample.policy3 Hwf ltac:(vm_compute; lia) ltac:(vm_compute; lia))
    as (n' & Hrun & Hk & _ & _ & _ & _ & Hi & _ & Hv & _).
  exists n'. split; [exact Hrun|]. split; [exact Hk|]. split; [exact Hv|exact Hi].
Defined.

(** C3 as stated fails: [expand] does not touch the [children_policy]
    slots beyond the new map, so a node expanded with three children and
    then with one keeps the old priors in slots 1 and 2. *)
Lemma expand_keeps_stale_policy :
  exists n', Sample.expand (dict_display [(40, 1%float)]) Sample.expanded = Return tt n' /\
    MCTSNode.num_children n' = 1%nat /\
    MCTSNode.children_policy n' = [1%float; 0.3%float; 0.2%float; 0%float; 0%float] /\
    PrimFloat.eqb 0.3%float 0%float = false.
Proof. eexists. split; [vm_compute; reflexivity|]. repeat split. Qed.

(** The two-entry map of the spec, with actions 10 and 20. *)
Lemma expand_two_entries_witness :
  MCTSNode.wf 5 Sample.visited /\ (2 <= 5)%nat /\ (1 <= Sample.BOARD_SIZE)%nat /\ 10 <> 20 /\
  exists n', Sample.expand (dict_display [(10, 0.4%float); (20, 0.6%float)]) Sample.visited =
             Return tt n' /\
    MCTSNode.num_children n' = 2%nat /\ MCTSNode.action n' !! 0%nat = Some 10 /\
    MCTSNode.children_policy n' !! 0%nat = Some 0.4%float /\ MCTSNode.node_visits n' = 0.
Proof.
  assert (Hwf : MCTSNode.wf 5 Sample.visited) by node_wf.
  assert (Hb : (1 <= Sample.BOARD_SIZE)%nat) by (unfold Sample.BOARD_SIZE; lia).
  split; [exact Hwf|]. split; [lia|]. split; [exact Hb|]. split; [lia|].
  destruct (expand_two_entries Sample.BOARD_SIZE Sample.NOT_EXPANDED 5 Sample.visited 10 20
              Hwf ltac:(lia) Hb ltac:(lia))
    as (n' & Hrun & Hk & Ha0 & Hp0 & _ & _ & Hv).
  exists n'. split; [exact Hrun|]. split; [exact Hk|]. split; [exact Ha0|].
  split; [exact Hp0|exact Hv].
Defined.

(** Selection with the evaluator of the PUCB module, on the visited node
    and on a node just expanded with two equal priors. *)
Lemma select_next_action_deterministic_witness :
  MCTSNode.wf 5 Sample.visited /\ (1 <= MCTSNode.num_children Sample.visited)%nat /\
  (exists r, Sample.select_next_action Sample.visited = Return r Sample.visited /\
     (r < 3)%nat) /\
  exists n', Sample.expand (dict_display [(10, 0.5%float); (20, 0.5%float)]) Sample.fresh =
             Return tt n' /\
    Sample.select_next_action n' = Return 0%nat n'.
Proof.
  assert (Hwf : MCTSNode.wf 5 Sample.visited) by node_wf.
  assert (Hwf0 : MCTSNode.wf 5 Sample.fresh) by node_wf.
  assert (Hk : (1 <= MCTSNode.num_children Sample.visited)%nat) by (vm_compute; lia).
  destruct (select_next_action_deterministic Sample.BOARD_SIZE Sample.NOT_EXPANDED
              PUCB.calculate_pucb_value PUCB.score_float sample_scores_per_child)
    as (Hmax & Hpair).
  split; [exact Hwf|]. split; [exact Hk|]. split.
  - destruct (Hmax 5%nat Sample.visited Hwf Hk) as (r & m & Hrun & Hr & _).
    exists r. split; [exact Hrun|exact Hr].
  - apply (Hpair 5%nat Sample.fresh 10 20 0.5%float Hwf0); [lia|unfold Sample.BOARD_SIZE; lia|lia].
Defined.

(** The visited node: child 1, with two visits, is the best move. *)
Lemma get_best_move_most_visited_witness :
  MCTSNode.wf 5 Sample.visited /\ (1 <= MCTSNode.num_children Sample.visited)%nat /\
  exists r a,
    MCTSNode.get_best_move_index Sample.visited = Return r Sample.visited /\
    MCTSNode.children_visits Sample.visited !! r = Some 2 /\
    MCTSNode.action Sample.visited !! r = Some a /\
    MCTSNode.get_best_move Sample.visited = Return a Sample.visited.
Proof.
  assert (Hwf : MCTSNode.wf 5 Sample.visited) by node_wf.
  assert (Hk : (1 <= MCTSNode.num_children Sample.visited)%nat) by (vm_compute; lia).
  split; [exact Hwf|]. split; [exact Hk|].
  destruct (get_best_move_most_visited 5 Sample.visited Hwf Hk)
    as (r & m & a & Hidx & Hr & Hm & Hall & _ & _ & Hact & Hmove).
  exists r, a. split; [exact Hidx|]. split; [|split; [exact Hact|exact Hmove]].
  rewrite Hm. f_equal. apply Z.le_antisymm.
  - change (r < 3)%nat in Hr.
    destruct r as [|[|[|r]]]; [| | |lia]; vm_compute in Hm; injection Hm as <-; lia.
  - apply (Hall 1%nat 2); [vm_compute; lia|reflexivity].
Defined.

(** The expanded node, with a map that has its three actions and with a
    map that lacks action 20. *)
Lemma update_policy_overwrites_or_raises_witness :
  MCTSNode.wf 5 Sample.expanded /\
  (exists p,
     MCTSNode.update_policy (dict_display [(30, 0.25%float); (10, 0.25%float); (20, 0.5%float)])
       Sample.expanded = Return tt (MCTSNode.set_children_policy p Sample.expanded) /\
     p !! 1%nat = Some 0.5%float /\ p !! 3%nat = Some 0%float) /\
  (exists k n',
     MCTSNode.update_policy (dict_display [(10, 0.5%float); (30, 0.5%float)]) Sample.expanded =
       Raise (KeyError k) n' /\
     dict_get (dict_display [(10, 0.5%float); (30, 0.5%float)]) k = None).
Proof.
  assert (Hwf : MCTSNode.wf 5 Sample.expanded) by node_wf.
  split; [exact Hwf|]. split.
  - destruct (proj1 (update_policy_overwrites_or_raises 5 Sample.expanded
                (dict_display [(30, 0.25%float); (10, 0.25%float); (20, 0.5%float)]) Hwf))
      as (p & Hrun & _ & Hin & Hout).
    + change (MCTSNode.num_children Sample.expanded) with 3%nat.
      intros [|[|[|i]]] a Hi Ha; [| | |lia]; vm_compute in Ha; injection Ha as <-;
        vm_compute; eauto.
    + exists p. split; [exact Hrun|]. split.
      * apply (Hin 1%nat 20); [vm_compute; lia|reflexivity].
      * rewrite Hout by (vm_compute; lia). reflexivity.
  - apply (proj2 (update_policy_overwrites_or_raises 5 Sample.expanded
                (dict_display [(10, 0.5%float); (30, 0.5%float)]) Hwf)).
    exists 1%nat, 20. split; [vm_compute; lia|]. split; reflexivity.
Defined.

(** A node never expanded, and the visited node expanded with an empty
    map. *)
Lemma argmax_without_children_witness :
  MCTSNode.num_children Sample.fresh = 0%nat /\
  Sample.select_next_action Sample.fresh = Raise ValueError Sample.fresh /\
  MCTSNode.get_best_move_index Sample.fresh = Raise ValueError Sample.fresh /\
  exists n', Sample.expand (dict_display []) Sample.visited = Return tt n' /\
    Sample.select_next_action n' = Raise ValueError n' /\
    MCTSNode.get_best_move_index n' = Raise ValueError n'.
Proof.
  destruct (argmax_without_children Sample.BOARD_SIZE Sample.NOT_EXPANDED
              PUCB.calculate_pucb_value) as (Hraise & Hinit & Hempty).
  assert (Hwf : MCTSNode.wf 5 Sample.visited) by node_wf.
  split; [apply Hinit|].
  destruct (Hraise Sample.fresh (Hinit _)) as (Hs & Hi & _).
  split; [exact Hs|]. split; [exact Hi|].
  destruct (Hempty 5%nat Sample.visited Hwf) as (n' & Hrun & Hk).
  exists n'. split; [exact Hrun|].
  destruct (Hraise n' Hk) as (Hs' & Hi' & _). split; [exact Hs'|exact Hi'].
Defined.

(** *** More concrete runs *)


(** Below [-3] both methods raise; at 3, [get] raises. *)
Lemma ledger_out_of_range_witness :
  Record.wf 3 (Record.init 3 82) /\
  Record.save 3 (-4) BLACK 4 0xABC (Record.World (Record.init 3 82) []) =
    Raise IndexError (Record.World (Record.init 3 82) []) /\
  Record.get 3 (Record.World (Record.init 3 82) []) =
    Raise IndexError (Record.World (Record.init 3 82) []).
Proof.
  assert (Hwf : Record.wf 3 (Record.init 3 82)) by (repeat split).
  split; [exact Hwf|]. split.
  - apply (proj1 (ledger_out_of_range 3 (Record.init 3 82) [] (-4) BLACK 4 0xABC Hwf)).
    simpl. lia.
  - apply (proj2 (ledger_out_of_range 3 (Record.init 3 82) [] 3 BLACK 4 0xABC Hwf)).
    right. simpl. lia.
Defined.


(** The ledger of the board of [Sample], cleared. *)
Lemma clear_then_get_witness :
  Record.wf 3 (Record.self Sample.record) /\
  exists w', Record.clear 3 16 Sample.record = Return tt w' /\
    Record.get 1 w' = Return (EMPTY, 16, 0) w' /\
    Record.has_same_hash 0xABC w' = Return false w'.
Proof.
  assert (Hwf : Record.wf 3 (Record.self Sample.record)) by (repeat split).
  split; [exact Hwf|].
  destruct (clear_then_get 3 16 Sample.record Hwf) as (w' & Hrun & _ & _ & Hget & Hhash).
  exists w'. split; [exact Hrun|]. split.
  - apply (Hget 1 1%nat). reflexivity.
  - apply Hhash. lia.
Defined.



(** A save on the first ledger of [Sample.two_ledgers], on the heap and
    by value. *)
Lemma store_agrees_with_ledger_witness :
  Store.view Sample.two_ledgers 3%nat =
    Some (Record.mk [BLACK; EMPTY; EMPTY] [4; 82; 82] [0xABC; 0; 0]) /\
  Store.agrees 3%nat (Store.save 3 3%nat 1 WHITE 5 0xDEF Sample.two_ledgers)
    (Record.save 3 1 WHITE 5 0xDEF
       (Record.World (Record.mk [BLACK; EMPTY; EMPTY] [4; 82; 82] [0xABC; 0; 0]) [])).
Proof.
  split; [reflexivity|].
  apply (proj1 (store_agrees_with_ledger 3 82 Sample.two_ledgers 3%nat _ eq_refl
                  ltac:(repeat split))).
Defined.

(** A link written on child 1 of the expanded node. *)
Lemma child_index_round_trip_witness :
  MCTSNode.wf 5 Sample.expanded /\ np.is_int32 7 /\
  exists n', MCTSNode.set_child_index 1 7 Sample.expanded = Return tt n' /\
    MCTSNode.get_child_index 1 n' = Return 7 n'.
Proof.
  assert (Hwf : MCTSNode.wf 5 Sample.expanded) by node_wf.
  assert (H32 : np.is_int32 7) by (unfold np.is_int32, np.int32_min, np.int32_max; lia).
  split; [exact Hwf|]. split; [exact H32|].
  destruct (proj1 (child_index_round_trip 5 Sample.expanded 1 7 Hwf H32) 1%nat eq_refl)
    as (n' & Hset & Hget & _).
  exists n'. split; [exact Hset|exact Hget].
Defined.

(** One more visit to child 1 of the visited node, its best move. *)
Lemma committed_visit_keeps_best_witness :
  MCTSNode.wf 5 Sample.visited /\
  MCTSNode.get_best_move_index Sample.visited = Return 1%nat Sample.visited /\
  exists n', MCTSNode.update_child_value 1 0.5%float Sample.visited = Return tt n' /\
    MCTSNode.get_best_move_index n' = Return 1%nat n'.
Proof.
  assert (Hwf : MCTSNode.wf 5 Sample.visited) by node_wf.
  split; [exact Hwf|]. split; [reflexivity|].
  apply (committed_visit_keeps_best 5 Sample.visited 1 0.5%float Hwf eq_refl).
  intros c Hc. vm_compute in Hc. injection Hc as <-. reflexivity.
Defined.

(** One pass on the visited node, with the evaluator of the PUCB
    module. *)
Lemma simulation_pass_witness :
  MCTSNode.wf 5 Sample.visited /\ (1 <= MCTSNode.num_children Sample.visited)%nat /\
  exists i n',
    (i <- Sample.select_next_action ;;
     MCTSNode.add_virtual_loss (Z.of_nat i) ;;;
     MCTSNode.update_child_value (Z.of_nat i) 0.5%float ;;;
     MCTSNode.update_node_value 0.5%float ;;;
     ret i) Sample.visited = Return i n' /\
    MCTSNode.children_virtual_loss n' = MCTSNode.children_virtual_loss Sample.visited /\
    MCTSNode.virtual_loss n' = 0 /\
    MCTSNode.node_visits n' = 1.
Proof.
  assert (Hwf : MCTSNode.wf 5 Sample.visited) by node_wf.
  assert (Hk : (1 <= MCTSNode.num_children Sample.visited)%nat) by (vm_compute; lia).
  split; [exact Hwf|]. split; [exact Hk|].
  destruct (simulation_pass PUCB.calculate_pucb_value PUCB.score_float 5 Sample.visited
              0.5%float sample_scores_per_child Hwf Hk)
    as (i & c & n' & Hrun & _ & _ & _ & Hcv & Hv & Hnv & _).
  exists i, n'. split; [exact Hrun|].
  split; [rewrite Hcv; reflexivity|]. split; [rewrite Hv; reflexivity|rewrite Hnv; reflexivity].
Defined.

(** A one-entry map set on the visited node: the visits stay. *)
Lemma set_policy_keeps_statistics_witness :
  (1 <= length (MCTSNode.action Sample.visited))%nat /\
  (1 <= length (MCTSNode.children_policy Sample.visited))%nat /\
  exists n', MCTSNode.set_policy (dict_display [(40, 1%float)]) Sample.visited = Return tt n' /\
    MCTSNode.num_children n' = 1%nat /\
    MCTSNode.action n' !! 0%nat = Some 40 /\
    MCTSNode.children_visits n' = [1; 2; 0; 0; 0].
Proof.
  assert (Ha : (1 <= length (MCTSNode.action Sample.visited))%nat) by (vm_compute; lia).
  assert (Hp : (1 <= length (MCTSNode.children_policy Sample.visited))%nat)
    by (vm_compute; lia).
  split; [exact Ha|]. split; [exact Hp|].
  destruct (set_policy_keeps_statistics Sample.visited (dict_display [(40, 1%float)]) Ha Hp)
    as (n' & Hrun & Hk & Hin & _ & Hframe).
  exists n'. split; [exact Hrun|]. split; [exact Hk|]. split.
  - apply (Hin 0%nat 40 1%float). reflexivity.
  - rewrite Hframe. reflexivity.
Defined.

(** Six entries on the board of 2 by 2, where [MAX_ACTIONS] is 5. *)
Lemma expand_overflow_witness :
  MCTSNode.wf (MCTSNode.MAX_ACTIONS Sample.BOARD_SIZE) Sample.visited /\
  exists n',
    Sample.expand
      (dict_display [(1, 0.2%float); (2, 0.2%float); (3, 0.2%float); (4, 0.2%float);
                     (5, 0.1%float); (6, 0.1%float)]) Sample.visited = Raise IndexError n' /\
    MCTSNode.num_children n' = 3%nat /\
    MCTSNode.children_visits n' = [0; 0; 0; 0; 0] /\
    MCTSNode.action n' !! 4%nat = Some 5.
Proof.
  assert (Hwf : MCTSNode.wf (MCTSNode.MAX_ACTIONS Sample.BOARD_SIZE) Sample.visited) by node_wf.
  split; [exact Hwf|].
  destruct (expand_overflow Sample.BOARD_SIZE Sample.NOT_EXPANDED Sample.visited
              (dict_display [(1, 0.2%float); (2, 0.2%float); (3, 0.2%float); (4, 0.2%float);
                             (5, 0.1%float); (6, 0.1%float)]) Hwf ltac:(vm_compute; lia))
    as (n' & Hrun & Hk & _ & _ & Hv & _ & Hin).
  exists n'. split; [exact Hrun|]. split; [exact Hk|]. split; [exact Hv|].
  apply (Hin 4%nat 5 0.1%float); [vm_compute; lia|reflexivity].
Defined.

(** The reads on the node expanded with three priors. *)
Lemma get_child_move_after_expand_witness :
  MCTSNode.wf 5 Sample.visited /\
  exists n', Sample.expand Sample.policy3 Sample.visited = Return tt n' /\
    MCTSNode.get_num_children n' = Return 3%nat n' /\
    MCTSNode.get_child_move 1 n' = Return 20 n' /\
    MCTSNode.get_child_move 4 n' = Return 0 n' /\
    MCTSNode.get_child_move 5 n' = Raise IndexError n'.
Proof.
  assert (Hwf : MCTSNode.wf 5 Sample.visited) by node_wf.
  split; [exact Hwf|].
  destruct (get_child_move_after_expand Sample.BOARD_SIZE Sample.NOT_EXPANDED 5 Sample.visited
              Sample.policy3 Hwf ltac:(vm_compute; lia) ltac:(vm_compute; lia))
    as (n' & Hrun & Hk & Hin & Hpast & Hout).
  exists n'. split; [exact Hrun|]. split; [exact Hk|]. split; [|split].
  - apply (Hin 1%nat 20 0.3%float). reflexivity.
  - apply (Hpast 4 4%nat); [reflexivity|vm_compute; lia].
  - apply Hout. reflexivity.
Defined.

(** The three priors given again to the node expanded with them. *)
Lemma update_policy_after_expand_witness :
  MCTSNode.wf 5 Sample.fresh /\ NoDup (map fst Sample.policy3) /\
  exists n', Sample.expand Sample.policy3 Sample.fresh = Return tt n' /\
    MCTSNode.update_policy Sample.policy3 n' = Return tt n'.
Proof.
  assert (Hwf : MCTSNode.wf 5 Sample.fresh) by node_wf.
  assert (Hnd : NoDup (map fst Sample.policy3))
    by (apply (bool_decide_unpack _); vm_compute; exact I).
  split; [exact Hwf|]. split; [exact Hnd|].
  exact (update_policy_after_expand Sample.BOARD_SIZE Sample.NOT_EXPANDED 5 Sample.fresh
           Sample.policy3 Hwf ltac:(vm_compute; lia) ltac:(vm_compute; lia) Hnd).
Defined.

(** Three paths through the expanded node, two of them through child 0
    (once named by the subscript [-5]). *)
Lemma virtual_loss_balanced_witness :
  MCTSNode.wf 5 Sample.expanded /\
  exists n1 n2,
    for_each [(0, 1%float); (1, (-1)%float); (-5, 0.5%float)]
      (fun iv => MCTSNode.add_virtual_loss iv.1) Sample.expanded = Return tt n1 /\
    MCTSNode.virtual_loss n1 = 3 /\
    for_each [(0, 1%float); (1, (-1)%float); (-5, 0.5%float)]
      (fun iv => MCTSNode.update_child_value iv.1 iv.2) n1 = Return tt n2 /\
    MCTSNode.children_virtual_loss n2 = [0; 0; 0; 0; 0].
Proof.
  assert (Hwf : MCTSNode.wf 5 Sample.expanded) by node_wf.
  split; [exact Hwf|].
  destruct (virtual_loss_balanced 5 Sample.expanded
              [(0, 1%float); (1, (-1)%float); (-5, 0.5%float)] Hwf)
    as (n1 & n2 & Hadd & Hv1 & Hupd & Hcv & _).
  { repeat (apply List.Forall_cons; [eexists; reflexivity|]). apply List.Forall_nil. }
  exists n1, n2. split; [exact Hadd|]. split; [exact Hv1|]. split; [exact Hupd|exact Hcv].
Defined.

(** *** The plane generators on concrete runs *)

Lemma sample_board_wf :
  Feature.wf Sample.get_board_data 2 Sample.onboard_pos 0.
Proof.
  split; [lia|]. split; [reflexivity|]. split; [reflexivity|].
  repeat constructor; simpl; lia.
Qed.

(** The board of [Sample] after its two moves, Black to play. *)
Lemma input_planes_carry_no_move_witness :
  Feature.wf Sample.get_board_data 2 Sample.onboard_pos 0 /\
  Record.wf 3 (Record.self Sample.record) /\ 2 <= Z.of_nat 3 /\
  exists planes, Sample.generate_input_planes 2 BLACK 0 Sample.record =
                 Return planes Sample.record /\
    planes !! 3%nat = Some [[0%float; 0%float]; [0%float; 0%float]] /\
    planes !! 4%nat = Some [[0%float; 0%float]; [0%float; 0%float]] /\
    planes !! 5%nat = Some [[0%float; 0%float]; [0%float; 0%float]].
Proof.
  assert (Hwf : Record.wf 3 (Record.self Sample.record)) by (repeat split).
  assert (Hm : 2 <= Z.of_nat 3) by (simpl; lia).
  split; [exact sample_board_wf|]. split; [exact Hwf|]. split; [exact Hm|].
  destruct (input_planes_carry_no_move 3 16 Sample.get_board_data 2 2
              Sample.get_symmetrical_coordinate Sample.onboard_pos BLACK 0 Sample.record
              sample_board_wf Hwf Hm) as (planes & Hrun & Hzero & _).
  exists planes. split; [exact Hrun|]. split; [|split].
  - apply (proj2 (Hzero 0%nat ltac:(lia))). simpl. lia.
  - apply (proj1 (Hzero 0%nat ltac:(lia))).
  - apply (proj2 (Hzero 1%nat ltac:(lia))). simpl. lia.
Defined.

(** The same board said to be at move 4, with a ledger of three slots. *)
Lemma input_planes_ledger_overrun_witness :
  Record.wf 3 (Record.self Sample.record) /\ Z.of_nat 3 < 4 /\
  Sample.generate_input_planes 4 BLACK 0 Sample.record = Raise IndexError Sample.record.
Proof.
  assert (Hwf : Record.wf 3 (Record.self Sample.record)) by (repeat split).
  assert (Hm : Z.of_nat 3 < 4) by (simpl; lia).
  split; [exact Hwf|]. split; [exact Hm|].
  exact (input_planes_ledger_overrun 3 16 Sample.get_board_data 2 4
           Sample.get_symmetrical_coordinate Sample.onboard_pos BLACK 0 Sample.record Hwf Hm).
Defined.

(** The board of [Sample] for Black and for White. *)
Lemma input_planes_of_the_mover_witness :
  Feature.wf Sample.get_board_data 2 Sample.onboard_pos 0 /\
  Record.wf 3 (Record.self Sample.record) /\
  exists black white,
    Sample.generate_input_planes 2 BLACK 0 Sample.record = Return black Sample.record /\
    Sample.generate_input_planes 2 WHITE 0 Sample.record = Return white Sample.record /\
    white !! 1%nat = black !! 2%nat /\
    white !! 13%nat = Some [[(-1)%float; (-1)%float]; [(-1)%float; (-1)%float]].
Proof.
  assert (Hwf : Record.wf 3 (Record.self Sample.record)) by (repeat split).
  split; [exact sample_board_wf|]. split; [exact Hwf|].
  destruct (input_planes_of_the_mover 3 16 Sample.get_board_data 2 2
              Sample.get_symmetrical_coordinate Sample.onboard_pos 0 Sample.record
              sample_board_wf Hwf ltac:(simpl; lia))
    as (black & white & Hb & Hw & _ & Hown & _ & _ & _ & Hturn).
  exists black, white. split; [exact Hb|]. split; [exact Hw|]. split; [exact Hown|exact Hturn].
Defined.

Lemma input_planes_shape_witness :
  Feature.wf Sample.get_board_data 2 Sample.onboard_pos 0 /\
  Record.wf 3 (Record.self Sample.record) /\
  exists planes, Sample.generate_input_planes 2 WHITE 0 Sample.record =
                 Return planes Sample.record /\
    length planes = 14%nat.
Proof.
  assert (Hwf : Record.wf 3 (Record.self Sample.record)) by (repeat split).
  split; [exact sample_board_wf|]. split; [exact Hwf|].
  destruct (input_planes_shape 3 16 Sample.get_board_data 2 2
              Sample.get_symmetrical_coordinate Sample.onboard_pos WHITE 0 Sample.record
              sample_board_wf Hwf ltac:(simpl; lia)) as (planes & Hrun & Hlen & _).
  exists planes. split; [exact Hrun|exact Hlen].
Defined.

(** The targets of the board of [Sample]: the point 9, the pass, and a
    point that is not on the board. *)
Lemma target_data_one_hot_witness :
  NoDup (map (fun pos => Sample.get_symmetrical_coordinate pos 0) Sample.onboard_pos ++ [16]) /\
  Feature.generate_target_data 16 Sample.get_symmetrical_coordinate Sample.onboard_pos 9 0 =
    [0; 0; 1; 0; 0] /\
  Feature.generate_target_data 16 Sample.get_symmetrical_coordinate Sample.onboard_pos 16 0 =
    [0; 0; 0; 0; 1] /\
  Feature.generate_target_data 16 Sample.get_symmetrical_coordinate Sample.onboard_pos 7 0 =
    [0; 0; 0; 0; 0].
Proof.
  assert (Hnd : NoDup (map (fun pos => Sample.get_symmetrical_coordinate pos 0)
                         Sample.onboard_pos ++ [16]))
    by (apply (bool_decide_unpack _); vm_compute; exact I).
  split; [exact Hnd|].
  pose proof (target_data_one_hot 16 Sample.get_symmetrical_coordinate Sample.onboard_pos)
    as Hhot.
  split; [|split].
  - apply (proj1 (Hhot 9 0 Hnd) 2%nat). reflexivity.
  - apply (proj1 (Hhot 16 0 Hnd) 4%nat). reflexivity.
  - apply (proj2 (Hhot 7 0 Hnd)).
    apply (bool_decide_unpack _). vm_compute. exact I.
Defined.
